(** * Streaming reconciliation and routing of the Teams / A2A bridge

    A shallow embedding of [src/bots/dialogBot.js] and
    [src/dialogs/mainDialog.js]: the two [handleStreamingResponse]
    routines, their synchronous fallback [handleRegularResponse], the
    router [DialogBot.handleMessage], the session persistence of
    [MainDialog.run] and the steps of the waterfall.

    JavaScript is modelled as follows.
    - An [async] method is a computation in the monad [M]: it threads the
      mutable state of the turn ([State]) and either returns or throws an
      [Error] with a message.  State written before a [throw] is kept.
    - The chat surface, the timer and the remote agent are the environment
      ([Env], [A2AClient]): which calls fail, how often the typing timer
      fires while the turn is suspended, and what the agent answers.
    - Every call that leaves the process is recorded in [trace], in the
      order in which the calls are issued. *)

From Stdlib Require Import String Ascii List Arith Bool Lia PeanoNat.
Import ListNotations.
Local Open Scope string_scope.
Local Open Scope list_scope.
Local Open Scope bool_scope.
Local Open Scope nat_scope.

Infix "+++" := String.append (right associativity, at level 60).

(** ** JavaScript strings *)

Module JS.

(** [Boolean(s)] for a value that is a string or [undefined]/[null]. *)
Definition truthy (s : option string) : bool :=
  match s with
  | Some (String _ _) => true
  | _ => false
  end.

(** [s || d] for a string-or-undefined [s]. *)
Definition or_else (s : option string) (d : string) : string :=
  match s with
  | Some (String c r) => String c r
  | _ => d
  end.

(** [`${s}`]: an absent value prints as [undefined]. *)
Definition interpolate (s : option string) : string :=
  match s with
  | Some t => t
  | None => "undefined"
  end.

(** [s.includes(sub)]. *)
Fixpoint includes (s sub : string) : bool :=
  String.prefix sub s ||
  match s with
  | EmptyString => false
  | String _ r => includes r sub
  end.

Definition lowerChar (c : ascii) : ascii :=
  let n := nat_of_ascii c in
  if (65 <=? n) && (n <=? 90) then ascii_of_nat (n + 32) else c.

(** [s.toLowerCase()] on the ASCII letters.  Every other character is
    left as it is; none of them is mapped by [toLowerCase] to a letter
    of [login], [logout] or [exit], so that the comparisons with these
    words come out as in the source. *)
Fixpoint toLowerCase (s : string) : string :=
  match s with
  | EmptyString => EmptyString
  | String c r => String (lowerChar c) (toLowerCase r)
  end.

(** A text given by the bytes of its UTF-8 encoding. *)
Definition utf8 (bytes : list nat) : string :=
  fold_right (fun n s => String (ascii_of_nat n) s) EmptyString bytes.

(** The white space of ECMAScript, which [String.prototype.trim]
    strips: U+0009 to U+000D, U+0020, U+00A0, U+1680, U+2000 to U+200A,
    U+2028, U+2029, U+202F, U+205F, U+3000 and U+FEFF, each by the bytes
    of its UTF-8 encoding. *)
Definition whiteSpace : list string :=
  map (fun n => utf8 [n]) [9; 10; 11; 12; 13; 32]
  ++ [utf8 [194; 160]; utf8 [225; 154; 128]]
  ++ map (fun n => utf8 [226; 128; n]) [128; 129; 130; 131; 132; 133; 134; 135; 136; 137; 138]
  ++ [utf8 [226; 128; 168]; utf8 [226; 128; 169]; utf8 [226; 128; 175];
      utf8 [226; 129; 159]; utf8 [227; 128; 128]; utf8 [239; 187; 191]].

(** [s.startsWith(w)]. *)
Fixpoint startsWith (s w : string) {struct w} : bool :=
  match w with
  | EmptyString => true
  | String a w' =>
      match s with
      | EmptyString => false
      | String b s' => Ascii.eqb a b && startsWith s' w'
      end
  end.

(** The number of bytes of the white space character that [s] starts
    with; 0 when it starts with none. *)
Definition spaceWidth (s : string) : nat :=
  match find (startsWith s) whiteSpace with
  | Some w => String.length w
  | None => 0
  end.

(** [trimStartFrom skip s]: [s] without its first [skip] bytes and the
    white space that follows them. *)
Fixpoint trimStartFrom (skip : nat) (s : string) : string :=
  match s with
  | EmptyString => EmptyString
  | String c r =>
      match skip with
      | S k => trimStartFrom k r
      | O =>
          match spaceWidth s with
          | O => s
          | S k => trimStartFrom k r
          end
      end
  end.

Definition trimStart (s : string) : string := trimStartFrom 0 s.

(** [s] is white space throughout. *)
Definition isBlank (s : string) : bool :=
  match trimStart s with
  | EmptyString => true
  | String _ _ => false
  end.

Fixpoint trimEnd (s : string) : string :=
  match s with
  | EmptyString => EmptyString
  | String c r => if isBlank s then EmptyString else String c (trimEnd r)
  end.

(** [s.trim()], on the UTF-8 encoding of the text. *)
Definition trim (s : string) : string := trimEnd (trimStart s).

End JS.

(** ** The agent protocol, as the code reads it

    Fields the code tests for presence before use are [option]s; the
    others are read unguarded. *)

Record Part := mkPart {
  part_kind : string;
  part_text : option string;
  part_filename : option string }.

Definition TextPart (t : string) : Part := mkPart "text" (Some t) None.
Definition FilePart (f : option string) : Part := mkPart "file" None f.

Record Artifact := mkArtifact {
  artifactId : string;
  art_name : option string;
  art_parts : option (list Part) }.

Record TaskStatus := mkStatus {
  state : string;
  message : option string }.

Record Task := mkTask {
  task_id : string;
  status : TaskStatus;
  artifacts : option (list Artifact) }.

(** An object yielded by the stream or returned by [sendMessage],
    discriminated by its [kind]. *)
Inductive Event :=
| Message (parts : option (list Part))
| TaskEvent (t : Task)
| StatusUpdate (st : TaskStatus)
| ArtifactUpdate (a : option Artifact)
| Other (kind : string).

(** [sendParams]: the outbound message ([messageId] from [uuidv4()]). *)
Record SendParams := mkParams {
  messageId : string;
  userMessage : option string }.

Inductive Res (A : Type) :=
| Ok (a : A)
| Throw (msg : string).
Arguments Ok {A} a.
Arguments Throw {A} msg.

(** What iterating [sendMessageStream(p)] yields: the events, then either
    the end of the stream or an exception. *)
Record Stream := mkStream {
  events : list Event;
  failure : option string }.

(** The JSON-RPC response of [sendMessage]. *)
Inductive Response :=
| RpcError (msg : string)
| RpcResult (result : Event).

Definition AgentCard := string.

Record A2AClient := mkClient {
  sendMessageStream : SendParams -> Stream;
  sendMessage : SendParams -> Res Response;
  getAgentCard : Res AgentCard }.

(** ** The state of a turn *)

(** The id of the [ResourceResponse] that [sendActivity] returns. *)
Definition Handle := nat.

Inductive Call :=
| Typing                                 (* sendActivity({ type: 'typing' }) *)
| TimerTyping                            (* the same, sent by the interval callback *)
| Send (text : string)                   (* sendActivity(text) *)
| Update (h : Handle) (text : string)    (* updateActivity({...h, text, type: 'message'}) *)
| ClearInterval                          (* clearInterval(typingInterval) *)
| OpenStream (p : SendParams)            (* a2aClient.sendMessageStream(p) *)
| SendMessage (p : SendParams)           (* a2aClient.sendMessage(p) *)
| RunDialog                              (* this.dialog.run(context, dialogState) *)
| ReplaceDialog                          (* stepContext.replaceDialog(MAIN_WATERFALL_DIALOG, ...) *)
| EndDialog                              (* stepContext.endDialog() *)
| Next.                                  (* next() *)

(** The local variables of [handleStreamingResponse]. *)
Record Locals := mkLocals {
  accumulatedText : string;
  currentTask : option Task;
  receivedEvents : bool;
  lastArtifacts : list Artifact;
  messageActivity : option Handle;
  updateCount : nat;
  isCompleted : bool }.

(** [context.turnState], at the keys the code uses. *)
Record TurnState := mkTurn {
  accessToken : option string;
  a2aClient : option A2AClient;
  a2aServerUrl : option string;
  agentCard : option AgentCard;
  conversationState : bool }.

(** The [a2aState] property of the conversation state; [{}] is
    [mkSaved None None]. *)
Record A2AState := mkSaved {
  saved_accessToken : option string;
  saved_a2aServerUrl : option string }.

Record State := mkState {
  locals : Locals;
  trace : list Call;
  awaits : nat;              (* suspension points passed so far *)
  typingInterval : bool;     (* the interval is set and not yet cleared *)
  turnState : TurnState;
  a2aState : A2AState }.

Definition M (A : Type) : Type := State -> Res A * State.

(** The surroundings of a turn.  Suspension points ([await] of a call that
    leaves the process) are numbered in the order they are reached. *)
Record Env := mkEnv {
  sendOutcome : nat -> option string;    (* sendActivity at point k throws this *)
  updateOutcome : nat -> option string;  (* updateActivity at point k throws this *)
  ticks : nat -> nat;                    (* firings of a set interval during point k *)
  fromCardUrl : string -> string -> Res A2AClient;   (* url, bearer token *)
  waterfall : M unit }.                  (* the dialog stack run by DialogSet *)

(** ** Assignments *)

Definition set_accumulatedText (v : string) (l : Locals) : Locals :=
  mkLocals v (currentTask l) (receivedEvents l) (lastArtifacts l)
           (messageActivity l) (updateCount l) (isCompleted l).
Definition set_currentTask (v : option Task) (l : Locals) : Locals :=
  mkLocals (accumulatedText l) v (receivedEvents l) (lastArtifacts l)
           (messageActivity l) (updateCount l) (isCompleted l).
Definition set_receivedEvents (v : bool) (l : Locals) : Locals :=
  mkLocals (accumulatedText l) (currentTask l) v (lastArtifacts l)
           (messageActivity l) (updateCount l) (isCompleted l).
Definition set_lastArtifacts (v : list Artifact) (l : Locals) : Locals :=
  mkLocals (accumulatedText l) (currentTask l) (receivedEvents l) v
           (messageActivity l) (updateCount l) (isCompleted l).
Definition set_messageActivity (v : option Handle) (l : Locals) : Locals :=
  mkLocals (accumulatedText l) (currentTask l) (receivedEvents l) (lastArtifacts l)
           v (updateCount l) (isCompleted l).
Definition set_updateCount (v : nat) (l : Locals) : Locals :=
  mkLocals (accumulatedText l) (currentTask l) (receivedEvents l) (lastArtifacts l)
           (messageActivity l) v (isCompleted l).
Definition set_isCompleted (v : bool) (l : Locals) : Locals :=
  mkLocals (accumulatedText l) (currentTask l) (receivedEvents l) (lastArtifacts l)
           (messageActivity l) (updateCount l) v.

Definition set_status (v : TaskStatus) (t : Task) : Task :=
  mkTask (task_id t) v (artifacts t).

Definition set_locals (v : Locals) (s : State) : State :=
  mkState v (trace s) (awaits s) (typingInterval s) (turnState s) (a2aState s).
Definition set_trace (v : list Call) (s : State) : State :=
  mkState (locals s) v (awaits s) (typingInterval s) (turnState s) (a2aState s).
Definition set_awaits (v : nat) (s : State) : State :=
  mkState (locals s) (trace s) v (typingInterval s) (turnState s) (a2aState s).
Definition set_typingInterval (v : bool) (s : State) : State :=
  mkState (locals s) (trace s) (awaits s) v (turnState s) (a2aState s).
Definition set_turnState (v : TurnState) (s : State) : State :=
  mkState (locals s) (trace s) (awaits s) (typingInterval s) v (a2aState s).
Definition set_a2aState (v : A2AState) (s : State) : State :=
  mkState (locals s) (trace s) (awaits s) (typingInterval s) (turnState s) v.

(** The declarations at the head of [handleStreamingResponse]. *)
Definition initialLocals : Locals :=
  mkLocals "" None false [] None 0 false.

(** A turn before anything has happened in it. *)
Definition startOfTurn (ts : TurnState) (saved : A2AState) : State :=
  mkState initialLocals [] 0 false ts saved.

(** ** Control flow: sequencing, [throw], [try]/[catch]/[finally] *)

Definition ret {A} (a : A) : M A := fun s => (Ok a, s).

Definition bind {A B} (m : M A) (f : A -> M B) : M B :=
  fun s =>
    match m s with
    | (Ok a, s') => f a s'
    | (Throw e, s') => (Throw e, s')
    end.

Definition throw {A} (msg : string) : M A := fun s => (Throw msg, s).

Definition try_catch {A} (m : M A) (handler : string -> M A) : M A :=
  fun s =>
    match m s with
    | (Ok a, s') => (Ok a, s')
    | (Throw e, s') => handler e s'
    end.

Definition try_finally {A} (m : M A) (cleanup : M unit) : M A :=
  fun s =>
    let (r, s') := m s in
    match cleanup s' with
    | (Ok _, s'') => (r, s'')
    | (Throw e, s'') => (Throw e, s'')
    end.

Declare Scope js_scope.
Delimit Scope js_scope with js.
Notation "x <- c1 ;; c2" := (bind c1 (fun x => c2))
  (at level 61, c1 at next level, right associativity) : js_scope.
Notation "c1 ;; c2" := (bind c1 (fun _ => c2))
  (at level 61, right associativity) : js_scope.
Local Open Scope js_scope.

(** [try { m } catch (e) { console.log(...) }] *)
Definition swallow (m : M unit) : M unit := try_catch m (fun _ => ret tt).

Definition when (b : bool) (m : M unit) : M unit := if b then m else ret tt.

Fixpoint forEach {A} (body : A -> M unit) (xs : list A) : M unit :=
  match xs with
  | [] => ret tt
  | x :: rest => body x ;; forEach body rest
  end.

Definition getLocals : M Locals := fun s => (Ok (locals s), s).
Definition modifyLocals (f : Locals -> Locals) : M unit :=
  fun s => (Ok tt, set_locals (f (locals s)) s).
Definition getTurnState : M TurnState := fun s => (Ok (turnState s), s).
Definition modifyTurnState (f : TurnState -> TurnState) : M unit :=
  fun s => (Ok tt, set_turnState (f (turnState s)) s).
Definition getA2AState : M A2AState := fun s => (Ok (a2aState s), s).
Definition putA2AState (v : A2AState) : M unit :=
  fun s => (Ok tt, set_a2aState v s).

Definition record (c : Call) : M unit :=
  fun s => (Ok tt, set_trace (trace s ++ [c]) s).

(** ** The chat surface and the typing timer *)

(** One run of the interval callback:
    [if (!isCompleted) { try { sendActivity(typing) } catch { log } }]. *)
Definition fire (s : State) : State :=
  if isCompleted (locals s) then s else set_trace (trace s ++ [TimerTyping]) s.

Section Surface.
Variable env : Env.

(** What happens while the turn is suspended at point [k]: a set interval
    fires [ticks env k] times. *)
Definition elapse (k : nat) (s : State) : State :=
  if typingInterval s then Nat.iter (ticks env k) fire s else s.

(** An [await] of a call that leaves the process; returns its number. *)
Definition suspend : M nat :=
  fun s => let k := awaits s in (Ok k, elapse k (set_awaits (S k) s)).

Definition settle {A} (outcome : option string) (a : A) : M A :=
  match outcome with
  | Some msg => throw msg
  | None => ret a
  end.

(** [await context.sendActivity(text)]; the response is an object that
    carries a fresh id, the number of the suspension point here. *)
Definition sendActivity (text : string) : M Handle :=
  record (Send text) ;;
  k <- suspend ;;
  settle (sendOutcome env k) k.

Definition sendText (text : string) : M unit :=
  sendActivity text ;; ret tt.

(** [await context.sendActivity({ type: 'typing' })] *)
Definition sendTyping : M unit :=
  record Typing ;;
  k <- suspend ;;
  settle (sendOutcome env k) tt.

(** [await context.updateActivity({...messageActivity, text, type: 'message'})] *)
Definition updateActivity (h : Handle) (text : string) : M unit :=
  record (Update h text) ;;
  k <- suspend ;;
  settle (updateOutcome env k) tt.

End Surface.

Definition armInterval (b : bool) : M unit :=
  fun s => (Ok tt, set_typingInterval b s).

(** [setInterval(callback, 2000)] *)
Definition setInterval : M unit := armInterval true.

(** [clearInterval(typingInterval)] *)
Definition clearInterval : M unit :=
  record ClearInterval ;;
  armInterval false.

(** ** The event loop of [handleStreamingResponse]

    dialogBot.js lines 150-251 and mainDialog.js lines 594-695 are the same
    text up to the context accessor, the log prefix and the bytes of the
    glyph in front of the text, which is the parameter [robot].

    Objects are modelled by value: [lastArtifacts = event.artifacts] and
    [currentTask = event] alias the event in the source, but nothing reads
    [currentTask.artifacts] or the event again, and each event of the
    stream is a freshly parsed object.  So [currentTask] keeps here the
    artifacts of the task as they were received, where in the source
    that array is the one [lastArtifacts] appends to; of [currentTask]
    only the id and the status are read and spoken of. *)

Section Reconciler.
Variable env : Env.
Variable robot : string.

(** [`<robot> ${accumulatedText}`] *)
Definition rendered (l : Locals) : string :=
  robot +++ " " +++ accumulatedText l.

(** One contribution of text (bot 158-178 and 222-239):
    [accumulatedText += t; updateCount++], then create the message, or
    update it when [updateCount % UPDATE_INTERVAL === 0]. *)
Definition contribute (t : string) : M unit :=
  modifyLocals (fun l => set_accumulatedText (accumulatedText l +++ t) l) ;;
  modifyLocals (fun l => set_updateCount (S (updateCount l)) l) ;;
  l <- getLocals ;;
  match messageActivity l with
  | None =>
      response <- sendActivity env (rendered l) ;;
      modifyLocals (set_messageActivity (Some response))
  | Some h =>
      when (updateCount l mod 5 =? 0)
           (swallow (updateActivity env h (rendered l)))
  end.

(** The body of [for (const part of event.artifact.parts)]. *)
Definition collectPart (part : Part) : M unit :=
  when (String.eqb (part_kind part) "text" && JS.truthy (part_text part))
       (contribute (JS.interpolate (part_text part))).

Definition onMessage (parts : option (list Part)) : M unit :=
  match parts with
  | Some (first :: _) =>
      when (JS.truthy (part_text first))
           (contribute (JS.interpolate (part_text first)))
  | _ => ret tt
  end.

Definition onTask (t : Task) : M unit :=
  modifyLocals (set_currentTask (Some t)) ;;
  match artifacts t with
  | Some (a :: rest) => modifyLocals (set_lastArtifacts (a :: rest))
  | _ => ret tt
  end.

Definition onStatusUpdate (st : TaskStatus) : M unit :=
  modifyLocals (fun l =>
    match currentTask l with
    | Some t => set_currentTask (Some (set_status st t)) l
    | None => l
    end) ;;
  when (String.eqb (state st) "completed")
    (modifyLocals (set_isCompleted true) ;;
     clearInterval ;;
     l <- getLocals ;;
     match messageActivity l with
     | Some h =>
         when (JS.truthy (Some (accumulatedText l)))
              (swallow (updateActivity env h (rendered l)))
     | None => ret tt
     end).

Definition onArtifactUpdate (a : option Artifact) : M unit :=
  match a with
  | Some artifact =>
      match art_parts artifact with
      | Some parts =>
          forEach collectPart parts ;;
          modifyLocals (fun l => set_lastArtifacts (lastArtifacts l ++ [artifact]) l)
      | None => ret tt
      end
  | None => ret tt
  end.

(** The body of [for await (const event of stream)]. *)
Definition processEvent (event : Event) : M unit :=
  modifyLocals (set_receivedEvents true) ;;
  match event with
  | Message parts => onMessage parts
  | TaskEvent t => onTask t
  | StatusUpdate st => onStatusUpdate st
  | ArtifactUpdate a => onArtifactUpdate a
  | Other _ => ret tt
  end.

(** [for await (const event of stream) { ... }]: wait for the next item,
    which is an event, the end of the stream, or an exception. *)
Fixpoint forAwait (evs : list Event) (fail : option string) : M unit :=
  suspend env ;;
  match evs with
  | [] =>
      match fail with
      | Some msg => throw msg
      | None => ret tt
      end
  | event :: rest => processEvent event ;; forAwait rest fail
  end.

(** [finally { clearInterval(typingInterval); isCompleted = true; }] *)
Definition cleanup : M unit :=
  clearInterval ;;
  modifyLocals (set_isCompleted true).

(** The statements of [handleStreamingResponse] before its inner [try]:
    the typing indicator, the stream, the locals and the timer. *)
Definition startStreaming (p : SendParams) : M unit :=
  sendTyping env ;;
  record (OpenStream p) ;;
  modifyLocals (fun _ => initialLocals) ;;
  setInterval.

(** The inner [try { for await ... } finally { ... }]. *)
Definition streamLoop (stream : Stream) : M unit :=
  try_finally (forAwait (events stream) (failure stream)) cleanup.

(** From the first statement of [handleStreamingResponse] to the end of
    its inner [try]/[finally]. *)
Definition consumeStream (client : A2AClient) (p : SendParams) : M unit :=
  startStreaming p ;;
  streamLoop (sendMessageStream client p).

End Reconciler.

(** ** mainDialog.js

    The glyphs are the byte sequences of the file. *)

Module MainDialog.

Definition robot : string := "ğŸ¤–".
Definition target : string := "ğŸ¯".
Definition paperclip : string := "ğŸ“".
Definition page : string := "ğŸ“„".
Definition folder : string := "ğŸ—‚ï¸".
Definition info : string := "â„¹ï¸".
Definition warning : string := "âš ï¸".
Definition hourglass : string := "â³".
Definition cross : string := "âŒ".

Section WithEnv.
Variable env : Env.

Definition displayPart (part : Part) : M unit :=
  if String.eqb (part_kind part) "text" then
    sendText env (page +++ " " +++ JS.interpolate (part_text part))
  else if String.eqb (part_kind part) "file" then
    sendText env (folder +++ " File: " +++ JS.or_else (part_filename part) "unnamed file")
  else ret tt.

(** [displayTaskArtifacts(artifacts, stepContext)], lines 805-819. *)
Definition displayTaskArtifacts (arts : list Artifact) : M unit :=
  forEach (fun artifact =>
    sendText env (paperclip +++ " **" +++ JS.or_else (art_name artifact) (artifactId artifact) +++ "**") ;;
    match art_parts artifact with
    | Some parts => forEach displayPart parts
    | None => ret tt
    end) arts.

(** [handleRegularResponse(a2aClient, sendParams, stepContext)], lines 753-796. *)
Definition handleRegularResponse (client : A2AClient) (p : SendParams) : M unit :=
  sendTyping env ;;
  record (SendMessage p) ;;
  suspend env ;;
  match sendMessage client p with
  | Throw msg => throw msg
  | Ok (RpcError msg) => throw msg
  | Ok (RpcResult result) =>
      match result with
      | Message None => throw "Cannot read properties of undefined (reading '0')"
      | Message (Some parts) =>
          let text := JS.or_else (match parts with first :: _ => part_text first | [] => None end)
                                 "No text content" in
          sendText env (robot +++ " " +++ text)
      | TaskEvent t =>
          sendText env (target +++ " Task: " +++ task_id t +++ " - " +++ state (status t)) ;;
          match artifacts t with
          | Some (a :: rest) => displayTaskArtifacts (a :: rest)
          | _ => ret tt
          end ;;
          when (JS.truthy (message (status t)))
               (sendText env (info +++ " " +++ JS.interpolate (message (status t)))) ;;
          when (negb (String.eqb (state (status t)) "completed")
                && negb (String.eqb (state (status t)) "failed")
                && negb (String.eqb (state (status t)) "canceled"))
               (sendText env (hourglass +++ " Task is " +++ state (status t)
                              +++ ". The agent will notify when complete."))
      | _ => ret tt
      end
  end.

(** The statements of [handleStreamingResponse] after its inner
    [try]/[finally], lines 699-735. *)
Definition finalResponse : M unit :=
  l <- getLocals ;;
  if JS.truthy (Some (accumulatedText l)) then
    match messageActivity l with
    | Some h =>
        try_catch (updateActivity env h (rendered robot l))
                  (fun _ => sendText env (rendered robot l))
    | None => sendText env (rendered robot l)
    end
  else
    match currentTask l with
    | Some t =>
        sendText env (target +++ " Task " +++ task_id t +++ ": " +++ state (status t)) ;;
        match lastArtifacts l with
        | a :: rest => displayTaskArtifacts (a :: rest)
        | [] => ret tt
        end ;;
        when (JS.truthy (message (status t)))
             (sendText env (info +++ " " +++ JS.interpolate (message (status t))))
    | None =>
        when (negb (receivedEvents l))
             (sendText env (warning +++ " No response received from agent."))
    end.

(** [handleStreamingResponse(a2aClient, sendParams, stepContext)], lines 565-745. *)
Definition handleStreamingResponse (client : A2AClient) (p : SendParams) : M unit :=
  try_catch (consumeStream env robot client p ;; finalResponse)
            (fun _ => handleRegularResponse client p).

(** [sendMessageWithPolling(a2aClient, userMessage, stepContext)], lines 536-557. *)
Definition sendMessageWithPolling (client : A2AClient) (userText uuid : string) : M unit :=
  try_catch (handleStreamingResponse client (mkParams uuid (Some userText)))
            (fun msg => throw ("Failed to communicate with A2A agent: " +++ msg)).

(** [handleQueryResponse(stepContext)], lines 500-528; [userText] is
    [stepContext.result]. *)
Definition handleQueryResponse (userText uuid : string) : M unit :=
  if String.eqb (JS.toLowerCase userText) "exit" then
    sendText env "ğŸ‘‹ Goodbye! A2A session ended." ;;
    record EndDialog
  else
    ts <- getTurnState ;;
    match a2aClient ts with
    | None =>
        sendText env (cross +++ " A2A client not available. Please restart the authentication process.") ;;
        record EndDialog
    | Some client =>
        try_catch
          (sendMessageWithPolling client userText uuid ;;
           record ReplaceDialog)
          (fun msg =>
             sendText env (cross +++ " Error processing your message: " +++ msg) ;;
             record EndDialog)
    end.

(** [restoreA2AState(context)], lines 182-220. *)
Definition restoreA2AState : M unit :=
  swallow
    (ts <- getTurnState ;;
     when (conversationState ts)
       (saved <- getA2AState ;;
        match saved_accessToken saved, saved_a2aServerUrl saved with
        | Some (String c1 r1), Some (String c2 r2) =>
            let token := String c1 r1 in
            let url := String c2 r2 in
            modifyTurnState (fun ts =>
              mkTurn (Some token) (a2aClient ts) (Some url) (agentCard ts) (conversationState ts)) ;;
            suspend env ;;
            match fromCardUrl env url token with
            | Throw msg => throw msg
            | Ok client =>
                suspend env ;;
                match getAgentCard client with
                | Throw msg => throw msg
                | Ok card =>
                    modifyTurnState (fun ts =>
                      mkTurn (accessToken ts) (Some client) (a2aServerUrl ts) (Some card)
                             (conversationState ts))
                end
            end
        | _, _ => ret tt
        end)).

(** [persistA2AState(context)], lines 226-245. *)
Definition persistA2AState : M unit :=
  swallow
    (ts <- getTurnState ;;
     when (conversationState ts)
       (when (JS.truthy (accessToken ts) && JS.truthy (a2aServerUrl ts))
          (putA2AState (mkSaved (accessToken ts) (a2aServerUrl ts))))).

(** [run(context, accessor)], lines 58-72; the dialog stack between the
    two calls is [waterfall env]. *)
Definition run : M unit :=
  restoreA2AState ;;
  waterfall env ;;
  persistA2AState.

End WithEnv.
End MainDialog.

(** ** dialogBot.js *)

Module DialogBot.

Definition robot : string := "🤖".
Definition target : string := "🎯".
Definition paperclip : string := "📎".
Definition page : string := "📄".
Definition folder : string := "🗂️".
Definition info : string := "ℹ️".
Definition warning : string := "⚠️".
Definition hourglass : string := "⏳".

Section WithEnv.
Variable env : Env.

(** The body of [for (const part of artifact.parts)], lines 286-290 and
    344-348. *)
Definition displayPart (part : Part) : M unit :=
  if String.eqb (part_kind part) "text" then
    sendText env (page +++ " " +++ JS.interpolate (part_text part))
  else if String.eqb (part_kind part) "file" then
    sendText env (folder +++ " File: " +++ JS.or_else (part_filename part) "unnamed")
  else ret tt.

(** [for (const artifact of ...)], lines 282-293 and 340-351. *)
Definition displayArtifacts (arts : list Artifact) : M unit :=
  forEach (fun artifact =>
    sendText env (paperclip +++ " " +++ JS.or_else (art_name artifact) (artifactId artifact)) ;;
    match art_parts artifact with
    | Some parts => forEach displayPart parts
    | None => ret tt
    end) arts.

(** [handleRegularResponse(context, a2aClient, sendParams)], lines 320-364. *)
Definition handleRegularResponse (client : A2AClient) (p : SendParams) : M unit :=
  sendTyping env ;;
  record (SendMessage p) ;;
  suspend env ;;
  match sendMessage client p with
  | Throw msg => throw msg
  | Ok (RpcError msg) => throw msg
  | Ok (RpcResult result) =>
      match result with
      | Message None => throw "Cannot read properties of undefined (reading '0')"
      | Message (Some parts) =>
          let text := JS.or_else (match parts with first :: _ => part_text first | [] => None end)
                                 "No text content" in
          sendText env (robot +++ " " +++ text)
      | TaskEvent t =>
          sendText env (target +++ " Task: " +++ task_id t +++ " (" +++ state (status t) +++ ")") ;;
          match artifacts t with
          | Some (a :: rest) => displayArtifacts (a :: rest)
          | _ => ret tt
          end ;;
          when (JS.truthy (message (status t)))
               (sendText env (info +++ " " +++ JS.interpolate (message (status t)))) ;;
          when (negb (String.eqb (state (status t)) "completed")
                && negb (String.eqb (state (status t)) "failed")
                && negb (String.eqb (state (status t)) "canceled"))
               (sendText env (hourglass +++ " Task is " +++ state (status t)
                              +++ ". The agent will notify when complete."))
      | _ => ret tt
      end
  end.

(** The statements of [handleStreamingResponse] after its inner
    [try]/[finally], lines 255-302. *)
Definition finalResponse : M unit :=
  l <- getLocals ;;
  if JS.truthy (Some (accumulatedText l)) then
    match messageActivity l with
    | Some h =>
        try_catch (updateActivity env h (rendered robot l))
                  (fun _ => sendText env (rendered robot l))
    | None => sendText env (rendered robot l)
    end
  else
    match currentTask l with
    | Some t =>
        sendText env (target +++ " Task " +++ task_id t +++ ": " +++ state (status t)) ;;
        match lastArtifacts l with
        | a :: rest => displayArtifacts (a :: rest)
        | [] => ret tt
        end ;;
        when (JS.truthy (message (status t)))
             (sendText env (info +++ " " +++ JS.interpolate (message (status t))))
    | None =>
        when (negb (receivedEvents l))
             (sendText env (warning +++ " No response received from agent."))
    end.

(** [handleStreamingResponse(context, a2aClient, sendParams)], lines 121-312. *)
Definition handleStreamingResponse (client : A2AClient) (p : SendParams) : M unit :=
  try_catch (consumeStream env robot client p ;; finalResponse)
            (fun _ => handleRegularResponse client p).

(** [error.message.includes('401') || error.message.includes('Unauthorized')] *)
Definition isAuthError (msg : string) : bool :=
  JS.includes msg "401" || JS.includes msg "Unauthorized".

(** [routeToA2AAgent(context, a2aClient)], lines 90-113; [activityText] is
    [context.activity.text] and [uuid] the value of [uuidv4()]. *)
Definition routeToA2AAgent (activityText : option string) (uuid : string)
    (client : A2AClient) : M unit :=
  try_catch (handleStreamingResponse client (mkParams uuid activityText))
            (fun msg =>
               if isAuthError msg
               then throw "401 Unauthorized - Authentication required"
               else throw msg).

Definition dialogCommands : list string := ["login"; "logout"; "exit"].

(** [context.activity.text?.trim().toLowerCase()] is one of the commands. *)
Definition isDialogCommand (activityText : option string) : bool :=
  match activityText with
  | Some t => existsb (String.eqb (JS.toLowerCase (JS.trim t))) dialogCommands
  | None => false
  end.

(** [context.turnState.set('accessToken', null); set('a2aClient', null)] *)
Definition clearAuth (ts : TurnState) : TurnState :=
  mkTurn None None (a2aServerUrl ts) (agentCard ts) (conversationState ts).

(** The [if] of [handleMessage], lines 57-77; returns whether the method
    has returned from inside it. *)
Definition routeOrFallThrough (activityText : option string) (uuid : string) : M bool :=
  ts <- getTurnState ;;
  match a2aClient ts with
  | Some client =>
      if negb (isDialogCommand activityText) && JS.truthy (accessToken ts) then
        try_catch
          (routeToA2AAgent activityText uuid client ;;
           record Next ;;
           ret true)
          (fun msg =>
             if isAuthError msg then
               modifyTurnState clearAuth ;;
               ret false
             else
               sendText env (warning +++ " Error communicating with agent: " +++ msg) ;;
               record Next ;;
               ret true)
      else ret false
  | None => ret false
  end.

(** [handleMessage(context, next)], lines 43-83. *)
Definition handleMessage (activityText : option string) (uuid : string) : M unit :=
  returned <- routeOrFallThrough activityText uuid ;;
  if (returned : bool) then ret tt
  else
    record RunDialog ;;
    MainDialog.run env ;;
    record Next.

End WithEnv.
End DialogBot.

(** ** Observations on runs *)

Definition result {A} (m : M A) (s : State) : Res A := fst (m s).
Definition exec {A} (m : M A) (s : State) : State := snd (m s).

Definition isSend (c : Call) : bool :=
  match c with Send _ => true | _ => false end.
Definition isUpdate (c : Call) : bool :=
  match c with Update _ _ => true | _ => false end.
Definition isTimerTyping (c : Call) : bool :=
  match c with TimerTyping => true | _ => false end.
Definition isOpenStream (c : Call) : bool :=
  match c with OpenStream _ => true | _ => false end.
Definition isSendMessage (c : Call) : bool :=
  match c with SendMessage _ => true | _ => false end.

Definition count (f : Call -> bool) (tr : list Call) : nat :=
  length (filter f tr).

(** Messages created ([sendActivity] with a text). *)
Definition sends (tr : list Call) : nat := count isSend tr.
(** Updates in place ([updateActivity]). *)
Definition updates (tr : list Call) : nat := count isUpdate tr.
(** Typing indicators sent by the interval callback. *)
Definition timerTypings (tr : list Call) : nat := count isTimerTyping tr.

(** What a call shows to the user, if anything. *)
Definition shown (c : Call) : option string :=
  match c with
  | Send text => Some text
  | Update _ text => Some text
  | _ => None
  end.

(** Every update in [tr] edits the message [h]. *)
Definition updatesOnly (h : Handle) (tr : list Call) : Prop :=
  forall h' text, In (Update h' text) tr -> h' = h.

(** No typing indicator of the timer follows the first [ClearInterval]. *)
Fixpoint quietAfterClear (tr : list Call) : bool :=
  match tr with
  | [] => true
  | ClearInterval :: rest => forallb (fun c => negb (isTimerTyping c)) rest
  | _ :: rest => quietAfterClear rest
  end.

Definition isCompletion (e : Event) : bool :=
  match e with
  | StatusUpdate st => String.eqb (state st) "completed"
  | _ => false
  end.

(** The status updates of the stream whose state is [completed]. *)
Definition completions (evs : list Event) : nat :=
  length (filter isCompletion evs).

(** [event.parts[0].text] when [event.parts && event.parts[0]?.text]
    holds, the empty string otherwise. *)
Definition firstText (parts : option (list Part)) : string :=
  match parts with
  | Some (first :: _) => JS.or_else (part_text first) ""
  | _ => ""
  end.

Definition nonEmpty (t : string) : bool :=
  match t with
  | EmptyString => false
  | String _ _ => true
  end.

(** The locals after [accumulatedText += t; updateCount++]. *)
Definition counted (t : string) (l : Locals) : Locals :=
  set_updateCount (S (updateCount l)) (set_accumulatedText (accumulatedText l +++ t) l).

(** The typing indicators the timer sends while the turn is suspended at
    point [k] in state [s]. *)
Definition noise (env : Env) (k : nat) (s : State) : list Call :=
  if typingInterval s && negb (isCompleted (locals s))
  then repeat TimerTyping (ticks env k)
  else [].

(** The state in which the loop of [handleStreamingResponse] starts, when
    the first typing indicator went out. *)
Definition started (env : Env) (p : SendParams) (s : State) : State :=
  mkState initialLocals
          ((trace s ++ Typing :: noise env (awaits s) s) ++ [OpenStream p])
          (S (awaits s)) true (turnState s) (a2aState s).

(** The state in which the fallback starts, when it did not. *)
Definition notStarted (env : Env) (s : State) : State :=
  mkState (locals s) (trace s ++ Typing :: noise env (awaits s) s)
          (S (awaits s)) (typingInterval s) (turnState s) (a2aState s).

(** ** Reasoning about runs

    [steps R m]: every run of [m], returning or throwing, takes a state to
    an [R]-related one.  [succeeds I m]: from a state in [I], [m] returns
    and re-establishes [I].  [related m1 m2]: from similar states, [m1] and
    [m2] end alike in similar states. *)

Definition steps (R : State -> State -> Prop) {A} (m : M A) : Prop :=
  forall s, R s (exec m s).

Definition succeeds (I : State -> Prop) {A} (m : M A) : Prop :=
  forall s, I s -> (exists a, result m s = Ok a) /\ I (exec m s).

(** What a text shown by either file says, apart from the labels of the
    file. *)
Inductive Line :=
| AgentText (text : string)                (* the text of the agent, streamed or not *)
| FallbackTask (id taskState : string)     (* the task line of [handleRegularResponse] *)
| FinalTask (id taskState : string)        (* the task line of the final response *)
| ArtifactName (name : string)
| TextOfPart (text : string)
| FileOfPart (filename : option string)
| StatusMessage (text : string)
| WillNotify (taskState : string)
| NoResponse.

(** The line as dialogBot.js prints it. *)
Definition botLine (line : Line) : string :=
  match line with
  | AgentText text => DialogBot.robot +++ " " +++ text
  | FallbackTask id taskState =>
      DialogBot.target +++ " Task: " +++ id +++ " (" +++ taskState +++ ")"
  | FinalTask id taskState => DialogBot.target +++ " Task " +++ id +++ ": " +++ taskState
  | ArtifactName name => DialogBot.paperclip +++ " " +++ name
  | TextOfPart text => DialogBot.page +++ " " +++ text
  | FileOfPart filename => DialogBot.folder +++ " File: " +++ JS.or_else filename "unnamed"
  | StatusMessage text => DialogBot.info +++ " " +++ text
  | WillNotify taskState =>
      DialogBot.hourglass +++ " Task is " +++ taskState
      +++ ". The agent will notify when complete."
  | NoResponse => DialogBot.warning +++ " No response received from agent."
  end.

(** The line as mainDialog.js prints it: other bytes for the glyphs,
    other punctuation in the task line of the fallback, the name of an
    artifact in bold, another placeholder for a file without a name. *)
Definition dialogLine (line : Line) : string :=
  match line with
  | AgentText text => MainDialog.robot +++ " " +++ text
  | FallbackTask id taskState =>
      MainDialog.target +++ " Task: " +++ id +++ " - " +++ taskState
  | FinalTask id taskState => MainDialog.target +++ " Task " +++ id +++ ": " +++ taskState
  | ArtifactName name => MainDialog.paperclip +++ " **" +++ name +++ "**"
  | TextOfPart text => MainDialog.page +++ " " +++ text
  | FileOfPart filename =>
      MainDialog.folder +++ " File: " +++ JS.or_else filename "unnamed file"
  | StatusMessage text => MainDialog.info +++ " " +++ text
  | WillNotify taskState =>
      MainDialog.hourglass +++ " Task is " +++ taskState
      +++ ". The agent will notify when complete."
  | NoResponse => MainDialog.warning +++ " No response received from agent."
  end.

(** A call of dialogBot.js and the call of mainDialog.js that
    corresponds to it: the same call, or a message created or updated
    with the same line, each in the labels of its file. *)
Inductive twin : Call -> Call -> Prop :=
| twin_same c : twin c c
| twin_send line : twin (Send (botLine line)) (Send (dialogLine line))
| twin_update h line : twin (Update h (botLine line)) (Update h (dialogLine line)).

(** A state of dialogBot.js and a state of mainDialog.js that differ at
    most in the labels of the texts shown so far. *)
Definition sim (s1 s2 : State) : Prop :=
  locals s1 = locals s2 /\
  Forall2 twin (trace s1) (trace s2) /\
  awaits s1 = awaits s2 /\
  typingInterval s1 = typingInterval s2 /\
  turnState s1 = turnState s2 /\
  a2aState s1 = a2aState s2.

Definition related {A} (m1 m2 : M A) : Prop :=
  forall s1 s2, sim s1 s2 ->
    result m1 s1 = result m2 s2 /\ sim (exec m1 s1) (exec m2 s2).

(** The relations and invariants used below. *)

(** The calls made extend the trace, and none of them shows a text. *)
Definition showsNothing (s s' : State) : Prop :=
  exists tl, trace s' = trace s ++ tl /\ Forall (fun c => shown c = None) tl.

(** The trace stays quiet after a [ClearInterval], and a set interval has
    not been cleared yet. *)
Definition timerDiscipline (s : State) : Prop :=
  quietAfterClear (trace s) = true /\
  (typingInterval s = true -> ~ In ClearInterval (trace s)).

Definition keepsTimerDiscipline (s s' : State) : Prop :=
  timerDiscipline s -> timerDiscipline s'.

(** Updates in place are paid for by text contributions, five for one,
    with [k] to spare. *)
Definition throttled (k : nat) (s s' : State) : Prop :=
  updateCount (locals s) <= updateCount (locals s') /\
  updates (trace s') + updateCount (locals s) / 5
    <= updates (trace s) + updateCount (locals s') / 5 + k.

(** Since the trace was [tr0]: no message and no update before the first
    text; afterwards one message, whose handle every update names. *)
Definition oneMessage (tr0 : list Call) (s : State) : Prop :=
  exists tl, trace s = tr0 ++ tl /\
    match messageActivity (locals s) with
    | None => accumulatedText (locals s) = "" /\ sends tl = 0 /\ updates tl = 0
    | Some h => sends tl = 1 /\ updatesOnly h tl
    end.

(** The artifacts kept so far are untouched. *)
Definition sameArtifacts (s s' : State) : Prop :=
  lastArtifacts (locals s') = lastArtifacts (locals s).

(** No request goes to the agent. *)
Definition noRequest (s s' : State) : Prop :=
  count isOpenStream (trace s') = count isOpenStream (trace s) /\
  count isSendMessage (trace s') = count isSendMessage (trace s).

(** The session, in the turn and as persisted, is untouched. *)
Definition sameSession (s s' : State) : Prop :=
  turnState s' = turnState s /\ a2aState s' = a2aState s.

(** The kinds of result that [handleRegularResponse] renders. *)
Definition isMessageOrTask (e : Event) : bool :=
  match e with
  | Message _ | TaskEvent _ => true
  | _ => false
  end.

(** What C5 comes to in the code, for a run [handle] of
    [handleStreamingResponse]: the run returns; and when the stream has
    produced text, it has created one message [h] (whatever became of the
    updates), every update since names [h], and the final response is one
    more update of [h], followed by a new message exactly when that update
    failed. *)
Definition streamsOneMessage (env : Env) (robot : string) (handle : M unit)
    (client : A2AClient) (p : SendParams) (s : State) : Prop :=
  let s1 := exec (consumeStream env robot client p) s in
  let s2 := exec handle s in
  result handle s = Ok tt /\
  (accumulatedText (locals s1) <> "" ->
   exists h tl,
     messageActivity (locals s1) = Some h /\
     trace s1 = trace s ++ tl /\ sends tl = 1 /\ updatesOnly h tl /\
     trace s2 = trace s1 ++
                Update h (rendered robot (locals s1)) ::
                match updateOutcome env (awaits s1) with
                | None => []
                | Some _ => [Send (rendered robot (locals s1))]
                end).

(** What C7 comes to in the code, for a run [handle] of
    [handleStreamingResponse] with the fallback [fallback], once the
    stream is open and consuming it throws: the loop ends with
    [ClearInterval] and the timer off; the run is then exactly one run of
    the fallback with the same parameters, so it ends as the fallback
    ends; the stream has been opened once and [sendMessage] is called at
    most once. *)
Definition fallsBackOnce (env : Env) (robot : string) (handle : M unit)
    (fallback : SendParams -> M unit) (client : A2AClient) (p : SendParams)
    (s : State) : Prop :=
  let s1 := exec (streamLoop env robot (sendMessageStream client p)) (started env p s) in
  (exists tr, trace s1 = tr ++ [ClearInterval]) /\
  typingInterval s1 = false /\
  handle s = fallback p s1 /\
  count isOpenStream (trace (exec handle s)) = count isOpenStream (trace s) + 1 /\
  count isSendMessage (trace (exec handle s)) <= count isSendMessage (trace s) + 1.

(** How the two callers report a failure [msg] of
    [handleStreamingResponse]: the [catch] of [DialogBot.handleMessage]
    for a failure that is not an authentication failure, and the [catch]
    of [MainDialog.handleQueryResponse] around [sendMessageWithPolling]. *)
Definition botReports (env : Env) (msg : string) : M unit :=
  sendText env (DialogBot.warning +++ " Error communicating with agent: " +++ msg) ;;
  record Next.

Definition dialogReports (env : Env) (msg : string) : M unit :=
  sendText env (MainDialog.cross +++ " Error processing your message: "
                +++ "Failed to communicate with A2A agent: " +++ msg) ;;
  record EndDialog.

(** How [DialogBot.handleMessage] goes on after an authentication
    failure: the dialog is run, then [next()]. *)
Definition botSignsIn (env : Env) : M unit :=
  record RunDialog ;;
  MainDialog.run env ;;
  record Next.

(** A user message is routed to the agent: it is no dialog command, and
    the turn holds a token and the client. *)
Definition routed (activityText : option string) (client : A2AClient) (s : State) : Prop :=
  DialogBot.isDialogCommand activityText = false /\
  JS.truthy (accessToken (turnState s)) = true /\
  a2aClient (turnState s) = Some client.

(** The persisted copy is untouched. *)
Definition samePersisted (s s' : State) : Prop := a2aState s' = a2aState s.

(** The persisted copy after a step: as before, or overwritten by a
    token and a URL that are both present. *)
Definition persistedKept (before after : A2AState) : Prop :=
  after = before \/
  (JS.truthy (saved_accessToken after) = true /\
   JS.truthy (saved_a2aServerUrl after) = true).

(** ** Sample surroundings, for concrete runs *)

(** A dialog stack that does nothing in the turn. *)
Definition idle : M unit := fun s => (Ok tt, s).

(** A surface on which every call succeeds and no timer fires. *)
Definition calm : Env :=
  mkEnv (fun _ => None) (fun _ => None) (fun _ => 0)
        (fun _ _ => Throw "offline") idle.

(** An agent that streams [evs], ends the stream as [fail] says, and
    answers [sendMessage] with [reply]. *)
Definition agent (evs : list Event) (fail : option string) (reply : Res Response)
  : A2AClient :=
  mkClient (fun _ => mkStream evs fail) (fun _ => reply) (Ok "card").

(** As [calm], but the surface refuses every update in place. *)
Definition refusingUpdates : Env :=
  mkEnv (fun _ => None) (fun _ => Some "update not supported")
        (fun _ => 0) (fun _ _ => Throw "offline") idle.

(** Five messages with one text part each. *)
Definition fiveTexts : list Event :=
  map (fun t => Message (Some [TextPart t])) ["a"; "b"; "c"; "d"; "e"].

(** As [calm], but the timer fires once, during suspension point [k]. *)
Definition tickingAt (k : nat) : Env :=
  mkEnv (fun _ => None) (fun _ => None)
        (fun j => if j =? k then 1 else 0)
        (fun _ _ => Throw "offline") idle.

(** As [calm], but the agent card can be fetched and yields [client]. *)
Definition reachable (client : A2AClient) : Env :=
  mkEnv (fun _ => None) (fun _ => None) (fun _ => 0)
        (fun _ _ => Ok client) idle.

(** A turn that holds a token and a client; [stored] says whether the
    conversation state is at hand and holds the same token. *)
Definition signedIn (client : A2AClient) (stored : bool) : State :=
  startOfTurn (mkTurn (Some "token") (Some client) (Some "https://agent") None stored)
              (if stored then mkSaved (Some "token") (Some "https://agent")
               else mkSaved None None).

Definition hello : SendParams := mkParams "m-1" (Some "hi").

Definition fresh : State :=
  startOfTurn (mkTurn None None None None false) (mkSaved None None).

Definition working : TaskStatus := mkStatus "working" None.

(** ** Renderings as lists of texts

    What the loops of the two files print, written as functions from the
    data to the lines, to compare the runs with. *)

(** The texts that the calls of a trace show, in order. *)
Definition shownTexts (tr : list Call) : list string :=
  flat_map (fun c => match shown c with Some t => [t] | None => [] end) tr.

(** [m] returns, and what its calls show is [texts], in this order. *)
Definition emits (texts : list string) {A} (m : M A) : Prop :=
  forall s,
    (exists a, result m s = Ok a) /\
    shownTexts (trace (exec m s)) = shownTexts (trace s) ++ texts.

Definition joined (texts : list string) : string :=
  fold_right String.append "" texts.

(** [state === "completed" || state === "failed" || state === "canceled"] *)
Definition isTerminal (st : string) : bool :=
  String.eqb st "completed" || String.eqb st "failed" || String.eqb st "canceled".

Definition orNone {A} (xs : option (list A)) : list A :=
  match xs with
  | Some l => l
  | None => []
  end.

(** dialogBot.js: a part, the artifacts, the answer of [sendMessage], and
    the final response when no text was accumulated. *)
Definition botPartLines (part : Part) : list string :=
  if String.eqb (part_kind part) "text" then
    [DialogBot.page +++ " " +++ JS.interpolate (part_text part)]
  else if String.eqb (part_kind part) "file" then
    [DialogBot.folder +++ " File: " +++ JS.or_else (part_filename part) "unnamed"]
  else [].

Definition botArtifactLines (arts : list Artifact) : list string :=
  flat_map (fun artifact =>
    (DialogBot.paperclip +++ " " +++ JS.or_else (art_name artifact) (artifactId artifact))
    :: flat_map botPartLines (orNone (art_parts artifact))) arts.

Definition botStatusLine (st : TaskStatus) : list string :=
  if JS.truthy (message st)
  then [DialogBot.info +++ " " +++ JS.interpolate (message st)]
  else [].

Definition botAnswerLines (answer : Event) : list string :=
  match answer with
  | Message (Some parts) =>
      [DialogBot.robot +++ " " +++
       JS.or_else (match parts with first :: _ => part_text first | [] => None end)
                  "No text content"]
  | TaskEvent t =>
      (DialogBot.target +++ " Task: " +++ task_id t +++ " (" +++ state (status t) +++ ")")
      :: botArtifactLines (orNone (artifacts t))
      ++ botStatusLine (status t)
      ++ (if isTerminal (state (status t)) then []
          else [DialogBot.hourglass +++ " Task is " +++ state (status t)
                +++ ". The agent will notify when complete."])
  | _ => []
  end.

Definition botFinalLines (l : Locals) : list string :=
  match currentTask l with
  | Some t =>
      (DialogBot.target +++ " Task " +++ task_id t +++ ": " +++ state (status t))
      :: botArtifactLines (lastArtifacts l)
      ++ botStatusLine (status t)
  | None =>
      if receivedEvents l then []
      else [DialogBot.warning +++ " No response received from agent."]
  end.

(** mainDialog.js: the same. *)
Definition dialogPartLines (part : Part) : list string :=
  if String.eqb (part_kind part) "text" then
    [MainDialog.page +++ " " +++ JS.interpolate (part_text part)]
  else if String.eqb (part_kind part) "file" then
    [MainDialog.folder +++ " File: " +++ JS.or_else (part_filename part) "unnamed file"]
  else [].

Definition dialogArtifactLines (arts : list Artifact) : list string :=
  flat_map (fun artifact =>
    (MainDialog.paperclip +++ " **"
     +++ JS.or_else (art_name artifact) (artifactId artifact) +++ "**")
    :: flat_map dialogPartLines (orNone (art_parts artifact))) arts.

Definition dialogStatusLine (st : TaskStatus) : list string :=
  if JS.truthy (message st)
  then [MainDialog.info +++ " " +++ JS.interpolate (message st)]
  else [].

Definition dialogAnswerLines (answer : Event) : list string :=
  match answer with
  | Message (Some parts) =>
      [MainDialog.robot +++ " " +++
       JS.or_else (match parts with first :: _ => part_text first | [] => None end)
                  "No text content"]
  | TaskEvent t =>
      (MainDialog.target +++ " Task: " +++ task_id t +++ " - " +++ state (status t))
      :: dialogArtifactLines (orNone (artifacts t))
      ++ dialogStatusLine (status t)
      ++ (if isTerminal (state (status t)) then []
          else [MainDialog.hourglass +++ " Task is " +++ state (status t)
                +++ ". The agent will notify when complete."])
  | _ => []
  end.

Definition dialogFinalLines (l : Locals) : list string :=
  match currentTask l with
  | Some t =>
      (MainDialog.target +++ " Task " +++ task_id t +++ ": " +++ state (status t))
      :: dialogArtifactLines (lastArtifacts l)
      ++ dialogStatusLine (status t)
  | None =>
      if receivedEvents l then []
      else [MainDialog.warning +++ " No response received from agent."]
  end.

(** The answers that [handleRegularResponse] can read: every result but
    a message without a [parts] field. *)
Definition readable (answer : Event) : bool :=
  match answer with
  | Message None => false
  | _ => true
  end.

(** ** The loop as a function of the events

    What an event leaves in the variables of [handleStreamingResponse]
    when its handler returns; [messageActivity] is left out, since the
    handle is the surface's, and so are the artifacts inside
    [currentTask], which the code does not read. *)

(** The texts of the parts that [collectPart] adds. *)
Definition partTexts (parts : list Part) : list string :=
  flat_map (fun part =>
    if String.eqb (part_kind part) "text" && JS.truthy (part_text part)
    then [JS.interpolate (part_text part)] else []) parts.

(** The texts that an event adds to [accumulatedText], in order. *)
Definition contributions (event : Event) : list string :=
  match event with
  | Message (Some (first :: _)) =>
      if JS.truthy (part_text first) then [JS.interpolate (part_text first)] else []
  | ArtifactUpdate (Some artifact) => partTexts (orNone (art_parts artifact))
  | _ => []
  end.

Definition addTexts (texts : list string) (l : Locals) : Locals :=
  fold_left (fun l t => counted t l) texts l.

Definition summarise (event : Event) (l : Locals) : Locals :=
  let l := addTexts (contributions event) (set_receivedEvents true l) in
  match event with
  | TaskEvent t =>
      match artifacts t with
      | Some (a :: rest) => set_lastArtifacts (a :: rest) (set_currentTask (Some t) l)
      | _ => set_currentTask (Some t) l
      end
  | StatusUpdate st =>
      let l := match currentTask l with
               | Some t => set_currentTask (Some (set_status st t)) l
               | None => l
               end in
      if String.eqb (state st) "completed" then set_isCompleted true l else l
  | ArtifactUpdate (Some artifact) =>
      match art_parts artifact with
      | Some _ => set_lastArtifacts (lastArtifacts l ++ [artifact]) l
      | None => l
      end
  | _ => l
  end.

Definition summary (evs : list Event) (l : Locals) : Locals :=
  fold_left (fun l event => summarise event l) evs l.

(** A task without its artifacts: what the code reads of [currentTask]. *)
Definition idAndStatus (t : Task) : Task := mkTask (task_id t) (status t) None.

(** The variables but for [messageActivity] and the artifacts inside
    [currentTask]. *)
Definition viewed (l : Locals) : Locals :=
  set_messageActivity None (set_currentTask (option_map idAndStatus (currentTask l)) l).

Definition agree (l1 l2 : Locals) : Prop := viewed l1 = viewed l2.

(** [m], when it returns, leaves the variables as [f] says. *)
Definition leaves (f : Locals -> Locals) {A} (m : M A) : Prop :=
  forall s a s', m s = (Ok a, s') -> agree (locals s') (f (locals s)).

(** ** Further observations *)

(** The interval is as it was. *)
Definition sameTimer (s s' : State) : Prop := typingInterval s' = typingInterval s.

(** An ASCII letter. *)
Definition isLetter (c : ascii) : bool :=
  let n := nat_of_ascii c in
  ((65 <=? n) && (n <=? 90)) || ((97 <=? n) && (n <=? 122)).

(** Every character of [s] satisfies [f]. *)
Fixpoint allChars (f : ascii -> bool) (s : string) : bool :=
  match s with
  | EmptyString => true
  | String c r => f c && allChars f r
  end.

(** ** mainDialog.js: the steps of the waterfall before the query

    A step ends with a call on [stepContext] whose result it returns;
    the step is modelled up to that call, which is its value here.  What
    the dialog stack does with the call is the library's. *)

Module MainDialogSteps.

(** [stepContext.result] after the OAuth prompt. *)
Record TokenResponse := mkTokenResponse {
  token : option string }.

Inductive StepReturn :=
| NextStep                            (* stepContext.next() *)
| BeginDialog (dialogId : string)     (* stepContext.beginDialog(dialogId) *)
| Prompt (dialogId text : string)     (* stepContext.prompt(dialogId, text) *)
| EndThisDialog.                      (* stepContext.endDialog() *)

Definition CONFIRM_PROMPT : string := "ConfirmPrompt".
Definition TEXT_PROMPT : string := "TextPrompt".
Definition OAUTH_PROMPT : string := "OAuthPrompt".

(** [process.env], at the keys that [createA2AClientWithAuth] reads. *)
Record ProcessEnv := mkProcessEnv {
  A2A_AGENT_CARD_URL : option string;
  AgentEndpointURL : option string }.

Definition check : string := "âœ…".
Definition speech : string := "ğŸ’¬".
Definition quote : string := String "034"%char "".

(** Lines 150-152:
    [process.env.A2A_AGENT_CARD_URL ||
     process.env.AgentEndpointURL + "/.well-known/agent-card.json" ||
     "http://localhost:4000/.well-known/agent-card.json"]. *)
Definition agentCardUrl (vars : ProcessEnv) : string :=
  JS.or_else (A2A_AGENT_CARD_URL vars)
    (JS.or_else
       (Some (JS.interpolate (AgentEndpointURL vars) +++ "/.well-known/agent-card.json"))
       "http://localhost:4000/.well-known/agent-card.json").

(** The text that the authentication handler of
    [createA2AClientWithAuth] shows, line 138. *)
Definition authNotice : string :=
  "Authentication failed. Token may have expired. Please login again.".

Section WithEnv.
Variable env : Env.
Variable vars : ProcessEnv.

(** [unauthorized k]: the request awaited at suspension point [k] was
    answered with status 401.  Such a request fails: the call that
    issued it throws. *)
Variable unauthorized : nat -> bool.

(** [displayAgentCard(agentCard, stepContext)], lines 340-485, builds an
    adaptive card and sends it as an attachment; here it is any
    computation. *)
Variable displayAgentCard : AgentCard -> M unit.

(** [await] of a call that fetches through the authenticating fetch of
    [createA2AClientWithAuth], lines 126-146: on an answer with status
    401 the handler [shouldRetryWithHeaders] tells the user and asks for
    no retry, and the call fails. *)
Definition fetched {A} (outcome : Res A) : M A :=
  k <- suspend env ;;
  match outcome with
  | Ok a => ret a
  | Throw msg =>
      when (unauthorized k) (sendText env authNotice) ;;
      throw msg
  end.

(** [promptStep(stepContext)], lines 78-84; [continueConversation] is
    [stepContext.options && stepContext.options.continueConversation]. *)
Definition promptStep (continueConversation : bool) : M StepReturn :=
  if continueConversation then ret NextStep
  else ret (BeginDialog OAUTH_PROMPT).

(** [createA2AClientWithAuth(accessToken, stepContext)], lines 123-176.
    The bearer token of the requests is [`${accessToken}`]. *)
Definition createA2AClientWithAuth (bearer : option string) : M unit :=
  try_catch
    (let a2aServerUrl := agentCardUrl vars in
     client <- fetched (fromCardUrl env a2aServerUrl (JS.interpolate bearer)) ;;
     card <- fetched (getAgentCard client) ;;
     modifyTurnState (fun ts =>
       mkTurn (accessToken ts) (Some client) (Some a2aServerUrl) (Some card)
              (conversationState ts)) ;;
     displayAgentCard card ;;
     sendText env (check +++ " A2A client configured with authentication for: "
                   +++ a2aServerUrl))
    (fun msg =>
       sendText env (MainDialog.cross +++ " Error configuring A2A client: " +++ msg
                     +++ ". Please ensure the A2A server is running and accessible.")).

(** [loginStep(stepContext)], lines 90-116; [stepResult] is
    [stepContext.result]. *)
Definition loginStep (continueConversation : bool) (stepResult : option TokenResponse)
  : M StepReturn :=
  ts <- getTurnState ;;
  if continueConversation && JS.truthy (accessToken ts) then ret NextStep
  else
    match stepResult with
    | Some tokenResponse =>
        sendText env "You are now logged in." ;;
        modifyTurnState (fun ts =>
          mkTurn (token tokenResponse) (a2aClient ts) (a2aServerUrl ts) (agentCard ts)
                 (conversationState ts)) ;;
        createA2AClientWithAuth (token tokenResponse) ;;
        ret (Prompt CONFIRM_PROMPT "Would you like to establish a connection to the agent?")
    | None =>
        sendText env "Login was not successful please try again." ;;
        ret EndThisDialog
    end.

(** [ensureOAuth(stepContext)], lines 251-264; [stepResult] is the
    answer to the confirm prompt. *)
Definition ensureOAuth (continueConversation : bool) (stepResult : bool) : M StepReturn :=
  if continueConversation then ret NextStep
  else if stepResult then ret (BeginDialog OAUTH_PROMPT)
  else ret EndThisDialog.

(** [displayToken(stepContext)], lines 270-298. *)
Definition displayToken (continueConversation : bool) (stepResult : option TokenResponse)
  : M StepReturn :=
  if continueConversation then ret NextStep
  else
    match stepResult with
    | Some tokenResponse =>
        if JS.truthy (token tokenResponse) then
          ts <- getTurnState ;;
          match a2aClient ts with
          | Some _ =>
              sendText env (MainDialog.robot
                            +++ " A2A client is ready to make authenticated requests.") ;;
              ret NextStep
          | None => ret EndThisDialog
          end
        else ret EndThisDialog
    | None => ret EndThisDialog
    end.

(** [queryMessageStep(stepContext)], lines 491-494. *)
Definition queryMessageStep : M StepReturn :=
  ret (Prompt TEXT_PROMPT
         (speech +++ " Enter your message for the A2A agent (or type "
          +++ quote +++ "exit" +++ quote +++ " to end):")).

End WithEnv.
End MainDialogSteps.

(** * Properties *)

(** ** Runs of the control-flow combinators *)

Lemma run_eta {A} (m : M A) s : m s = (result m s, exec m s).
Proof. unfold result, exec. now destruct (m s). Qed.

Section StepRules.
Variable R : State -> State -> Prop.
Hypothesis R_refl : forall s, R s s.
Hypothesis R_trans : forall s1 s2 s3, R s1 s2 -> R s2 s3 -> R s1 s3.

Lemma steps_ret {A} (a : A) : steps R (ret a).
Proof. intros s. apply R_refl. Qed.

Lemma steps_throw {A} msg : steps R (@throw A msg).
Proof. intros s. apply R_refl. Qed.

Lemma steps_bind {A B} (m : M A) (f : A -> M B) :
  steps R m -> (forall a, steps R (f a)) -> steps R (bind m f).
Proof.
  intros Hm Hf s. unfold exec, bind.
  specialize (Hm s). unfold exec in Hm.
  destruct (m s) as [[a | e] s'] eqn:E; simpl in *.
  - apply R_trans with s'; [exact Hm | apply Hf].
  - exact Hm.
Qed.

Lemma steps_try_catch {A} (m : M A) h :
  steps R m -> (forall e, steps R (h e)) -> steps R (try_catch m h).
Proof.
  intros Hm Hh s. unfold exec, try_catch.
  specialize (Hm s). unfold exec in Hm.
  destruct (m s) as [[a | e] s'] eqn:E; simpl in *.
  - exact Hm.
  - apply R_trans with s'; [exact Hm | apply Hh].
Qed.

Lemma steps_try_finally {A} (m : M A) c :
  steps R m -> steps R c -> steps R (try_finally m c).
Proof.
  intros Hm Hc s. unfold exec, try_finally.
  specialize (Hm s). unfold exec in Hm.
  destruct (m s) as [r s'] eqn:E; simpl in *.
  specialize (Hc s'). unfold exec in Hc.
  destruct (c s') as [[u | e] s''] eqn:E'; simpl in *;
    apply R_trans with s'; assumption.
Qed.

Lemma steps_swallow m : steps R m -> steps R (swallow m).
Proof. intros Hm. apply steps_try_catch; [exact Hm | intros e; apply steps_ret]. Qed.

Lemma steps_when b m : steps R m -> steps R (when b m).
Proof. intros Hm. destruct b; [exact Hm | apply steps_ret]. Qed.

Lemma steps_forEach {A} (body : A -> M unit) xs :
  (forall x, steps R (body x)) -> steps R (forEach body xs).
Proof.
  intros Hb. induction xs as [| x xs IH]; simpl.
  - apply steps_ret.
  - apply steps_bind; [apply Hb | intros _; exact IH].
Qed.

Lemma steps_settle {A} o (a : A) : steps R (settle o a).
Proof. destruct o; [apply steps_throw | apply steps_ret]. Qed.

Lemma steps_getLocals : steps R getLocals.
Proof. intros s. apply R_refl. Qed.

Lemma steps_getTurnState : steps R getTurnState.
Proof. intros s. apply R_refl. Qed.

Lemma steps_getA2AState : steps R getA2AState.
Proof. intros s. apply R_refl. Qed.

End StepRules.

(** Splits a goal [steps R m] along the structure of [m]; [leaf] closes
    the assignments and the calls that leave the process, and is tried
    before a definition is looked into. *)
Ltac stepwise Hrefl Htrans leaf :=
  repeat first
    [ solve [ leaf ]
    | apply (steps_ret _ Hrefl)
    | apply (steps_throw _ Hrefl)
    | apply (steps_getLocals _ Hrefl)
    | apply (steps_getTurnState _ Hrefl)
    | apply (steps_getA2AState _ Hrefl)
    | apply (steps_settle _ Hrefl)
    | apply (steps_bind _ Htrans); [ | intros ? ]
    | apply (steps_try_catch _ Htrans); [ | intros ? ]
    | apply (steps_try_finally _ Htrans)
    | apply (steps_swallow _ Hrefl Htrans)
    | apply (steps_when _ Hrefl)
    | apply (steps_forEach _ Hrefl Htrans); intros ?
    | match goal with
      | |- steps _ (match ?x with _ => _ end) => destruct x
      | |- steps _ (if ?b then _ else _) => destruct b
      | |- steps _ (let _ := _ in _) => cbv zeta
      end ].

(** ** What the calls do to the state *)

Lemma set_trace_same s : set_trace (trace s) s = s.
Proof. now destruct s. Qed.

Lemma iter_fire n s :
  Nat.iter n fire s =
  if isCompleted (locals s) then s
  else set_trace (trace s ++ repeat TimerTyping n) s.
Proof.
  induction n as [| n IH].
  - simpl. rewrite app_nil_r, set_trace_same. now destruct (isCompleted (locals s)).
  - simpl. rewrite IH. unfold fire.
    destruct (isCompleted (locals s)) eqn:E.
    + now rewrite E.
    + simpl. rewrite E. unfold set_trace. simpl.
      now rewrite <- app_assoc, <- repeat_cons.
Qed.

Section Effects.
Variable env : Env.

Lemma elapse_eq k s : elapse env k s = set_trace (trace s ++ noise env k s) s.
Proof.
  unfold elapse, noise. destruct (typingInterval s); simpl.
  - rewrite iter_fire. destruct (isCompleted (locals s)); simpl.
    + now rewrite app_nil_r, set_trace_same.
    + reflexivity.
  - now rewrite app_nil_r, set_trace_same.
Qed.

Lemma exec_suspend s :
  exec (suspend env) s =
  mkState (locals s) (trace s ++ noise env (awaits s) s) (S (awaits s))
          (typingInterval s) (turnState s) (a2aState s).
Proof. unfold exec, suspend. simpl. now rewrite elapse_eq. Qed.

Lemma run_suspend s :
  suspend env s =
  (Ok (awaits s),
   mkState (locals s) (trace s ++ noise env (awaits s) s) (S (awaits s))
           (typingInterval s) (turnState s) (a2aState s)).
Proof. rewrite (run_eta (suspend env) s). now rewrite exec_suspend. Qed.

Lemma noise_off k s : typingInterval s = false -> noise env k s = [].
Proof. unfold noise. now intros ->. Qed.

Lemma noise_timer k s : Forall (fun c => c = TimerTyping) (noise env k s).
Proof.
  unfold noise. destruct (_ && _); [| constructor].
  induction (ticks env k); simpl; constructor; auto.
Qed.

(** A call on the chat surface: the call is recorded, then the turn is
    suspended, then the call returns or throws. *)
Lemma run_call {A} c (o : nat -> option string) (a : nat -> A) s :
  (record c ;; k <- suspend env ;; settle (o k) (a k)) s =
  (match o (awaits s) with Some msg => Throw msg | None => Ok (a (awaits s)) end,
   mkState (locals s) (trace s ++ c :: noise env (awaits s) s)
           (S (awaits s)) (typingInterval s) (turnState s) (a2aState s)).
Proof.
  unfold bind at 1. unfold record at 1.
  unfold bind. rewrite run_suspend. simpl.
  rewrite <- app_assoc. simpl.
  destruct (o (awaits s)); reflexivity.
Qed.

Lemma run_sendActivity text s :
  sendActivity env text s =
  (match sendOutcome env (awaits s) with Some msg => Throw msg | None => Ok (awaits s) end,
   mkState (locals s) (trace s ++ Send text :: noise env (awaits s) s)
           (S (awaits s)) (typingInterval s) (turnState s) (a2aState s)).
Proof. unfold sendActivity. apply (run_call (Send text) (sendOutcome env) (fun k => k)). Qed.

Lemma run_sendText text s :
  sendText env text s =
  (match sendOutcome env (awaits s) with Some msg => Throw msg | None => Ok tt end,
   mkState (locals s) (trace s ++ Send text :: noise env (awaits s) s)
           (S (awaits s)) (typingInterval s) (turnState s) (a2aState s)).
Proof.
  unfold sendText, bind. rewrite run_sendActivity.
  destruct (sendOutcome env (awaits s)); reflexivity.
Qed.

Lemma run_sendTyping s :
  sendTyping env s =
  (match sendOutcome env (awaits s) with Some msg => Throw msg | None => Ok tt end,
   mkState (locals s) (trace s ++ Typing :: noise env (awaits s) s)
           (S (awaits s)) (typingInterval s) (turnState s) (a2aState s)).
Proof. unfold sendTyping. apply (run_call Typing (sendOutcome env) (fun _ => tt)). Qed.

Lemma run_updateActivity h text s :
  updateActivity env h text s =
  (match updateOutcome env (awaits s) with Some msg => Throw msg | None => Ok tt end,
   mkState (locals s) (trace s ++ Update h text :: noise env (awaits s) s)
           (S (awaits s)) (typingInterval s) (turnState s) (a2aState s)).
Proof. unfold updateActivity. apply (run_call (Update h text) (updateOutcome env) (fun _ => tt)). Qed.

Lemma run_swallow_update h text s :
  swallow (updateActivity env h text) s =
  (Ok tt,
   mkState (locals s) (trace s ++ Update h text :: noise env (awaits s) s)
           (S (awaits s)) (typingInterval s) (turnState s) (a2aState s)).
Proof.
  unfold swallow, try_catch. rewrite run_updateActivity.
  destruct (updateOutcome env (awaits s)); reflexivity.
Qed.

End Effects.

Lemma append_empty t : t +++ "" = t.
Proof. induction t as [| c t IH]; simpl; [reflexivity | now rewrite IH]. Qed.

(** ** One contribution of text *)

Local Arguments Nat.modulo : simpl never.
Local Arguments Nat.div : simpl never.
Local Arguments String.append : simpl never.

Section Contribution.
Variable env : Env.
Variable robot : string.

Lemma run_contribute_create t s :
  messageActivity (locals s) = None ->
  contribute env robot t s =
  (match sendOutcome env (awaits s) with Some msg => Throw msg | None => Ok tt end,
   mkState (match sendOutcome env (awaits s) with
            | Some _ => counted t (locals s)
            | None => set_messageActivity (Some (awaits s)) (counted t (locals s))
            end)
           (trace s ++ Send (rendered robot (counted t (locals s))) :: noise env (awaits s) s)
           (S (awaits s)) (typingInterval s) (turnState s) (a2aState s)).
Proof.
  intros Hnone. unfold contribute, bind, modifyLocals, getLocals. simpl.
  rewrite Hnone. rewrite run_sendActivity. simpl.
  destruct (sendOutcome env (awaits s)); reflexivity.
Qed.

Lemma run_contribute_update t s h :
  messageActivity (locals s) = Some h ->
  S (updateCount (locals s)) mod 5 = 0 ->
  contribute env robot t s =
  (Ok tt,
   mkState (counted t (locals s))
           (trace s ++ Update h (rendered robot (counted t (locals s))) :: noise env (awaits s) s)
           (S (awaits s)) (typingInterval s) (turnState s) (a2aState s)).
Proof.
  intros Hsome Hmod. unfold contribute, bind, modifyLocals, getLocals. simpl.
  rewrite Hsome, Hmod. simpl. rewrite run_swallow_update. reflexivity.
Qed.

Lemma run_contribute_skip t s h :
  messageActivity (locals s) = Some h ->
  S (updateCount (locals s)) mod 5 <> 0 ->
  contribute env robot t s = (Ok tt, set_locals (counted t (locals s)) s).
Proof.
  intros Hsome Hmod. unfold contribute, bind, modifyLocals, getLocals. simpl.
  rewrite Hsome. apply Nat.eqb_neq in Hmod. rewrite Hmod. reflexivity.
Qed.

(** The three ways a contribution can go. *)
Lemma contribute_cases s :
  (messageActivity (locals s) = None) \/
  (exists h, messageActivity (locals s) = Some h /\ S (updateCount (locals s)) mod 5 = 0) \/
  (exists h, messageActivity (locals s) = Some h /\ S (updateCount (locals s)) mod 5 <> 0).
Proof.
  destruct (messageActivity (locals s)) as [h |]; [right | now left].
  destruct (Nat.eq_dec (S (updateCount (locals s)) mod 5) 0); [left | right]; eauto.
Qed.

Lemma contribute_text t s :
  accumulatedText (locals (exec (contribute env robot t) s)) = accumulatedText (locals s) +++ t /\
  updateCount (locals (exec (contribute env robot t) s)) = S (updateCount (locals s)).
Proof.
  unfold exec.
  destruct (contribute_cases s) as [H | [[h [H1 H2]] | [h [H1 H2]]]].
  - rewrite (run_contribute_create t s H). simpl.
    destruct (sendOutcome env (awaits s)); split; reflexivity.
  - rewrite (run_contribute_update t s h H1 H2). split; reflexivity.
  - rewrite (run_contribute_skip t s h H1 H2). split; reflexivity.
Qed.

End Contribution.

(** ** Events, one at a time *)

Section EventSteps.
Variable env : Env.
Variable robot : string.

Lemma run_processEvent event s :
  processEvent env robot event s =
  match event with
  | Message parts => onMessage env robot parts
  | TaskEvent t => onTask t
  | StatusUpdate st => onStatusUpdate env robot st
  | ArtifactUpdate a => onArtifactUpdate env robot a
  | Other _ => ret tt
  end (set_locals (set_receivedEvents true (locals s)) s).
Proof. reflexivity. Qed.

Lemma sameArtifacts_refl s : sameArtifacts s s.
Proof. reflexivity. Qed.

Lemma sameArtifacts_trans s1 s2 s3 :
  sameArtifacts s1 s2 -> sameArtifacts s2 s3 -> sameArtifacts s1 s3.
Proof. unfold sameArtifacts. congruence. Qed.

Lemma contribute_sameArtifacts t : steps sameArtifacts (contribute env robot t).
Proof.
  intros s. unfold sameArtifacts, exec.
  destruct (contribute_cases s) as [H | [[h [H1 H2]] | [h [H1 H2]]]].
  - rewrite (run_contribute_create env robot t s H). simpl.
    now destruct (sendOutcome env (awaits s)).
  - now rewrite (run_contribute_update env robot t s h H1 H2).
  - now rewrite (run_contribute_skip env robot t s h H1 H2).
Qed.

Lemma collectParts_sameArtifacts parts :
  steps sameArtifacts (forEach (collectPart env robot) parts).
Proof.
  apply (steps_forEach _ sameArtifacts_refl sameArtifacts_trans). intros part.
  apply (steps_when _ sameArtifacts_refl). apply contribute_sameArtifacts.
Qed.

End EventSteps.

(** ** C1: a Message event and the text it contributes *)

(** C1, as the code has it: a Message event contributes the text of its
    first part only, when that part has a non-empty text: the text is
    appended to [accumulatedText] and [updateCount] grows by one; in every
    other case both are left as they are.  Later parts are not read. *)
Theorem message_contributes_first_part env robot parts s :
  accumulatedText (locals (exec (processEvent env robot (Message parts)) s))
    = accumulatedText (locals s) +++ firstText parts /\
  updateCount (locals (exec (processEvent env robot (Message parts)) s))
    = updateCount (locals s) + (if nonEmpty (firstText parts) then 1 else 0).
Proof.
  unfold exec. rewrite run_processEvent. unfold onMessage, firstText.
  destruct parts as [[| first rest] |]; simpl;
    try (rewrite append_empty, Nat.add_0_r; split; reflexivity).
  destruct (part_text first) as [[| c t] |]; simpl;
    try (rewrite append_empty, Nat.add_0_r; split; reflexivity).
  destruct (contribute_text env robot (String c t)
              (set_locals (set_receivedEvents true (locals s)) s)) as [Ha Hu].
  unfold exec in Ha, Hu. rewrite Ha, Hu. simpl. split; [reflexivity | lia].
Qed.

(** C1 as stated fails: of a Message with the text parts "a" and "b" only
    "a" reaches [accumulatedText], and [updateCount] is 1, not 2. *)
Lemma message_second_part_dropped :
  let ev := Message (Some [TextPart "a"; TextPart "b"]) in
  accumulatedText (locals (exec (processEvent calm DialogBot.robot ev) fresh)) = "a" /\
  updateCount (locals (exec (processEvent calm DialogBot.robot ev) fresh)) = 1 /\
  accumulatedText (locals (exec (processEvent calm MainDialog.robot ev) fresh)) = "a" /\
  updateCount (locals (exec (processEvent calm MainDialog.robot ev) fresh)) = 1.
Proof. repeat split; reflexivity. Qed.

(** ** C3: the artifacts kept by the loop *)

(** C3, as the code has it: a Task event with a non-empty artifacts list
    replaces the artifacts kept so far by its own; a Task without
    artifacts leaves them.  An ArtifactUpdate appends its artifact when
    the artifact carries a parts list (an empty one included) and the
    parts are processed without an exception; an update whose artifact is
    missing or has no parts list is ignored. *)
Theorem artifacts_replaced_by_task_appended_by_update env robot s :
  (forall id st a rest,
     lastArtifacts (locals (exec (processEvent env robot
        (TaskEvent (mkTask id st (Some (a :: rest))))) s)) = a :: rest) /\
  (forall id st,
     lastArtifacts (locals (exec (processEvent env robot
        (TaskEvent (mkTask id st (Some [])))) s)) = lastArtifacts (locals s) /\
     lastArtifacts (locals (exec (processEvent env robot
        (TaskEvent (mkTask id st None))) s)) = lastArtifacts (locals s)) /\
  (forall id name parts,
     let artifact := mkArtifact id name (Some parts) in
     lastArtifacts (locals (exec (processEvent env robot (ArtifactUpdate (Some artifact))) s))
     = match result (processEvent env robot (ArtifactUpdate (Some artifact))) s with
       | Ok _ => lastArtifacts (locals s) ++ [artifact]
       | Throw _ => lastArtifacts (locals s)
       end) /\
  (forall id name,
     lastArtifacts (locals (exec (processEvent env robot
        (ArtifactUpdate (Some (mkArtifact id name None)))) s)) = lastArtifacts (locals s)) /\
  lastArtifacts (locals (exec (processEvent env robot (ArtifactUpdate None)) s))
    = lastArtifacts (locals s).
Proof.
  repeat split; intros; try reflexivity.
  unfold exec, result. rewrite run_processEvent.
  unfold onArtifactUpdate, artifact; simpl.
  pose proof (collectParts_sameArtifacts env robot parts
                (set_locals (set_receivedEvents true (locals s)) s)) as Hsame.
  unfold sameArtifacts, exec in Hsame. unfold bind.
  destruct (forEach (collectPart env robot) parts
              (set_locals (set_receivedEvents true (locals s)) s))
    as [[u | e] s'] eqn:E; simpl in *.
  - now rewrite Hsame.
  - exact Hsame.
Qed.

(** C3 as stated fails twice.  An artifact received before a Task event
    that carries artifacts is discarded; and an ArtifactUpdate whose
    artifact has no parts list is not appended. *)
Lemma task_discards_earlier_artifacts :
  let early := mkArtifact "a1" None (Some [FilePart None]) in
  let own := mkArtifact "a2" None (Some []) in
  let bare := mkArtifact "a3" None None in
  let run evs := exec (forAwait calm DialogBot.robot evs None) fresh in
  lastArtifacts (locals (run [ArtifactUpdate (Some early)])) = [early] /\
  lastArtifacts (locals (run [ArtifactUpdate (Some early);
                              TaskEvent (mkTask "t1" working (Some [own]))])) = [own] /\
  lastArtifacts (locals (run [ArtifactUpdate (Some early);
                              ArtifactUpdate (Some bare)])) = [early].
Proof. repeat split; reflexivity. Qed.

(** ** C9: parts without text *)

(** C9, as the code has it: a part whose text is empty or missing does
    not touch the state and issues no call when an ArtifactUpdate collects
    it, and a Message whose first part has no text (or that has no part)
    changes nothing but [receivedEvents], which becomes true: the text,
    the count, the handle and the trace are as before. *)
Theorem part_without_text_is_skipped env robot kind fname rest s :
  collectPart env robot (mkPart kind (Some "") fname) s = (Ok tt, s) /\
  collectPart env robot (mkPart kind None fname) s = (Ok tt, s) /\
  (let seen := set_locals (set_receivedEvents true (locals s)) s in
   processEvent env robot (Message (Some (mkPart kind (Some "") fname :: rest))) s = (Ok tt, seen) /\
   processEvent env robot (Message (Some (mkPart kind None fname :: rest))) s = (Ok tt, seen) /\
   processEvent env robot (Message (Some [])) s = (Ok tt, seen) /\
   processEvent env robot (Message None) s = (Ok tt, seen)).
Proof.
  repeat split; try reflexivity.
  - unfold collectPart. simpl. now rewrite andb_false_r.
  - unfold collectPart. simpl. now rewrite andb_false_r.
Qed.

(** C9 as stated fails: the state does change, and the change shows.  A
    Message whose only part is an empty text marks the stream as having
    delivered something, so the run ends without the notice that an empty
    stream gets; and an empty text part inside an artifact is kept with
    the artifact and rendered as a line of its own at the end. *)
Lemma empty_text_is_not_no_event :
  let blank := Message (Some [TextPart ""]) in
  let run evs := trace (exec (DialogBot.handleStreamingResponse calm
                                (agent evs None (Throw "unused")) hello) fresh) in
  receivedEvents (locals (exec (processEvent calm DialogBot.robot blank) fresh)) = true /\
  receivedEvents (locals fresh) = false /\
  run [blank] = [Typing; OpenStream hello; ClearInterval] /\
  run [] = [Typing; OpenStream hello; ClearInterval;
            Send (DialogBot.warning +++ " No response received from agent.")] /\
  run [TaskEvent (mkTask "t1" working None);
       ArtifactUpdate (Some (mkArtifact "a1" None (Some [TextPart ""])))]
    = [Typing; OpenStream hello; ClearInterval;
       Send (DialogBot.target +++ " Task t1: working");
       Send (DialogBot.paperclip +++ " a1");
       Send (DialogBot.page +++ " ")].
Proof. repeat split; reflexivity. Qed.

(** ** C10: a synchronous result of another kind *)

Lemma showsNothing_refl s : showsNothing s s.
Proof. exists []. now rewrite app_nil_r. Qed.

Lemma showsNothing_trans s1 s2 s3 :
  showsNothing s1 s2 -> showsNothing s2 s3 -> showsNothing s1 s3.
Proof.
  intros [t1 [E1 F1]] [t2 [E2 F2]]. exists (t1 ++ t2). split.
  - now rewrite E2, E1, app_assoc.
  - apply Forall_app. now split.
Qed.

Lemma noise_shows_nothing env k s : Forall (fun c => shown c = None) (noise env k s).
Proof.
  eapply Forall_impl; [| apply noise_timer]. now intros c ->.
Qed.

Lemma record_showsNothing c : shown c = None -> steps showsNothing (record c).
Proof. intros Hc s. exists [c]. split; [reflexivity | now constructor]. Qed.

Lemma suspend_showsNothing env : steps showsNothing (suspend env).
Proof.
  intros s. rewrite exec_suspend. exists (noise env (awaits s) s).
  split; [reflexivity | apply noise_shows_nothing].
Qed.

Lemma sendTyping_showsNothing env : steps showsNothing (sendTyping env).
Proof.
  intros s. unfold exec. rewrite run_sendTyping. simpl.
  exists (Typing :: noise env (awaits s) s). split; [reflexivity |].
  constructor; [reflexivity | apply noise_shows_nothing].
Qed.

Section OtherKind.
Variable env : Env.
Variable client : A2AClient.
Variable p : SendParams.
Variable answer : Event.
Hypothesis Hanswer : sendMessage client p = Ok (RpcResult answer).
Hypothesis Hkind : isMessageOrTask answer = false.

Lemma bot_fallback_other_kind s :
  sendOutcome env (awaits s) = None ->
  result (DialogBot.handleRegularResponse env client p) s = Ok tt /\
  showsNothing s (exec (DialogBot.handleRegularResponse env client p) s).
Proof.
  intros Htyping. split.
  - unfold result, DialogBot.handleRegularResponse, bind.
    rewrite run_sendTyping, Htyping. simpl. rewrite Hanswer.
    destruct answer; try discriminate Hkind; reflexivity.
  - generalize s. change (steps showsNothing (DialogBot.handleRegularResponse env client p)).
    unfold DialogBot.handleRegularResponse. rewrite Hanswer.
    destruct answer; try discriminate Hkind;
      stepwise showsNothing_refl showsNothing_trans
        ltac:(first [ apply sendTyping_showsNothing | apply suspend_showsNothing
                    | now apply record_showsNothing ]).
Qed.

Lemma dialog_fallback_other_kind s :
  sendOutcome env (awaits s) = None ->
  result (MainDialog.handleRegularResponse env client p) s = Ok tt /\
  showsNothing s (exec (MainDialog.handleRegularResponse env client p) s).
Proof.
  intros Htyping. split.
  - unfold result, MainDialog.handleRegularResponse, bind.
    rewrite run_sendTyping, Htyping. simpl. rewrite Hanswer.
    destruct answer; try discriminate Hkind; reflexivity.
  - generalize s. change (steps showsNothing (MainDialog.handleRegularResponse env client p)).
    unfold MainDialog.handleRegularResponse. rewrite Hanswer.
    destruct answer; try discriminate Hkind;
      stepwise showsNothing_refl showsNothing_trans
        ltac:(first [ apply sendTyping_showsNothing | apply suspend_showsNothing
                    | now apply record_showsNothing ]).
Qed.

End OtherKind.

(** C10: when [sendMessage] answers with a result that is neither a
    message nor a task, the synchronous fallback of either file returns
    normally and every call it makes (the typing indicator, the request
    itself) shows no text: no message, no notice, no error. *)
Theorem fallback_other_kind_shows_nothing env client p answer s :
  sendOutcome env (awaits s) = None ->
  sendMessage client p = Ok (RpcResult answer) ->
  isMessageOrTask answer = false ->
  (result (DialogBot.handleRegularResponse env client p) s = Ok tt /\
   showsNothing s (exec (DialogBot.handleRegularResponse env client p) s)) /\
  (result (MainDialog.handleRegularResponse env client p) s = Ok tt /\
   showsNothing s (exec (MainDialog.handleRegularResponse env client p) s)).
Proof.
  intros Htyping Hanswer Hkind. split.
  - now apply (bot_fallback_other_kind env client p answer).
  - now apply (dialog_fallback_other_kind env client p answer).
Qed.

Lemma fallback_other_kind_shows_nothing_witness :
  let client := agent [] None (Ok (RpcResult (StatusUpdate working))) in
  (result (DialogBot.handleRegularResponse calm client hello) fresh = Ok tt /\
   showsNothing fresh (exec (DialogBot.handleRegularResponse calm client hello) fresh)) /\
  (result (MainDialog.handleRegularResponse calm client hello) fresh = Ok tt /\
   showsNothing fresh (exec (MainDialog.handleRegularResponse calm client hello) fresh)).
Proof.
  apply (fallback_other_kind_shows_nothing calm
           (agent [] None (Ok (RpcResult (StatusUpdate working)))) hello
           (StatusUpdate working) fresh); reflexivity.
Defined.

(** ** The run of [handleStreamingResponse], piece by piece *)

Lemma run_try_prefix {A B C} (a : M A) (b : A -> M B) (c : B -> M C) h s :
  try_catch (bind (bind a b) c) h s =
  match a s with
  | (Ok x, s1) => try_catch (bind (b x) c) h s1
  | (Throw e, s1) => h e s1
  end.
Proof. unfold try_catch, bind. destruct (a s) as [[x | e] s1]; reflexivity. Qed.

Section Start.
Variable env : Env.
Variable robot : string.

Lemma run_startStreaming p s :
  startStreaming env p s =
  match sendOutcome env (awaits s) with
  | Some msg => (Throw msg, notStarted env s)
  | None => (Ok tt, started env p s)
  end.
Proof.
  unfold startStreaming, bind. rewrite run_sendTyping.
  destruct (sendOutcome env (awaits s)); reflexivity.
Qed.

Lemma run_streaming {C} (final : M C) h client p s :
  try_catch (consumeStream env robot client p ;; final) h s =
  match sendOutcome env (awaits s) with
  | Some msg => h msg (notStarted env s)
  | None =>
      try_catch (streamLoop env robot (sendMessageStream client p) ;; final) h
                (started env p s)
  end.
Proof.
  unfold consumeStream. rewrite run_try_prefix, run_startStreaming.
  destruct (sendOutcome env (awaits s)); reflexivity.
Qed.

End Start.

(** ** Counting calls *)

Lemma count_app f a b : count f (a ++ b) = count f a + count f b.
Proof. unfold count. now rewrite filter_app, length_app. Qed.

Lemma count_cons f c tr : count f (c :: tr) = (if f c then 1 else 0) + count f tr.
Proof. unfold count. simpl. now destruct (f c). Qed.

Lemma count_nil f : count f [] = 0.
Proof. reflexivity. Qed.

Lemma count_noise f env k s : f TimerTyping = false -> count f (noise env k s) = 0.
Proof.
  intros Hf. unfold noise. destruct (_ && _); [| reflexivity].
  induction (ticks env k) as [| n IH]; [reflexivity |].
  simpl. now rewrite count_cons, Hf, IH.
Qed.

Ltac counting :=
  unfold sends, updates, timerTypings in *;
  repeat first
    [ rewrite count_app | rewrite count_cons | rewrite count_nil
    | rewrite count_noise by reflexivity ];
  simpl.

Ltac counting_in H :=
  unfold sends, updates, timerTypings in H;
  repeat first
    [ rewrite count_app in H | rewrite count_cons in H | rewrite count_nil in H
    | rewrite count_noise in H by reflexivity ];
  simpl in H.

(** ** C6: how often the message is updated in place *)

Lemma throttled_refl s : throttled 0 s s.
Proof. unfold throttled. lia. Qed.

Lemma throttled_trans j k s1 s2 s3 :
  throttled j s1 s2 -> throttled k s2 s3 -> throttled (j + k) s1 s3.
Proof. unfold throttled. lia. Qed.

Lemma throttled_trans0 s1 s2 s3 :
  throttled 0 s1 s2 -> throttled 0 s2 s3 -> throttled 0 s1 s3.
Proof. apply (throttled_trans 0 0). Qed.

Lemma throttled_weaken j k s s' : j <= k -> throttled j s s' -> throttled k s s'.
Proof. unfold throttled. lia. Qed.

Lemma throttled_bind j k {A B} (m : M A) (f : A -> M B) :
  steps (throttled j) m -> (forall a, steps (throttled k) (f a)) ->
  steps (throttled (j + k)) (bind m f).
Proof.
  intros Hm Hf s. unfold exec, bind.
  specialize (Hm s). unfold exec in Hm.
  destruct (m s) as [[a | e] s'] eqn:E; simpl in *.
  - apply throttled_trans with s'; [exact Hm | apply Hf].
  - apply throttled_weaken with j; [lia | exact Hm].
Qed.

Lemma throttled_catch j k {A} (m : M A) h :
  steps (throttled j) m -> (forall e, steps (throttled k) (h e)) ->
  steps (throttled (j + k)) (try_catch m h).
Proof.
  intros Hm Hh s. unfold exec, try_catch.
  specialize (Hm s). unfold exec in Hm.
  destruct (m s) as [[a | e] s'] eqn:E; simpl in *.
  - apply throttled_weaken with j; [lia | exact Hm].
  - apply throttled_trans with s'; [exact Hm | apply Hh].
Qed.

Lemma throttled_finally j k {A} (m : M A) c :
  steps (throttled j) m -> steps (throttled k) c ->
  steps (throttled (j + k)) (try_finally m c).
Proof.
  intros Hm Hc s. unfold exec, try_finally.
  specialize (Hm s). unfold exec in Hm.
  destruct (m s) as [r s'] eqn:E; simpl in *.
  specialize (Hc s'). unfold exec in Hc.
  destruct (c s') as [[u | e] s''] eqn:E'; simpl in *;
    apply throttled_trans with s'; assumption.
Qed.

Lemma throttled_steps_weaken j k {A} (m : M A) :
  j <= k -> steps (throttled j) m -> steps (throttled k) m.
Proof. intros Hle Hm s. apply throttled_weaken with j; [exact Hle | apply Hm]. Qed.

Section Throttle.
Variable env : Env.

Lemma record_throttled c : isUpdate c = false -> steps (throttled 0) (record c).
Proof.
  intros Hc s. unfold throttled, exec. simpl. counting. rewrite Hc. lia.
Qed.

Lemma suspend_throttled : steps (throttled 0) (suspend env).
Proof. intros s. rewrite exec_suspend. unfold throttled. simpl. counting. lia. Qed.

Lemma sendText_throttled text : steps (throttled 0) (sendText env text).
Proof.
  intros s. unfold exec. rewrite run_sendText. unfold throttled. simpl. counting. lia.
Qed.

Lemma sendTyping_throttled : steps (throttled 0) (sendTyping env).
Proof.
  intros s. unfold exec. rewrite run_sendTyping. unfold throttled. simpl. counting. lia.
Qed.

Lemma update_throttled h text : steps (throttled 1) (updateActivity env h text).
Proof.
  intros s. unfold exec. rewrite run_updateActivity. unfold throttled. simpl. counting. lia.
Qed.

Lemma modifyLocals_throttled f :
  (forall l, updateCount (f l) = updateCount l) -> steps (throttled 0) (modifyLocals f).
Proof. intros Hf s. unfold throttled, exec. simpl. rewrite Hf. lia. Qed.

Lemma armInterval_throttled b : steps (throttled 0) (armInterval b).
Proof. intros s. unfold throttled, exec. simpl. lia. Qed.

Lemma clearInterval_throttled : steps (throttled 0) clearInterval.
Proof.
  unfold clearInterval.
  stepwise throttled_refl throttled_trans0
    ltac:(first [ now apply record_throttled | apply armInterval_throttled ]).
Qed.

Lemma due_update n : S n mod 5 = 0 -> n / 5 + 1 <= S n / 5.
Proof.
  intros Hmod.
  pose proof (Nat.div_mod_eq (S n) 5) as H1.
  pose proof (Nat.div_mod_eq n 5) as H2.
  pose proof (Nat.mod_upper_bound n 5) as H3.
  lia.
Qed.

Lemma contribute_throttled robot t : steps (throttled 0) (contribute env robot t).
Proof.
  intros s. unfold throttled, exec.
  destruct (contribute_cases s) as [H | [[h [H1 H2]] | [h [H1 H2]]]].
  - rewrite (run_contribute_create env robot t s H). simpl.
    pose proof (Nat.Div0.div_le_mono (updateCount (locals s)) (S (updateCount (locals s))) 5).
    destruct (sendOutcome env (awaits s)); simpl; counting; lia.
  - rewrite (run_contribute_update env robot t s h H1 H2). simpl. counting.
    pose proof (due_update _ H2). lia.
  - rewrite (run_contribute_skip env robot t s h H1 H2). simpl.
    pose proof (Nat.Div0.div_le_mono (updateCount (locals s)) (S (updateCount (locals s))) 5).
    lia.
Qed.

End Throttle.

Ltac throttled_leaf :=
  first [ apply contribute_throttled
        | apply suspend_throttled
        | apply sendText_throttled
        | apply sendTyping_throttled
        | apply clearInterval_throttled
        | now apply record_throttled
        | now apply modifyLocals_throttled ].

Section ThrottledLoop.
Variable env : Env.
Variable robot : string.

Lemma onStatusUpdate_throttled st : steps (throttled 1) (onStatusUpdate env robot st).
Proof.
  intros s. unfold exec, onStatusUpdate, bind, modifyLocals, getLocals, when. simpl.
  destruct (String.eqb (state st) "completed"); simpl.
  - destruct (currentTask (locals s)); simpl;
      destruct (messageActivity (locals s)) as [h |]; simpl;
      try (unfold throttled; simpl; counting; lia);
      destruct (accumulatedText (locals s)); simpl;
      try (unfold throttled; simpl; counting; lia);
      rewrite run_swallow_update; unfold throttled; simpl; counting; lia.
  - destruct (currentTask (locals s)); unfold throttled; simpl; lia.
Qed.

Lemma processEvent_throttled event :
  steps (throttled (if isCompletion event then 1 else 0)) (processEvent env robot event).
Proof.
  unfold processEvent.
  apply (throttled_bind 0 _); [now apply modifyLocals_throttled | intros _].
  destruct event as [parts | t | st | a | kind]; simpl.
  - unfold onMessage. stepwise throttled_refl throttled_trans0 throttled_leaf.
  - unfold onTask. stepwise throttled_refl throttled_trans0 throttled_leaf.
  - destruct (String.eqb (state st) "completed") eqn:E.
    + apply onStatusUpdate_throttled.
    + intros s. unfold exec, onStatusUpdate, bind, modifyLocals, when. simpl.
      rewrite E. simpl. destruct (currentTask (locals s)); unfold throttled; simpl; lia.
  - unfold onArtifactUpdate, collectPart.
    stepwise throttled_refl throttled_trans0 throttled_leaf.
  - apply (steps_ret _ throttled_refl).
Qed.

Lemma forAwait_throttled evs fail :
  steps (throttled (completions evs)) (forAwait env robot evs fail).
Proof.
  induction evs as [| event rest IH]; simpl.
  - stepwise throttled_refl throttled_trans0 throttled_leaf.
  - apply (throttled_bind 0 _); [apply suspend_throttled | intros _].
    unfold completions. simpl.
    destruct (isCompletion event) eqn:E; simpl.
    + apply (throttled_bind 1 _); [| intros _; exact IH].
      pose proof (processEvent_throttled event) as H. now rewrite E in H.
    + apply (throttled_bind 0 _); [| intros _; exact IH].
      pose proof (processEvent_throttled event) as H. now rewrite E in H.
Qed.

Lemma cleanup_throttled : steps (throttled 0) cleanup.
Proof. unfold cleanup. stepwise throttled_refl throttled_trans0 throttled_leaf. Qed.

Lemma streamLoop_throttled stream :
  steps (throttled (completions (events stream))) (streamLoop env robot stream).
Proof.
  unfold streamLoop.
  apply (throttled_steps_weaken (completions (events stream) + 0)); [lia |].
  apply throttled_finally; [apply forAwait_throttled | apply cleanup_throttled].
Qed.

(** The message is updated or, failing that, sent anew: one update. *)
Lemma final_text_throttled h text :
  steps (throttled 1)
        (try_catch (updateActivity env h text) (fun _ => sendText env text)).
Proof.
  apply (throttled_catch 1 0); [apply update_throttled | intros _; apply sendText_throttled].
Qed.

End ThrottledLoop.

Section ThrottledRun.
Variable env : Env.

Lemma bot_fallback_throttled client p :
  steps (throttled 0) (DialogBot.handleRegularResponse env client p).
Proof.
  unfold DialogBot.handleRegularResponse, DialogBot.displayArtifacts, DialogBot.displayPart.
  stepwise throttled_refl throttled_trans0 throttled_leaf.
Qed.

Lemma dialog_fallback_throttled client p :
  steps (throttled 0) (MainDialog.handleRegularResponse env client p).
Proof.
  unfold MainDialog.handleRegularResponse, MainDialog.displayTaskArtifacts,
    MainDialog.displayPart.
  stepwise throttled_refl throttled_trans0 throttled_leaf.
Qed.

Lemma bot_final_throttled : steps (throttled 1) (DialogBot.finalResponse env).
Proof.
  unfold DialogBot.finalResponse.
  apply (throttled_bind 0 1); [intros s; apply throttled_refl | intros l].
  destruct (JS.truthy (Some (accumulatedText l))).
  - destruct (messageActivity l) as [h |]; [apply final_text_throttled |].
    apply (throttled_steps_weaken 0); [lia | apply sendText_throttled].
  - apply (throttled_steps_weaken 0); [lia |].
    unfold DialogBot.displayArtifacts, DialogBot.displayPart.
    stepwise throttled_refl throttled_trans0 throttled_leaf.
Qed.

Lemma dialog_final_throttled : steps (throttled 1) (MainDialog.finalResponse env).
Proof.
  unfold MainDialog.finalResponse.
  apply (throttled_bind 0 1); [intros s; apply throttled_refl | intros l].
  destruct (JS.truthy (Some (accumulatedText l))).
  - destruct (messageActivity l) as [h |]; [apply final_text_throttled |].
    apply (throttled_steps_weaken 0); [lia | apply sendText_throttled].
  - apply (throttled_steps_weaken 0); [lia |].
    unfold MainDialog.displayTaskArtifacts, MainDialog.displayPart.
    stepwise throttled_refl throttled_trans0 throttled_leaf.
Qed.

(** Whatever the final response and the fallback are, as long as the one
    updates at most once and the other not at all. *)
Lemma streaming_throttled robot (final : M unit) (fallback : M unit) client p s :
  steps (throttled 1) final ->
  steps (throttled 0) fallback ->
  let s' := exec (try_catch (consumeStream env robot client p ;; final)
                            (fun _ => fallback)) s in
  updates (trace s')
  <= updates (trace s) + updateCount (locals s') / 5
     + completions (events (sendMessageStream client p)) + 1.
Proof.
  intros Hfinal Hfallback. unfold exec. rewrite run_streaming.
  destruct (sendOutcome env (awaits s)) as [msg |].
  - pose proof (Hfallback (notStarted env s)) as [_ H]. unfold exec in H.
    simpl in H. counting_in H. counting. lia.
  - assert (Hrest : steps (throttled (completions (events (sendMessageStream client p)) + 1 + 0))
               (try_catch (streamLoop env robot (sendMessageStream client p) ;; final)
                          (fun _ => fallback))).
    { apply throttled_catch; [| intros _; exact Hfallback].
      apply throttled_bind; [apply streamLoop_throttled | intros _; exact Hfinal]. }
    pose proof (Hrest (started env p s)) as [_ H]. unfold exec in H.
    simpl in H. counting_in H. counting. lia.
Qed.

End ThrottledRun.

(** C6, as the code has it: over a whole run of [handleStreamingResponse]
    (fallback included) the message is updated in place at most
    [floor(updateCount / 5)] times by the periodic rule, once more for
    every status update of the stream whose state is [completed], and
    once more by the final response. *)
Theorem updates_in_place_bounded env client p s :
  let bound s' :=
    updates (trace s) + updateCount (locals s') / 5
    + completions (events (sendMessageStream client p)) + 1 in
  updates (trace (exec (DialogBot.handleStreamingResponse env client p) s))
    <= bound (exec (DialogBot.handleStreamingResponse env client p) s) /\
  updates (trace (exec (MainDialog.handleStreamingResponse env client p) s))
    <= bound (exec (MainDialog.handleStreamingResponse env client p) s).
Proof.
  split.
  - apply streaming_throttled; [apply bot_final_throttled | apply bot_fallback_throttled].
  - apply streaming_throttled; [apply dialog_final_throttled | apply dialog_fallback_throttled].
Qed.

(** C6 as stated fails: five text messages and a [completed] status give
    one periodic update (at the fifth contribution), one forced update at
    the status and one at the end: three updates, where
    [ceil(5 / 5) + 1] is two. *)
Lemma three_updates_for_five_contributions :
  let text t := Message (Some [TextPart t]) in
  let evs := [text "a"; text "b"; text "c"; text "d"; text "e";
              StatusUpdate (mkStatus "completed" None)] in
  let s' := exec (DialogBot.handleStreamingResponse calm
                    (agent evs None (Throw "unused")) hello) fresh in
  updateCount (locals s') = 5 /\
  updates (trace s') = 3 /\
  (updateCount (locals s') + 4) / 5 + 1 = 2.
Proof. repeat split; reflexivity. Qed.

(** ** Runs that return *)

Section SuccessRules.
Variable I : State -> Prop.

Lemma succeeds_ret {A} (a : A) : succeeds I (ret a).
Proof. intros s Hs. split; [now exists a | exact Hs]. Qed.

Lemma succeeds_bind {A B} (m : M A) (f : A -> M B) :
  succeeds I m -> (forall a, succeeds I (f a)) -> succeeds I (bind m f).
Proof.
  intros Hm Hf s Hs. destruct (Hm s Hs) as [[a Ha] Hi].
  unfold result, exec in *. unfold bind.
  destruct (m s) as [r s'] eqn:E. simpl in *. subst r.
  apply (Hf a s' Hi).
Qed.

(** [try { m } catch { h }] returns when [m], however it ends, keeps the
    invariant and [h] returns. *)
Lemma succeeds_catch {A} (m : M A) h :
  steps (fun s s' => I s -> I s') m -> (forall e, succeeds I (h e)) ->
  succeeds I (try_catch m h).
Proof.
  intros Hm Hh s Hs. specialize (Hm s Hs).
  unfold result, exec in *. unfold try_catch.
  destruct (m s) as [[a | e] s'] eqn:E; simpl in *.
  - split; [now exists a | exact Hm].
  - apply (Hh e s' Hm).
Qed.

Lemma succeeds_finally {A} (m : M A) c :
  succeeds I m -> succeeds I c -> succeeds I (try_finally m c).
Proof.
  intros Hm Hc s Hs. destruct (Hm s Hs) as [[a Ha] Hi].
  unfold result, exec in *. unfold try_finally.
  destruct (m s) as [r s'] eqn:E. simpl in *. subst r.
  pose proof (Hc s' Hi) as [[u Hu] Hi']. unfold result, exec in Hu, Hi'.
  destruct (c s') as [r' s''] eqn:E'. simpl in *. subst r'.
  split; [now exists a | exact Hi'].
Qed.

Lemma succeeds_when b m : succeeds I m -> succeeds I (when b m).
Proof. intros Hm. destruct b; [exact Hm | apply succeeds_ret]. Qed.

Lemma succeeds_forEach {A} (body : A -> M unit) xs :
  (forall x, succeeds I (body x)) -> succeeds I (forEach body xs).
Proof.
  intros Hb. induction xs as [| x xs IH]; simpl.
  - apply succeeds_ret.
  - apply succeeds_bind; [apply Hb | intros _; exact IH].
Qed.

Lemma succeeds_getLocals : succeeds I getLocals.
Proof. intros s Hs. split; [now exists (locals s) | exact Hs]. Qed.

End SuccessRules.

Ltac surely leaf :=
  repeat first
    [ solve [ leaf ]
    | apply succeeds_ret
    | apply succeeds_getLocals
    | apply succeeds_bind; [ | intros ? ]
    | apply succeeds_finally
    | apply succeeds_when
    | apply succeeds_forEach; intros ?
    | match goal with
      | |- succeeds _ (match ?x with _ => _ end) => destruct x
      | |- succeeds _ (if ?b then _ else _) => destruct b
      end ].

(** ** C5: one message, updated in place *)

Lemma updatesOnly_app h a b :
  updatesOnly h a -> updatesOnly h b -> updatesOnly h (a ++ b).
Proof.
  intros Ha Hb h' text Hin. apply in_app_or in Hin as [Hin | Hin]; eauto.
Qed.

Lemma updatesOnly_nil h : updatesOnly h [].
Proof. intros h' text []. Qed.

Lemma updatesOnly_noise h env k s : updatesOnly h (noise env k s).
Proof.
  intros h' text Hin. pose proof (noise_timer env k s) as Hn.
  rewrite Forall_forall in Hn. now apply Hn in Hin.
Qed.

Lemma updatesOnly_none h tl : updates tl = 0 -> updatesOnly h tl.
Proof.
  unfold updates. induction tl as [| c tl IH]; intros Hz h' text Hin; [destruct Hin |].
  rewrite count_cons in Hz. destruct Hin as [-> | Hin].
  - simpl in Hz. lia.
  - apply (IH ltac:(lia) h' text Hin).
Qed.

Lemma updatesOnly_cons h c tl :
  (forall h' text, c = Update h' text -> h' = h) ->
  updatesOnly h tl -> updatesOnly h (c :: tl).
Proof. intros Hc Htl h' text [-> | Hin]; eauto. Qed.

(** The invariant survives calls that add no message, and only updates
    of the message at hand, as long as the handle and the emptiness of the
    text are as before. *)
Lemma oneMessage_extend tr0 s s' ext :
  oneMessage tr0 s ->
  trace s' = trace s ++ ext ->
  messageActivity (locals s') = messageActivity (locals s) ->
  (messageActivity (locals s) = None ->
   accumulatedText (locals s') = accumulatedText (locals s)) ->
  sends ext = 0 ->
  (forall h, messageActivity (locals s) = Some h -> updatesOnly h ext) ->
  (messageActivity (locals s) = None -> updates ext = 0) ->
  oneMessage tr0 s'.
Proof.
  intros [tl [Htr Hinv]] Hext Hh Hacc Hsends Hsome Hnone.
  exists (tl ++ ext). split; [now rewrite Hext, Htr, app_assoc |].
  rewrite Hh. destruct (messageActivity (locals s)) as [h |].
  - destruct Hinv as [H1 H2]. split.
    + unfold sends in *. rewrite count_app. lia.
    + apply updatesOnly_app; auto.
  - destruct Hinv as [H1 [H2 H3]]. repeat split.
    + now rewrite (Hacc eq_refl).
    + unfold sends in *. rewrite count_app. lia.
    + unfold updates in *. rewrite count_app. rewrite (Hnone eq_refl). lia.
Qed.

Ltac only_updates :=
  repeat first
    [ apply updatesOnly_nil
    | apply updatesOnly_noise
    | apply updatesOnly_app
    | apply updatesOnly_cons;
      [ let Heq := fresh in
        intros ? ? Heq;
        first [ discriminate Heq | injection Heq; intros; subst; congruence ]
      | ] ].

Section OneMessage.
Variable env : Env.
Variable robot : string.
Variable tr0 : list Call.
Hypothesis Hsend : forall k, sendOutcome env k = None.

Lemma suspend_one : succeeds (oneMessage tr0) (suspend env).
Proof.
  intros s Hinv. split; [now exists (awaits s) |]. rewrite exec_suspend.
  eapply (oneMessage_extend _ _ _ _ Hinv); simpl;
    [ reflexivity | reflexivity | reflexivity | | | ];
    intros; first [ now counting | apply updatesOnly_noise ].
Qed.

Lemma modifyLocals_one f :
  (forall l, messageActivity (f l) = messageActivity l) ->
  (forall l, accumulatedText (f l) = accumulatedText l) ->
  succeeds (oneMessage tr0) (modifyLocals f).
Proof.
  intros Hh Ha s Hinv. split; [now exists tt |]. unfold exec. simpl.
  eapply (oneMessage_extend _ _ _ [] Hinv); simpl;
    [ now rewrite app_nil_r | apply Hh | intros _; apply Ha | | | ];
    intros; first [ reflexivity | apply updatesOnly_nil ].
Qed.

Lemma clearInterval_one : succeeds (oneMessage tr0) clearInterval.
Proof.
  intros s Hinv. split; [now exists tt |]. unfold exec. simpl.
  eapply (oneMessage_extend _ _ _ [ClearInterval] Hinv); simpl;
    [ reflexivity | reflexivity | reflexivity | | | ];
    intros; first [ reflexivity | only_updates ].
Qed.

Lemma contribute_one t : succeeds (oneMessage tr0) (contribute env robot t).
Proof.
  intros s Hinv. unfold result, exec.
  destruct (contribute_cases s) as [H | [[h [H1 H2]] | [h [H1 H2]]]].
  - rewrite (run_contribute_create env robot t s H), Hsend. simpl.
    split; [now exists tt |].
    destruct Hinv as [tl [Htr Hinv]]. rewrite H in Hinv. destruct Hinv as [_ [Hs Hu]].
    eexists. simpl. split; [rewrite Htr, <- app_assoc; reflexivity |].
    split.
    + counting. lia.
    + apply updatesOnly_app; [now apply updatesOnly_none | only_updates].
  - rewrite (run_contribute_update env robot t s h H1 H2). simpl.
    split; [now exists tt |].
    eapply (oneMessage_extend _ _ _ _ Hinv); simpl;
      [ reflexivity | reflexivity | congruence | | | ];
      intros; first [ now counting | congruence | only_updates ].
  - rewrite (run_contribute_skip env robot t s h H1 H2). simpl.
    split; [now exists tt |].
    eapply (oneMessage_extend _ _ _ [] Hinv); simpl;
      [ now rewrite app_nil_r | reflexivity | congruence | | | ];
      intros; first [ reflexivity | apply updatesOnly_nil ].
Qed.

Lemma onStatusUpdate_one st : succeeds (oneMessage tr0) (onStatusUpdate env robot st).
Proof.
  intros s Hinv.
  unfold result, exec, onStatusUpdate, bind, modifyLocals, getLocals, when. simpl.
  destruct (String.eqb (state st) "completed"); simpl.
  - destruct (currentTask (locals s)); simpl;
      destruct (messageActivity (locals s)) as [h |] eqn:Eh; simpl;
      try destruct (accumulatedText (locals s)) eqn:Ea; simpl;
      try rewrite run_swallow_update; simpl;
      (split; [now exists tt |]);
      (eapply (oneMessage_extend _ _ _ _ Hinv); simpl;
       [ rewrite <- ?app_assoc; reflexivity | reflexivity | reflexivity | | | ];
       intros; first [ now counting | congruence | only_updates ]).
  - split; [now exists tt |].
    eapply (oneMessage_extend _ _ _ [] Hinv); simpl;
      [ now rewrite app_nil_r | | | | | ];
      intros; destruct (currentTask (locals s));
      first [ reflexivity | apply updatesOnly_nil ].
Qed.

Ltac one_leaf :=
  first [ apply contribute_one
        | apply onStatusUpdate_one
        | apply suspend_one
        | apply clearInterval_one
        | apply modifyLocals_one; intros; reflexivity ].

Lemma processEvent_one event : succeeds (oneMessage tr0) (processEvent env robot event).
Proof.
  unfold processEvent, onMessage, onTask, onArtifactUpdate, collectPart.
  surely one_leaf.
Qed.

Lemma forAwait_one evs : succeeds (oneMessage tr0) (forAwait env robot evs None).
Proof.
  induction evs as [| event rest IH]; simpl.
  - surely one_leaf.
  - apply succeeds_bind; [apply suspend_one | intros _].
    apply succeeds_bind; [apply processEvent_one | intros _; exact IH].
Qed.

Lemma streamLoop_one stream :
  failure stream = None -> succeeds (oneMessage tr0) (streamLoop env robot stream).
Proof.
  intros Hnone. unfold streamLoop, cleanup. rewrite Hnone.
  apply succeeds_finally; [apply forAwait_one | surely one_leaf].
Qed.

End OneMessage.

Lemma run_streamLoop env robot stream s :
  let s1 := exec (forAwait env robot (events stream) (failure stream)) s in
  streamLoop env robot stream s =
  (result (forAwait env robot (events stream) (failure stream)) s,
   mkState (set_isCompleted true (locals s1)) (trace s1 ++ [ClearInterval])
           (awaits s1) false (turnState s1) (a2aState s1)).
Proof.
  unfold streamLoop, try_finally, result, exec.
  destruct (forAwait env robot (events stream) (failure stream) s) as [r s1].
  reflexivity.
Qed.

Lemma streamLoop_off env robot stream s :
  typingInterval (exec (streamLoop env robot stream) s) = false.
Proof. unfold exec. now rewrite run_streamLoop. Qed.

Section OneMessageRun.
Variable env : Env.
Hypothesis Hsend : forall k, sendOutcome env k = None.

Lemma sendText_returns text : succeeds (fun _ => True) (sendText env text).
Proof.
  intros s _. unfold result. rewrite run_sendText, Hsend. split; [now exists tt | exact I].
Qed.

Lemma final_text_returns h text :
  succeeds (fun _ => True)
           (try_catch (updateActivity env h text) (fun _ => sendText env text)).
Proof.
  apply succeeds_catch; [intros s _; exact I | intros _; apply sendText_returns].
Qed.

Lemma bot_final_returns : succeeds (fun _ => True) (DialogBot.finalResponse env).
Proof.
  unfold DialogBot.finalResponse, DialogBot.displayArtifacts, DialogBot.displayPart.
  surely ltac:(first [ apply final_text_returns | apply sendText_returns ]).
Qed.

Lemma dialog_final_returns : succeeds (fun _ => True) (MainDialog.finalResponse env).
Proof.
  unfold MainDialog.finalResponse, MainDialog.displayTaskArtifacts, MainDialog.displayPart.
  surely ltac:(first [ apply final_text_returns | apply sendText_returns ]).
Qed.

(** The final update, and its substitute when it is refused. *)
Lemma run_final_text h text s :
  typingInterval s = false ->
  result (try_catch (updateActivity env h text) (fun _ => sendText env text)) s = Ok tt /\
  trace (exec (try_catch (updateActivity env h text) (fun _ => sendText env text)) s)
  = trace s ++ Update h text ::
    match updateOutcome env (awaits s) with
    | None => []
    | Some _ => [Send text]
    end.
Proof.
  intros Hoff. unfold result, exec, try_catch. rewrite run_updateActivity.
  rewrite (noise_off env _ s Hoff).
  destruct (updateOutcome env (awaits s)); simpl; [| now split].
  rewrite run_sendText, Hsend. simpl. rewrite noise_off by exact Hoff.
  split; [reflexivity |]. now rewrite <- app_assoc.
Qed.

Lemma streaming_one_message robot (final fallback : M unit) client p s :
  failure (sendMessageStream client p) = None ->
  succeeds (fun _ => True) final ->
  (forall s1 h, nonEmpty (accumulatedText (locals s1)) = true ->
     messageActivity (locals s1) = Some h ->
     final s1 = try_catch (updateActivity env h (rendered robot (locals s1)))
                          (fun _ => sendText env (rendered robot (locals s1))) s1) ->
  streamsOneMessage env robot
    (try_catch (consumeStream env robot client p ;; final) (fun _ => fallback))
    client p s.
Proof.
  intros Hnone Hfinal Htext. unfold streamsOneMessage.
  assert (Hstart : oneMessage (trace s) (started env p s)).
  { exists (Typing :: noise env (awaits s) s ++ [OpenStream p]). simpl. split.
    - now rewrite <- app_assoc.
    - repeat split; now counting. }
  destruct (streamLoop_one env robot (trace s) Hsend _ Hnone _ Hstart) as [[[] Hok] Hinv].
  pose proof (streamLoop_off env robot (sendMessageStream client p) (started env p s)) as Hoff.
  unfold result, exec in *.
  destruct (streamLoop env robot (sendMessageStream client p) (started env p s))
    as [r s1] eqn:E. simpl in Hok, Hinv, Hoff. subst r.
  assert (Hconsume : consumeStream env robot client p s = (Ok tt, s1)).
  { unfold consumeStream, bind. now rewrite run_startStreaming, Hsend. }
  rewrite run_streaming, Hsend. unfold try_catch, bind. rewrite E, Hconsume. simpl.
  destruct (Hfinal s1 I) as [[[] Hret] _]. unfold result in Hret.
  destruct (final s1) as [r2 s2] eqn:E2. simpl in Hret. subst r2. simpl.
  split; [reflexivity |]. intros Htextual.
  destruct Hinv as [tl [Htr Hinv]].
  destruct (messageActivity (locals s1)) as [h |] eqn:Eh; [| now destruct Hinv].
  destruct Hinv as [Hs Hu]. exists h, tl. repeat split; auto.
  assert (Hne : nonEmpty (accumulatedText (locals s1)) = true)
    by (destruct (accumulatedText (locals s1)); [now destruct Htextual | reflexivity]).
  pose proof (Htext s1 h Hne Eh) as Hrun. rewrite E2 in Hrun.
  destruct (run_final_text h (rendered robot (locals s1)) s1 Hoff) as [_ Htrace].
  unfold exec in Htrace. now rewrite <- Hrun in Htrace.
Qed.

End OneMessageRun.




(** ** C4: the typing timer *)

Lemma quiet_without_clear tr : ~ In ClearInterval tr -> quietAfterClear tr = true.
Proof.
  induction tr as [| c tr IH]; [reflexivity |]. intros Hnot.
  destruct c; simpl; try (apply IH; intros Hin; apply Hnot; now right).
  exfalso. apply Hnot. now left.
Qed.

Lemma quiet_app tr ext :
  quietAfterClear tr = true ->
  forallb (fun c => negb (isTimerTyping c)) ext = true ->
  quietAfterClear (tr ++ ext) = true.
Proof.
  intros Htr Hext. induction tr as [| c tr IH]; simpl.
  - clear Htr. induction ext as [| c ext IH]; [reflexivity |].
    simpl in Hext. apply andb_prop in Hext as [Hc Hext].
    destruct c; simpl; auto.
  - destruct c; simpl in *; auto.
    rewrite forallb_app. now rewrite Htr, Hext.
Qed.

Lemma quiet_app_noise env k s tr :
  ~ In ClearInterval tr -> quietAfterClear (tr ++ noise env k s) = true.
Proof.
  intros Hnot. apply quiet_without_clear. intros Hin.
  apply in_app_or in Hin as [Hin | Hin]; [now apply Hnot |].
  pose proof (noise_timer env k s) as Hn. rewrite Forall_forall in Hn.
  now apply Hn in Hin.
Qed.

Lemma keepsTimerDiscipline_refl s : keepsTimerDiscipline s s.
Proof. now intros H. Qed.

Lemma keepsTimerDiscipline_trans s1 s2 s3 :
  keepsTimerDiscipline s1 s2 -> keepsTimerDiscipline s2 s3 -> keepsTimerDiscipline s1 s3.
Proof. unfold keepsTimerDiscipline. auto. Qed.

Section TimerDiscipline.
Variable env : Env.

Lemma suspend_discipline : steps keepsTimerDiscipline (suspend env).
Proof.
  intros s [Hq Hset]. rewrite exec_suspend. split; simpl.
  - destruct (typingInterval s) eqn:E.
    + apply quiet_app_noise. now apply Hset.
    + now rewrite (noise_off env _ s E), app_nil_r.
  - intros Hon Hin. apply in_app_or in Hin as [Hin | Hin]; [now apply (Hset Hon) |].
    pose proof (noise_timer env (awaits s) s) as Hn. rewrite Forall_forall in Hn.
    now apply Hn in Hin.
Qed.

Lemma record_discipline c :
  isTimerTyping c = false -> c <> ClearInterval -> steps keepsTimerDiscipline (record c).
Proof.
  intros Hc Hne s [Hq Hset]. unfold exec. simpl. split; simpl.
  - apply quiet_app; [exact Hq | simpl; now rewrite Hc].
  - intros Hon Hin. apply in_app_or in Hin as [Hin | [Hin | []]]; [now apply (Hset Hon) |].
    now apply Hne.
Qed.

Lemma clearInterval_discipline : steps keepsTimerDiscipline clearInterval.
Proof.
  intros s [Hq Hset]. unfold exec. simpl. split; simpl.
  - apply quiet_app; [exact Hq | reflexivity].
  - discriminate.
Qed.

Ltac discipline_call :=
  unfold sendText, sendActivity, sendTyping, updateActivity;
  stepwise keepsTimerDiscipline_refl keepsTimerDiscipline_trans
    ltac:(first [ apply suspend_discipline
                | apply record_discipline; [reflexivity | discriminate] ]).

Lemma sendActivity_discipline text : steps keepsTimerDiscipline (sendActivity env text).
Proof. discipline_call. Qed.

Lemma sendText_discipline text : steps keepsTimerDiscipline (sendText env text).
Proof. discipline_call. Qed.

Lemma sendTyping_discipline : steps keepsTimerDiscipline (sendTyping env).
Proof. discipline_call. Qed.

Lemma updateActivity_discipline h text :
  steps keepsTimerDiscipline (updateActivity env h text).
Proof. discipline_call. Qed.

End TimerDiscipline.

Section DisciplinedRun.
Variable env : Env.

Ltac discipline_leaf :=
  first [ apply sendActivity_discipline
        | apply sendText_discipline
        | apply sendTyping_discipline
        | apply updateActivity_discipline
        | apply suspend_discipline
        | apply clearInterval_discipline
        | apply record_discipline; [reflexivity | discriminate] ].

Lemma processEvent_discipline robot event :
  steps keepsTimerDiscipline (processEvent env robot event).
Proof.
  unfold processEvent, onMessage, onTask, onStatusUpdate, onArtifactUpdate,
    collectPart, contribute.
  stepwise keepsTimerDiscipline_refl keepsTimerDiscipline_trans discipline_leaf.
Qed.

Lemma forAwait_discipline robot evs fail :
  steps keepsTimerDiscipline (forAwait env robot evs fail).
Proof.
  induction evs as [| event rest IH]; simpl.
  - stepwise keepsTimerDiscipline_refl keepsTimerDiscipline_trans discipline_leaf.
  - stepwise keepsTimerDiscipline_refl keepsTimerDiscipline_trans
      ltac:(first [ exact IH | apply processEvent_discipline | discipline_leaf ]).
Qed.

Lemma streamLoop_discipline robot stream :
  steps keepsTimerDiscipline (streamLoop env robot stream).
Proof.
  unfold streamLoop, cleanup.
  stepwise keepsTimerDiscipline_refl keepsTimerDiscipline_trans
    ltac:(first [ apply forAwait_discipline | discipline_leaf ]).
Qed.

Lemma bot_final_discipline : steps keepsTimerDiscipline (DialogBot.finalResponse env).
Proof.
  unfold DialogBot.finalResponse, DialogBot.displayArtifacts, DialogBot.displayPart.
  stepwise keepsTimerDiscipline_refl keepsTimerDiscipline_trans discipline_leaf.
Qed.

Lemma dialog_final_discipline : steps keepsTimerDiscipline (MainDialog.finalResponse env).
Proof.
  unfold MainDialog.finalResponse, MainDialog.displayTaskArtifacts, MainDialog.displayPart.
  stepwise keepsTimerDiscipline_refl keepsTimerDiscipline_trans discipline_leaf.
Qed.

Lemma bot_fallback_discipline client p :
  steps keepsTimerDiscipline (DialogBot.handleRegularResponse env client p).
Proof.
  unfold DialogBot.handleRegularResponse, DialogBot.displayArtifacts, DialogBot.displayPart.
  stepwise keepsTimerDiscipline_refl keepsTimerDiscipline_trans discipline_leaf.
Qed.

Lemma dialog_fallback_discipline client p :
  steps keepsTimerDiscipline (MainDialog.handleRegularResponse env client p).
Proof.
  unfold MainDialog.handleRegularResponse, MainDialog.displayTaskArtifacts,
    MainDialog.displayPart.
  stepwise keepsTimerDiscipline_refl keepsTimerDiscipline_trans discipline_leaf.
Qed.

(** From the start of a turn, whatever the final response and the
    fallback are, as long as they keep the discipline. *)
Lemma streaming_quiet robot (final fallback : M unit) client p ts saved :
  steps keepsTimerDiscipline final ->
  steps keepsTimerDiscipline fallback ->
  quietAfterClear
    (trace (exec (try_catch (consumeStream env robot client p ;; final)
                            (fun _ => fallback))
                 (startOfTurn ts saved))) = true.
Proof.
  intros Hfinal Hfallback. unfold exec. rewrite run_streaming.
  destruct (sendOutcome env (awaits (startOfTurn ts saved))) as [msg |].
  - apply (Hfallback (notStarted env (startOfTurn ts saved))).
    split; [reflexivity | discriminate].
  - assert (Hrest : steps keepsTimerDiscipline
               (try_catch (streamLoop env robot (sendMessageStream client p) ;; final)
                          (fun _ => fallback))).
    { stepwise keepsTimerDiscipline_refl keepsTimerDiscipline_trans
        ltac:(first [ exact Hfinal | exact Hfallback | apply streamLoop_discipline ]). }
    apply (Hrest (started env p (startOfTurn ts saved))).
    split; [reflexivity |]. simpl. intros _ [H | [H | []]]; discriminate H.
Qed.

End DisciplinedRun.

(** C4, as the code has it: a status update whose state is [completed]
    stops the typing timer before anything else is done for it: the first
    call its processing records is [ClearInterval], what follows (the
    forced update, if any) contains no typing indicator of the timer, and
    the timer is off and [isCompleted] set afterwards.  And in a whole run
    of [handleStreamingResponse] from the start of a turn, fallback
    included, the timer sends no typing indicator after the first
    [ClearInterval].  A status update with any other state, [failed] and
    [canceled] included, leaves the timer and [isCompleted] as they are and
    records no call. *)
Theorem completed_status_stops_typing_timer env robot client p note ts saved s :
  (let s' := exec (processEvent env robot (StatusUpdate (mkStatus "completed" note))) s in
   exists tail,
     trace s' = trace s ++ ClearInterval :: tail /\
     timerTypings tail = 0 /\
     typingInterval s' = false /\
     isCompleted (locals s') = true) /\
  (forall st,
     let s' := exec (processEvent env robot (StatusUpdate st)) s in
     if String.eqb (state st) "completed" then typingInterval s' = false
     else typingInterval s' = typingInterval s /\
          isCompleted (locals s') = isCompleted (locals s) /\
          trace s' = trace s) /\
  quietAfterClear
    (trace (exec (DialogBot.handleStreamingResponse env client p) (startOfTurn ts saved)))
  = true /\
  quietAfterClear
    (trace (exec (MainDialog.handleStreamingResponse env client p) (startOfTurn ts saved)))
  = true.
Proof.
  split; [| split; [| split]].
  - unfold exec. rewrite run_processEvent.
    unfold onStatusUpdate, bind, modifyLocals, getLocals, when. simpl.
    destruct (currentTask (locals s)); simpl;
      destruct (messageActivity (locals s)) as [h |]; simpl;
      try (exists []; now repeat split);
      destruct (accumulatedText (locals s)); simpl;
      try (exists []; now repeat split);
      rewrite run_swallow_update; simpl;
      rewrite noise_off by reflexivity;
      (eexists; split; [rewrite <- app_assoc; reflexivity | now repeat split]).
  - intros st. cbv zeta. unfold exec. rewrite run_processEvent.
    unfold onStatusUpdate, bind, modifyLocals, getLocals, when. simpl.
    destruct (String.eqb (state st) "completed"); simpl.
    + destruct (currentTask (locals s)); simpl;
        destruct (messageActivity (locals s)) as [h |]; simpl; try reflexivity;
        destruct (accumulatedText (locals s)); simpl; try reflexivity;
        now rewrite run_swallow_update.
    + destruct (currentTask (locals s)); now repeat split.
  - apply streaming_quiet; [apply bot_final_discipline | apply bot_fallback_discipline].
  - apply streaming_quiet; [apply dialog_final_discipline | apply dialog_fallback_discipline].
Qed.

(** C4 as stated fails for the terminal states other than [completed].
    The timer below fires once, during suspension point 2.  When the
    status update has been processed two points (0 and 1) have passed,
    nothing was cleared and the timer is still set; the typing indicator
    of the timer follows, while the loop waits for the next event. *)
Lemma failed_status_leaves_timer_running :
  let env := tickingAt 2 in
  let halted st := StatusUpdate (mkStatus st None) in
  let seen st := exec (suspend env ;; processEvent env DialogBot.robot (halted st))
                      (started env hello fresh) in
  let run st := trace (exec (DialogBot.handleStreamingResponse env
                               (agent [halted st; Other "late"] None (Throw "unused"))
                               hello) fresh) in
  (awaits (seen "failed") = 2 /\
   trace (seen "failed") = [Typing; OpenStream hello] /\
   typingInterval (seen "failed") = true /\
   isCompleted (locals (seen "failed")) = false) /\
  run "failed" = [Typing; OpenStream hello; TimerTyping; ClearInterval] /\
  run "canceled" = [Typing; OpenStream hello; TimerTyping; ClearInterval].
Proof. repeat split; reflexivity. Qed.

(** ** C7: a stream that fails *)

Lemma run_after_typing env {A} (k : M A) s :
  (sendTyping env ;; k) s =
  match sendOutcome env (awaits s) with
  | Some msg => (Throw msg, notStarted env s)
  | None => k (notStarted env s)
  end.
Proof.
  unfold bind. rewrite run_sendTyping.
  destruct (sendOutcome env (awaits s)); reflexivity.
Qed.

Lemma run_after_record {A} c (k : M A) s :
  (record c ;; k) s = k (set_trace (trace s ++ [c]) s).
Proof. reflexivity. Qed.

Lemma noRequest_refl s : noRequest s s.
Proof. now split. Qed.

Lemma noRequest_trans s1 s2 s3 : noRequest s1 s2 -> noRequest s2 s3 -> noRequest s1 s3.
Proof. unfold noRequest. intros [] []. split; congruence. Qed.

Section Requests.
Variable env : Env.

Lemma suspend_noRequest : steps noRequest (suspend env).
Proof. intros s. rewrite exec_suspend. unfold noRequest. simpl. counting. lia. Qed.

Lemma record_noRequest c :
  isOpenStream c = false -> isSendMessage c = false -> steps noRequest (record c).
Proof.
  intros H1 H2 s. unfold noRequest, exec. simpl. counting. rewrite H1, H2. lia.
Qed.

Ltac request_leaf :=
  first [ apply suspend_noRequest
        | apply record_noRequest; reflexivity ].

Lemma sendText_noRequest text : steps noRequest (sendText env text).
Proof.
  unfold sendText, sendActivity. stepwise noRequest_refl noRequest_trans request_leaf.
Qed.

Lemma streamLoop_noRequest robot stream : steps noRequest (streamLoop env robot stream).
Proof.
  unfold streamLoop, cleanup, clearInterval.
  assert (Hevent : forall event, steps noRequest (processEvent env robot event)).
  { intros event.
    unfold processEvent, onMessage, onTask, onStatusUpdate, onArtifactUpdate,
      collectPart, contribute, clearInterval, sendActivity, updateActivity.
    stepwise noRequest_refl noRequest_trans request_leaf. }
  assert (Hloop : steps noRequest (forAwait env robot (events stream) (failure stream))).
  { induction (events stream) as [| event rest IH]; simpl;
      stepwise noRequest_refl noRequest_trans
        ltac:(first [ exact IH | apply Hevent | request_leaf ]). }
  stepwise noRequest_refl noRequest_trans ltac:(first [ exact Hloop | request_leaf ]).
Qed.

(** The fallback asks the agent at most once, and opens no stream. *)
Lemma bot_fallback_one_request client p s :
  let s' := exec (DialogBot.handleRegularResponse env client p) s in
  count isOpenStream (trace s') = count isOpenStream (trace s) /\
  count isSendMessage (trace s') <= count isSendMessage (trace s) + 1.
Proof.
  cbv zeta. unfold exec, DialogBot.handleRegularResponse.
  rewrite run_after_typing.
  destruct (sendOutcome env (awaits s)); simpl; [counting; lia |].
  rewrite run_after_record.
  match goal with
  | |- context [snd (?m ?s1)] =>
      assert (Hrest : steps noRequest m);
      [ | pose proof (Hrest s1) as [H1 H2]; unfold exec in H1, H2; simpl in *;
          counting_in H1; counting_in H2; lia ]
  end.
  unfold DialogBot.displayArtifacts, DialogBot.displayPart.
  stepwise noRequest_refl noRequest_trans
    ltac:(first [ apply sendText_noRequest | request_leaf ]).
Qed.

Lemma dialog_fallback_one_request client p s :
  let s' := exec (MainDialog.handleRegularResponse env client p) s in
  count isOpenStream (trace s') = count isOpenStream (trace s) /\
  count isSendMessage (trace s') <= count isSendMessage (trace s) + 1.
Proof.
  cbv zeta. unfold exec, MainDialog.handleRegularResponse.
  rewrite run_after_typing.
  destruct (sendOutcome env (awaits s)); simpl; [counting; lia |].
  rewrite run_after_record.
  match goal with
  | |- context [snd (?m ?s1)] =>
      assert (Hrest : steps noRequest m);
      [ | pose proof (Hrest s1) as [H1 H2]; unfold exec in H1, H2; simpl in *;
          counting_in H1; counting_in H2; lia ]
  end.
  unfold MainDialog.displayTaskArtifacts, MainDialog.displayPart.
  stepwise noRequest_refl noRequest_trans
    ltac:(first [ apply sendText_noRequest | request_leaf ]).
Qed.

End Requests.

(** ** C8: the two files side by side *)

Lemma twins_refl tr : Forall2 twin tr tr.
Proof. induction tr; constructor; [apply twin_same | assumption]. Qed.

Lemma sim_refl s : sim s s.
Proof. repeat split. apply twins_refl. Qed.

Section RelatedRules.

Lemma related_ret {A} (a : A) : related (ret a) (ret a).
Proof. intros s1 s2 H. now split. Qed.

Lemma related_throw {A} msg : related (@throw A msg) (@throw A msg).
Proof. intros s1 s2 H. now split. Qed.

Lemma related_bind {A B} (m1 m2 : M A) (f1 f2 : A -> M B) :
  related m1 m2 -> (forall a, related (f1 a) (f2 a)) ->
  related (bind m1 f1) (bind m2 f2).
Proof.
  intros Hm Hf s1 s2 Hsim. destruct (Hm s1 s2 Hsim) as [Hr Hs].
  unfold result, exec in *. unfold bind.
  destruct (m1 s1) as [[a1 | e1] t1], (m2 s2) as [[a2 | e2] t2];
    simpl in *; try discriminate Hr.
  - injection Hr as <-. apply (Hf a1 t1 t2 Hs).
  - injection Hr as <-. now split.
Qed.

Lemma related_try_catch {A} (m1 m2 : M A) h1 h2 :
  related m1 m2 -> (forall e, related (h1 e) (h2 e)) ->
  related (try_catch m1 h1) (try_catch m2 h2).
Proof.
  intros Hm Hh s1 s2 Hsim. destruct (Hm s1 s2 Hsim) as [Hr Hs].
  unfold result, exec in *. unfold try_catch.
  destruct (m1 s1) as [[a1 | e1] t1], (m2 s2) as [[a2 | e2] t2];
    simpl in *; try discriminate Hr.
  - now split.
  - injection Hr as <-. apply (Hh e1 t1 t2 Hs).
Qed.

Lemma related_try_finally {A} (m1 m2 : M A) c1 c2 :
  related m1 m2 -> related c1 c2 ->
  related (try_finally m1 c1) (try_finally m2 c2).
Proof.
  intros Hm Hc s1 s2 Hsim. destruct (Hm s1 s2 Hsim) as [Hr Hs].
  unfold result, exec in *. unfold try_finally.
  destruct (m1 s1) as [r1 t1], (m2 s2) as [r2 t2]. simpl in *.
  destruct (Hc t1 t2 Hs) as [Hr' Hs']. unfold result, exec in *.
  destruct (c1 t1) as [[u1 | e1] t1'], (c2 t2) as [[u2 | e2] t2'];
    simpl in *; try discriminate Hr'; try (injection Hr' as <-); now split.
Qed.

Lemma related_swallow m1 m2 : related m1 m2 -> related (swallow m1) (swallow m2).
Proof. intros H. apply related_try_catch; [exact H | intros e; apply related_ret]. Qed.

Lemma related_when b m1 m2 : related m1 m2 -> related (when b m1) (when b m2).
Proof. intros H. destruct b; [exact H | apply related_ret]. Qed.

Lemma related_forEach {A} (body1 body2 : A -> M unit) xs :
  (forall x, related (body1 x) (body2 x)) ->
  related (forEach body1 xs) (forEach body2 xs).
Proof.
  intros Hb. induction xs as [| x xs IH]; simpl.
  - apply related_ret.
  - apply related_bind; [apply Hb | intros _; exact IH].
Qed.

Lemma related_settle {A} o (a : A) : related (settle o a) (settle o a).
Proof. destruct o; [apply related_throw | apply related_ret]. Qed.

Lemma related_getLocals : related getLocals getLocals.
Proof. intros s1 s2 H. split; [| exact H]. unfold result. simpl. now destruct H as [-> _]. Qed.

Lemma related_modifyLocals f : related (modifyLocals f) (modifyLocals f).
Proof.
  intros s1 s2 (Hl & Ht & Ha & Hi & Hts & Hs). split; [reflexivity |].
  unfold exec. simpl. repeat split; simpl; congruence.
Qed.

Lemma related_armInterval b : related (armInterval b) (armInterval b).
Proof.
  intros s1 s2 (Hl & Ht & Ha & Hi & Hts & Hs). split; [reflexivity |].
  unfold exec. simpl. repeat split; simpl; congruence.
Qed.

Lemma related_record c1 c2 : twin c1 c2 -> related (record c1) (record c2).
Proof.
  intros Hc s1 s2 (Hl & Ht & Ha & Hi & Hts & Hs). split; [reflexivity |].
  unfold exec. simpl. repeat split; simpl; try congruence.
  apply Forall2_app; [exact Ht | now constructor].
Qed.

Lemma related_suspend env : related (suspend env) (suspend env).
Proof.
  intros s1 s2 (Hl & Ht & Ha & Hi & Hts & Hs).
  split; [unfold result; simpl; congruence |].
  rewrite !exec_suspend. repeat split; simpl; try congruence.
  apply Forall2_app; [exact Ht |].
  unfold noise. rewrite Hl, Hi, Ha. apply twins_refl.
Qed.

End RelatedRules.

Ltac alike leaf :=
  repeat first
    [ solve [ leaf ]
    | apply related_ret
    | apply related_throw
    | apply related_getLocals
    | apply related_modifyLocals
    | apply related_armInterval
    | apply related_suspend
    | apply related_settle
    | apply related_record; apply twin_same
    | apply related_bind; [ | intros ? ]
    | apply related_try_catch; [ | intros ? ]
    | apply related_try_finally
    | apply related_swallow
    | apply related_when
    | apply related_forEach; intros ?
    | match goal with
      | |- related (match ?x with _ => _ end) _ => destruct x
      | |- related (if ?b then _ else _) _ => destruct b
      end ].

Section SideBySide.
Variable env : Env.

Lemma related_sendActivity t1 t2 :
  twin (Send t1) (Send t2) -> related (sendActivity env t1) (sendActivity env t2).
Proof.
  intros Htwin. unfold sendActivity.
  apply related_bind; [now apply related_record | intros _]. alike fail.
Qed.

Lemma related_sendText t1 t2 :
  twin (Send t1) (Send t2) -> related (sendText env t1) (sendText env t2).
Proof.
  intros Htwin. unfold sendText.
  apply related_bind; [now apply related_sendActivity | intros _]. apply related_ret.
Qed.

Lemma related_updateActivity h t1 t2 :
  twin (Update h t1) (Update h t2) ->
  related (updateActivity env h t1) (updateActivity env h t2).
Proof.
  intros Htwin. unfold updateActivity.
  apply related_bind; [now apply related_record | intros _]. alike fail.
Qed.

Lemma related_sendTyping : related (sendTyping env) (sendTyping env).
Proof. unfold sendTyping. alike fail. Qed.

(** The line that both texts print. *)
Ltac same_line :=
  first [ apply (twin_send (AgentText _))
        | apply (twin_update _ (AgentText _))
        | apply (twin_send (FallbackTask _ _))
        | apply (twin_send (FinalTask _ _))
        | apply (twin_send (ArtifactName _))
        | apply (twin_send (TextOfPart _))
        | apply (twin_send (FileOfPart _))
        | apply (twin_send (StatusMessage _))
        | apply (twin_send (WillNotify _))
        | apply (twin_send NoResponse) ].

Ltac text_leaf :=
  first [ apply related_sendText; same_line
        | apply related_sendActivity; same_line
        | apply related_updateActivity; same_line
        | apply related_sendTyping ].

Lemma related_processEvent event :
  related (processEvent env DialogBot.robot event) (processEvent env MainDialog.robot event).
Proof.
  unfold processEvent, onMessage, onTask, onStatusUpdate, onArtifactUpdate,
    collectPart, contribute, clearInterval, rendered.
  alike text_leaf.
Qed.

Lemma related_forAwait evs fail :
  related (forAwait env DialogBot.robot evs fail) (forAwait env MainDialog.robot evs fail).
Proof.
  induction evs as [| event rest IH]; simpl.
  - alike text_leaf.
  - alike ltac:(first [ exact IH | apply related_processEvent ]).
Qed.

Lemma related_streamLoop stream :
  related (streamLoop env DialogBot.robot stream) (streamLoop env MainDialog.robot stream).
Proof.
  unfold streamLoop, cleanup, clearInterval.
  alike ltac:(apply related_forAwait).
Qed.

Lemma related_consumeStream client p :
  related (consumeStream env DialogBot.robot client p)
          (consumeStream env MainDialog.robot client p).
Proof.
  unfold consumeStream, startStreaming, setInterval.
  alike ltac:(first [ apply related_streamLoop | text_leaf ]).
Qed.

Lemma related_finalResponse :
  related (DialogBot.finalResponse env) (MainDialog.finalResponse env).
Proof.
  unfold DialogBot.finalResponse, MainDialog.finalResponse,
    DialogBot.displayArtifacts, MainDialog.displayTaskArtifacts,
    DialogBot.displayPart, MainDialog.displayPart, rendered.
  alike text_leaf.
Qed.

Lemma related_handleRegularResponse client p :
  related (DialogBot.handleRegularResponse env client p)
          (MainDialog.handleRegularResponse env client p).
Proof.
  unfold DialogBot.handleRegularResponse, MainDialog.handleRegularResponse,
    DialogBot.displayArtifacts, MainDialog.displayTaskArtifacts,
    DialogBot.displayPart, MainDialog.displayPart.
  alike text_leaf.
Qed.

Lemma related_handleStreamingResponse client p :
  related (DialogBot.handleStreamingResponse env client p)
          (MainDialog.handleStreamingResponse env client p).
Proof.
  unfold DialogBot.handleStreamingResponse, MainDialog.handleStreamingResponse.
  alike ltac:(first [ apply related_consumeStream | apply related_finalResponse
                    | apply related_handleRegularResponse ]).
Qed.

End SideBySide.

(** C8, as the code has it: from the same state and in the same
    surroundings the two [handleStreamingResponse] routines end alike
    (both return, or both throw the same message), with the same locals,
    suspension count, timer flag and session, and having issued call for
    call the same calls in the same order: the same typing indicators
    and requests, and messages created and updated with the same
    handles and the same lines.  A line is printed by each file with its
    own labels, and in nothing else do the texts differ: the bytes of
    the glyph, the punctuation of the task line of the fallback, the
    bold markers around the name of an artifact, and the placeholder
    for a file without a name ([botLine] and [dialogLine]). *)
Theorem implementations_agree_up_to_labels env client p s :
  result (DialogBot.handleStreamingResponse env client p) s
  = result (MainDialog.handleStreamingResponse env client p) s /\
  sim (exec (DialogBot.handleStreamingResponse env client p) s)
      (exec (MainDialog.handleStreamingResponse env client p) s).
Proof. apply related_handleStreamingResponse. apply sim_refl. Qed.

(** C8 as stated fails: the texts are not the same.  For a task with a
    named artifact that holds a file without a name, the dialog sets the
    artifact name in bold and names the file [unnamed file] where the bot
    prints the bare name and [unnamed]; and the synchronous fallback
    renders the task line with other punctuation. *)
Lemma artifact_lines_differ :
  let report := mkArtifact "a1" (Some "report") (Some [FilePart None]) in
  let task := TaskEvent (mkTask "t1" working (Some [report])) in
  let streamed := agent [task] None (Throw "unused") in
  let answered := agent [] (Some "connection reset") (Ok (RpcResult task)) in
  trace (exec (DialogBot.handleStreamingResponse calm streamed hello) fresh)
  = [Typing; OpenStream hello; ClearInterval;
     Send (DialogBot.target +++ " Task t1: working");
     Send (DialogBot.paperclip +++ " report");
     Send (DialogBot.folder +++ " File: unnamed")] /\
  trace (exec (MainDialog.handleStreamingResponse calm streamed hello) fresh)
  = [Typing; OpenStream hello; ClearInterval;
     Send (MainDialog.target +++ " Task t1: working");
     Send (MainDialog.paperclip +++ " **report**");
     Send (MainDialog.folder +++ " File: unnamed file")] /\
  nth 5 (trace (exec (DialogBot.handleStreamingResponse calm answered hello) fresh)) Next
  = Send (DialogBot.target +++ " Task: t1 (working)") /\
  nth 5 (trace (exec (MainDialog.handleStreamingResponse calm answered hello) fresh)) Next
  = Send (MainDialog.target +++ " Task: t1 - working") /\
  trace (exec (DialogBot.handleStreamingResponse calm streamed hello) fresh)
  <> trace (exec (MainDialog.handleStreamingResponse calm streamed hello) fresh).
Proof.
  repeat split; try reflexivity.
  intros H. vm_compute in H. discriminate H.
Qed.

(** ** The callers of [handleStreamingResponse] *)

Section Callers.
Variable env : Env.

Lemma bot_handleMessage_on_failure activityText uuid client s msg s1 :
  routed activityText client s ->
  DialogBot.handleStreamingResponse env client (mkParams uuid activityText) s = (Throw msg, s1) ->
  DialogBot.handleMessage env activityText uuid s =
  if DialogBot.isAuthError msg
  then botSignsIn env (set_turnState (DialogBot.clearAuth (turnState s1)) s1)
  else botReports env msg s1.
Proof.
  intros (Hcmd & Htoken & Hclient) Hrun.
  unfold DialogBot.handleMessage, DialogBot.routeOrFallThrough.
  unfold bind at 1. unfold bind at 1. unfold getTurnState at 1.
  rewrite Hclient, Hcmd, Htoken. simpl.
  unfold try_catch at 1. unfold bind at 1.
  unfold DialogBot.routeToA2AAgent, try_catch at 1. rewrite Hrun.
  destruct (DialogBot.isAuthError msg) eqn:Eauth; simpl.
  - reflexivity.
  - rewrite Eauth. unfold botReports, bind.
    destruct (sendText env _ s1) as [[[] | e] s2]; reflexivity.
Qed.

Lemma dialog_handleQueryResponse_on_failure userText uuid client s msg s1 :
  String.eqb (JS.toLowerCase userText) "exit" = false ->
  a2aClient (turnState s) = Some client ->
  MainDialog.handleStreamingResponse env client (mkParams uuid (Some userText)) s
    = (Throw msg, s1) ->
  MainDialog.handleQueryResponse env userText uuid s = dialogReports env msg s1.
Proof.
  intros Hexit Hclient Hrun.
  unfold MainDialog.handleQueryResponse. rewrite Hexit.
  unfold bind at 1. unfold getTurnState at 1. rewrite Hclient.
  unfold try_catch at 1. unfold bind at 1.
  unfold MainDialog.sendMessageWithPolling, try_catch at 1. rewrite Hrun.
  reflexivity.
Qed.

End Callers.

Lemma streaming_falls_back env robot (final : M unit) (fallback : SendParams -> M unit)
    client p s e :
  sendOutcome env (awaits s) = None ->
  result (streamLoop env robot (sendMessageStream client p)) (started env p s) = Throw e ->
  (forall s1,
     count isOpenStream (trace (exec (fallback p) s1)) = count isOpenStream (trace s1) /\
     count isSendMessage (trace (exec (fallback p) s1)) <= count isSendMessage (trace s1) + 1) ->
  fallsBackOnce env robot
    (try_catch (consumeStream env robot client p ;; final) (fun _ => fallback p))
    fallback client p s.
Proof.
  intros Hstart Hthrow Hfallback. unfold fallsBackOnce.
  pose proof (streamLoop_noRequest env robot (sendMessageStream client p) (started env p s))
    as [Hopen Hsent].
  pose proof (streamLoop_off env robot (sendMessageStream client p) (started env p s)) as Hoff.
  assert (Hlast : exists tr,
             trace (exec (streamLoop env robot (sendMessageStream client p)) (started env p s))
             = tr ++ [ClearInterval]).
  { unfold exec. rewrite run_streamLoop. simpl. eauto. }
  assert (Hrun : try_catch (consumeStream env robot client p ;; final) (fun _ => fallback p) s
                 = fallback p (exec (streamLoop env robot (sendMessageStream client p))
                                    (started env p s))).
  { rewrite run_streaming, Hstart. unfold try_catch, bind.
    unfold result in Hthrow. unfold exec.
    destruct (streamLoop env robot (sendMessageStream client p) (started env p s))
      as [r s1]. simpl in Hthrow. now subst r. }
  repeat split; auto.
  - unfold exec at 1. rewrite Hrun.
    destruct (Hfallback (exec (streamLoop env robot (sendMessageStream client p))
                              (started env p s))) as [H1 _].
    unfold exec in H1 at 1. rewrite H1, Hopen. simpl. counting. lia.
  - unfold exec at 1. rewrite Hrun.
    destruct (Hfallback (exec (streamLoop env robot (sendMessageStream client p))
                              (started env p s))) as [_ H2].
    unfold exec in H2 at 1. simpl in Hsent. counting_in Hsent. lia.
Qed.

(** C7, as the code has it: once the stream is open, an exception raised
    while it is consumed ends the loop with the timer cleared and makes
    the run one run of the synchronous fallback with the same parameters:
    the stream is opened once, [sendMessage] is called at most once, and
    the run ends as the fallback ends.  When the fallback fails too, the
    failure reaches the caller: the dialog reports it to the user and ends
    the dialog; the bot reports it to the user, unless its message names
    401 or Unauthorized, in which case it reports nothing, clears the
    session of the turn and runs the sign-in dialog. *)
Theorem stream_failure_falls_back_once env client p s e :
  sendOutcome env (awaits s) = None ->
  result (streamLoop env DialogBot.robot (sendMessageStream client p)) (started env p s)
    = Throw e ->
  fallsBackOnce env DialogBot.robot (DialogBot.handleStreamingResponse env client p)
    (DialogBot.handleRegularResponse env client) client p s /\
  fallsBackOnce env MainDialog.robot (MainDialog.handleStreamingResponse env client p)
    (MainDialog.handleRegularResponse env client) client p s /\
  (forall msg,
     result (DialogBot.handleStreamingResponse env client p) s = Throw msg ->
     (routed (userMessage p) client s ->
      DialogBot.handleMessage env (userMessage p) (messageId p) s =
      if DialogBot.isAuthError msg
      then botSignsIn env
             (set_turnState
                (DialogBot.clearAuth
                   (turnState (exec (DialogBot.handleStreamingResponse env client p) s)))
                (exec (DialogBot.handleStreamingResponse env client p) s))
      else botReports env msg (exec (DialogBot.handleStreamingResponse env client p) s)) /\
     (forall userText,
        userMessage p = Some userText ->
        String.eqb (JS.toLowerCase userText) "exit" = false ->
        a2aClient (turnState s) = Some client ->
        MainDialog.handleQueryResponse env userText (messageId p) s =
        dialogReports env msg (exec (MainDialog.handleStreamingResponse env client p) s))).
Proof.
  intros Hstart Hthrow. split; [| split].
  - apply (streaming_falls_back env DialogBot.robot (DialogBot.finalResponse env)
             (DialogBot.handleRegularResponse env client) client p s e Hstart Hthrow).
    intros s1. apply bot_fallback_one_request.
  - assert (Hthrow' : result (streamLoop env MainDialog.robot (sendMessageStream client p))
                             (started env p s) = Throw e).
    { rewrite <- Hthrow. symmetry.
      apply (related_streamLoop env). apply sim_refl. }
    apply (streaming_falls_back env MainDialog.robot (MainDialog.finalResponse env)
             (MainDialog.handleRegularResponse env client) client p s e Hstart Hthrow').
    intros s1. apply dialog_fallback_one_request.
  - intros msg Hfail. destruct p as [uuid text]. simpl. split.
    + intros Hrouted. apply (bot_handleMessage_on_failure env text uuid client);
        [exact Hrouted |].
      rewrite (run_eta (DialogBot.handleStreamingResponse env client (mkParams uuid text)) s).
      now rewrite Hfail.
    + intros userText -> Hexit Hclient.
      apply (dialog_handleQueryResponse_on_failure env userText uuid client); auto.
      rewrite (run_eta (MainDialog.handleStreamingResponse env client
                          (mkParams uuid (Some userText))) s).
      f_equal. rewrite <- Hfail. symmetry.
      apply (related_handleStreamingResponse env client). apply sim_refl.
Qed.

Lemma stream_failure_falls_back_once_witness :
  let client := agent [Message (Some [TextPart "partial"])] (Some "connection reset")
                      (Throw "gateway timeout") in
  fallsBackOnce calm DialogBot.robot (DialogBot.handleStreamingResponse calm client hello)
    (DialogBot.handleRegularResponse calm client) client hello (signedIn client false) /\
  fallsBackOnce calm MainDialog.robot (MainDialog.handleStreamingResponse calm client hello)
    (MainDialog.handleRegularResponse calm client) client hello (signedIn client false).
Proof.
  pose (client := agent [Message (Some [TextPart "partial"])] (Some "connection reset")
                        (Throw "gateway timeout")).
  destruct (stream_failure_falls_back_once calm client hello (signedIn client false)
              "connection reset" eq_refl eq_refl) as [Hbot [Hdialog _]].
  exact (conj Hbot Hdialog).
Defined.

(** C7 as stated fails in its last part.  The stream breaks, the
    fallback is refused with 401, and the bot shows the user nothing: no
    call of the turn carries a text.  It clears the session of the turn
    and runs the dialog instead. *)
Lemma unauthorized_fallback_is_not_reported :
  let client := agent [] (Some "connection reset") (Throw "401 Unauthorized") in
  let s' := exec (DialogBot.handleMessage calm (Some "hi") "m-1") (signedIn client false) in
  trace s' = [Typing; OpenStream hello; ClearInterval; Typing; SendMessage hello;
              RunDialog; Next] /\
  sends (trace s') = 0 /\
  accessToken (turnState s') = None.
Proof. repeat split; reflexivity. Qed.

(** ** C2: the session after a failure *)

Lemma sameSession_refl s : sameSession s s.
Proof. now split. Qed.

Lemma sameSession_trans s1 s2 s3 :
  sameSession s1 s2 -> sameSession s2 s3 -> sameSession s1 s3.
Proof. unfold sameSession. intros [] []. split; congruence. Qed.

Section Session.
Variable env : Env.

Lemma suspend_sameSession : steps sameSession (suspend env).
Proof. intros s. rewrite exec_suspend. now split. Qed.

Ltac session_leaf := apply suspend_sameSession.

Lemma sendText_sameSession text : steps sameSession (sendText env text).
Proof.
  unfold sendText, sendActivity. stepwise sameSession_refl sameSession_trans session_leaf.
Qed.

Lemma bot_streaming_sameSession client p :
  steps sameSession (DialogBot.handleStreamingResponse env client p).
Proof.
  assert (Hevent : forall event, steps sameSession (processEvent env DialogBot.robot event)).
  { intros event.
    unfold processEvent, onMessage, onTask, onStatusUpdate, onArtifactUpdate,
      collectPart, contribute, clearInterval, sendActivity, updateActivity.
    stepwise sameSession_refl sameSession_trans session_leaf. }
  assert (Hloop : forall evs fail, steps sameSession (forAwait env DialogBot.robot evs fail)).
  { induction evs as [| event rest IH]; intros fail; simpl;
      stepwise sameSession_refl sameSession_trans
        ltac:(first [ apply IH | apply Hevent | session_leaf ]). }
  unfold DialogBot.handleStreamingResponse, consumeStream, startStreaming, streamLoop,
    cleanup, clearInterval, setInterval, sendTyping,
    DialogBot.finalResponse, DialogBot.handleRegularResponse,
    DialogBot.displayArtifacts, DialogBot.displayPart, updateActivity.
  stepwise sameSession_refl sameSession_trans
    ltac:(first [ apply Hloop | apply sendText_sameSession | session_leaf ]).
Qed.

Lemma botReports_sameSession msg : steps sameSession (botReports env msg).
Proof.
  unfold botReports.
  stepwise sameSession_refl sameSession_trans ltac:(apply sendText_sameSession).
Qed.

(** [persistA2AState] never erases the persisted copy, and
    [restoreA2AState] does not write it. *)
Lemma persist_keeps s :
  persistedKept (a2aState s) (a2aState (exec (MainDialog.persistA2AState) s)).
Proof.
  unfold exec, MainDialog.persistA2AState, swallow, try_catch, bind, getTurnState, when,
    putA2AState, persistedKept.
  simpl. destruct (conversationState (turnState s)); simpl; [| now left].
  destruct (JS.truthy (accessToken (turnState s))) eqn:E1; simpl; [| now left].
  destruct (JS.truthy (a2aServerUrl (turnState s))) eqn:E2; simpl; [| now left].
  right. now split.
Qed.

Lemma restore_keeps s :
  a2aState (exec (MainDialog.restoreA2AState env) s) = a2aState s.
Proof.
  assert (Hrefl : forall s0, samePersisted s0 s0) by reflexivity.
  assert (Htrans : forall s1 s2 s3,
             samePersisted s1 s2 -> samePersisted s2 s3 -> samePersisted s1 s3)
    by (unfold samePersisted; congruence).
  assert (H : steps samePersisted (MainDialog.restoreA2AState env)).
  { unfold MainDialog.restoreA2AState.
    stepwise Hrefl Htrans
      ltac:(first [ intros ?; rewrite exec_suspend; reflexivity
                  | intros ?; reflexivity ]). }
  apply H.
Qed.

End Session.

(** C2, as the code has it.  A routed user message whose handling fails
    (that is, whose synchronous fallback fails: a failure of the stream
    alone is absorbed by the fallback) leaves the session, in the turn
    and as persisted, as it was up to the router's [catch].  When the
    message of the failure names 401 or Unauthorized, the router clears
    the token and the client of the turn and runs the dialog within the
    same turn; it does not touch the persisted copy, which
    [persistA2AState] never erases and [restoreA2AState] never writes.
    For any other failure the router reports the error to the user, calls
    [next()], does not run the dialog, and leaves the session as it was. *)
Theorem auth_failure_clears_turn_session env activityText uuid client s msg :
  routed activityText client s ->
  result (DialogBot.handleStreamingResponse env client (mkParams uuid activityText)) s
    = Throw msg ->
  let s1 := exec (DialogBot.handleStreamingResponse env client (mkParams uuid activityText)) s in
  sameSession s s1 /\
  (DialogBot.isAuthError msg = true ->
   let cleared := set_turnState (DialogBot.clearAuth (turnState s1)) s1 in
   accessToken (turnState cleared) = None /\
   a2aClient (turnState cleared) = None /\
   a2aState cleared = a2aState s /\
   DialogBot.handleMessage env activityText uuid s = botSignsIn env cleared) /\
  (DialogBot.isAuthError msg = false ->
   DialogBot.handleMessage env activityText uuid s = botReports env msg s1 /\
   sameSession s (exec (DialogBot.handleMessage env activityText uuid) s)) /\
  (forall s0,
     persistedKept (a2aState s0) (a2aState (exec (MainDialog.persistA2AState) s0)) /\
     a2aState (exec (MainDialog.restoreA2AState env) s0) = a2aState s0).
Proof.
  intros Hrouted Hfail. cbv zeta.
  pose proof (bot_streaming_sameSession env client (mkParams uuid activityText) s) as Hsame.
  assert (Hrun : DialogBot.handleStreamingResponse env client (mkParams uuid activityText) s
                 = (Throw msg,
                    exec (DialogBot.handleStreamingResponse env client
                            (mkParams uuid activityText)) s)).
  { rewrite (run_eta (DialogBot.handleStreamingResponse env client
                        (mkParams uuid activityText)) s) at 1.
    now rewrite Hfail. }
  pose proof (bot_handleMessage_on_failure env activityText uuid client s msg _
                Hrouted Hrun) as Hmsg.
  split; [exact Hsame | split; [| split]].
  - intros Hauth. rewrite Hauth in Hmsg. repeat split; try exact Hmsg.
    simpl. apply Hsame.
  - intros Hplain. rewrite Hplain in Hmsg. split; [exact Hmsg |].
    unfold exec at 1. rewrite Hmsg.
    apply (sameSession_trans _ _ _ Hsame). apply botReports_sameSession.
  - intros s0. split; [apply persist_keeps | apply restore_keeps].
Qed.

Lemma auth_failure_clears_turn_session_witness :
  let client := agent [] (Some "connection reset") (Throw "401 Unauthorized") in
  let s := signedIn client false in
  let s1 := exec (DialogBot.handleStreamingResponse calm client hello) s in
  routed (Some "hi") client s /\
  sameSession s s1 /\
  DialogBot.handleMessage calm (Some "hi") "m-1" s
  = botSignsIn calm (set_turnState (DialogBot.clearAuth (turnState s1)) s1).
Proof.
  pose (client := agent [] (Some "connection reset") (Throw "401 Unauthorized")).
  assert (Hrouted : routed (Some "hi") client (signedIn client false))
    by (repeat split; reflexivity).
  destruct (auth_failure_clears_turn_session calm (Some "hi") "m-1" client
              (signedIn client false) "401 Unauthorized" Hrouted eq_refl)
    as [Hsame [Hauth _]].
  destruct (Hauth eq_refl) as (_ & _ & _ & Hrun).
  exact (conj Hrouted (conj Hsame Hrun)).
Defined.

(** C2 as stated fails twice.  First, the persisted copy is not cleared:
    after a 401 from the fallback the conversation state still holds the
    token, and the dialog run of the same turn restores token and client
    into the turn from it.  Second, a 401 seen while streaming is absorbed
    by the fallback: when the synchronous call then succeeds, nothing is
    cleared and no dialog is run. *)
Lemma persisted_session_survives_unauthorized :
  let refused := agent [] (Some "connection reset") (Throw "401 Unauthorized") in
  let absorbed := agent [] (Some "401 Unauthorized")
                        (Ok (RpcResult (Message (Some [TextPart "pong"])))) in
  let s' := exec (DialogBot.handleMessage (reachable refused) (Some "hi") "m-1")
                 (signedIn refused true) in
  let s'' := exec (DialogBot.handleMessage calm (Some "hi") "m-1")
                  (signedIn absorbed false) in
  (trace s' = [Typing; OpenStream hello; ClearInterval; Typing; SendMessage hello;
               RunDialog; Next] /\
   a2aState s' = mkSaved (Some "token") (Some "https://agent") /\
   accessToken (turnState s') = Some "token" /\
   a2aClient (turnState s') = Some refused) /\
  (trace s'' = [Typing; OpenStream hello; ClearInterval; Typing; SendMessage hello;
                Send (DialogBot.robot +++ " pong"); Next] /\
   accessToken (turnState s'') = Some "token" /\
   a2aClient (turnState s'') = Some absorbed).
Proof. repeat split; reflexivity. Qed.

(** * Further properties of the code *)

(** ** What a run shows, line by line *)

Lemma shownTexts_app a b : shownTexts (a ++ b) = shownTexts a ++ shownTexts b.
Proof. unfold shownTexts. apply flat_map_app. Qed.

Lemma shownTexts_noise env k s : shownTexts (noise env k s) = [].
Proof.
  unfold noise. destruct (_ && _); [| reflexivity].
  induction (ticks env k); simpl; auto.
Qed.

Lemma emits_ret {A} (a : A) : emits [] (ret a).
Proof. intros s. split; [now exists a | simpl; now rewrite app_nil_r]. Qed.

Lemma emits_bind {A B} t1 t2 (m : M A) (f : A -> M B) :
  emits t1 m -> (forall a, emits t2 (f a)) -> emits (t1 ++ t2) (bind m f).
Proof.
  intros Hm Hf s. destruct (Hm s) as [[a Ha] Ht].
  unfold result, exec in *. unfold bind.
  destruct (m s) as [r s'] eqn:E. simpl in *. subst r.
  destruct (Hf a s') as [Hr Ht']. split; [exact Hr |].
  unfold exec in Ht'. now rewrite Ht', Ht, app_assoc.
Qed.

Lemma emits_seq {A B} t (m : M A) (f : A -> M B) :
  emits [] m -> (forall a, emits t (f a)) -> emits t (bind m f).
Proof. intros Hm Hf. apply (emits_bind [] t); assumption. Qed.

Lemma emits_when (b : bool) t (m : M unit) :
  emits t m -> emits (if b then t else []) (when b m).
Proof. intros Hm. destruct b; [exact Hm | apply emits_ret]. Qed.

Lemma emits_forEach {A} (lines : A -> list string) (body : A -> M unit) xs :
  (forall x, emits (lines x) (body x)) -> emits (flat_map lines xs) (forEach body xs).
Proof.
  intros Hb. induction xs as [| x xs IH]; simpl.
  - apply emits_ret.
  - apply emits_bind; [apply Hb | intros _; exact IH].
Qed.

Lemma emits_record c : shown c = None -> emits [] (record c).
Proof.
  intros Hc s. split; [now exists tt |].
  unfold exec, record. simpl. rewrite shownTexts_app. simpl. now rewrite Hc.
Qed.

Section EmitCalls.
Variable env : Env.
Hypothesis surface_works : forall k, sendOutcome env k = None.

Lemma emits_suspend : emits [] (suspend env).
Proof.
  intros s. split; [now exists (awaits s) |].
  rewrite exec_suspend. simpl. now rewrite shownTexts_app, shownTexts_noise.
Qed.

Lemma emits_sendText text : emits [text] (sendText env text).
Proof.
  intros s. unfold result, exec. rewrite run_sendText, surface_works. simpl.
  split; [now exists tt |].
  rewrite shownTexts_app. simpl. now rewrite shownTexts_noise.
Qed.

Lemma emits_sendTyping : emits [] (sendTyping env).
Proof.
  intros s. unfold result, exec. rewrite run_sendTyping, surface_works. simpl.
  split; [now exists tt |].
  rewrite shownTexts_app. simpl. now rewrite shownTexts_noise.
Qed.

Lemma bot_displayPart_emits part :
  emits (botPartLines part) (DialogBot.displayPart env part).
Proof.
  unfold botPartLines, DialogBot.displayPart.
  destruct (String.eqb (part_kind part) "text"); [apply emits_sendText |].
  destruct (String.eqb (part_kind part) "file"); [apply emits_sendText | apply emits_ret].
Qed.

Lemma dialog_displayPart_emits part :
  emits (dialogPartLines part) (MainDialog.displayPart env part).
Proof.
  unfold dialogPartLines, MainDialog.displayPart.
  destruct (String.eqb (part_kind part) "text"); [apply emits_sendText |].
  destruct (String.eqb (part_kind part) "file"); [apply emits_sendText | apply emits_ret].
Qed.

Lemma bot_displayArtifacts_emits arts :
  emits (botArtifactLines arts) (DialogBot.displayArtifacts env arts).
Proof.
  unfold botArtifactLines, DialogBot.displayArtifacts.
  apply emits_forEach. intros artifact.
  apply (emits_bind [_]); [apply emits_sendText | intros _].
  destruct (art_parts artifact) as [parts |]; simpl.
  - apply emits_forEach. intros part. apply bot_displayPart_emits.
  - apply emits_ret.
Qed.

Lemma dialog_displayArtifacts_emits arts :
  emits (dialogArtifactLines arts) (MainDialog.displayTaskArtifacts env arts).
Proof.
  unfold dialogArtifactLines, MainDialog.displayTaskArtifacts.
  apply emits_forEach. intros artifact.
  apply (emits_bind [_]); [apply emits_sendText | intros _].
  destruct (art_parts artifact) as [parts |]; simpl.
  - apply emits_forEach. intros part. apply dialog_displayPart_emits.
  - apply emits_ret.
Qed.

Lemma bot_status_emits st :
  emits (botStatusLine st)
        (when (JS.truthy (message st))
              (sendText env (DialogBot.info +++ " " +++ JS.interpolate (message st)))).
Proof. unfold botStatusLine. apply emits_when, emits_sendText. Qed.

Lemma dialog_status_emits st :
  emits (dialogStatusLine st)
        (when (JS.truthy (message st))
              (sendText env (MainDialog.info +++ " " +++ JS.interpolate (message st)))).
Proof. unfold dialogStatusLine. apply emits_when, emits_sendText. Qed.

Lemma terminal_guard st :
  negb (String.eqb st "completed") && negb (String.eqb st "failed")
  && negb (String.eqb st "canceled") = negb (isTerminal st).
Proof.
  unfold isTerminal.
  destruct (String.eqb st "completed"), (String.eqb st "failed"),
           (String.eqb st "canceled"); reflexivity.
Qed.

Lemma bot_fallback_emits client p answer :
  sendMessage client p = Ok (RpcResult answer) ->
  readable answer = true ->
  emits (botAnswerLines answer) (DialogBot.handleRegularResponse env client p).
Proof.
  intros Hanswer Hreadable. unfold DialogBot.handleRegularResponse.
  apply emits_seq; [apply emits_sendTyping | intros _].
  apply emits_seq; [now apply emits_record | intros _].
  apply emits_seq; [apply emits_suspend | intros _].
  rewrite Hanswer.
  destruct answer as [[parts |] | t | st | a | kind]; simpl;
    try discriminate; try apply emits_ret.
  - apply emits_sendText.
  - apply (emits_bind [_]); [apply emits_sendText | intros _].
    apply emits_bind.
    { destruct (artifacts t) as [[| a rest] |]; simpl;
        [apply emits_ret | apply bot_displayArtifacts_emits | apply emits_ret]. }
    intros _. apply emits_bind; [apply bot_status_emits | intros _].
    rewrite terminal_guard.
    destruct (isTerminal (state (status t))); simpl; [apply emits_ret | apply emits_sendText].
Qed.

Lemma dialog_fallback_emits client p answer :
  sendMessage client p = Ok (RpcResult answer) ->
  readable answer = true ->
  emits (dialogAnswerLines answer) (MainDialog.handleRegularResponse env client p).
Proof.
  intros Hanswer Hreadable. unfold MainDialog.handleRegularResponse.
  apply emits_seq; [apply emits_sendTyping | intros _].
  apply emits_seq; [now apply emits_record | intros _].
  apply emits_seq; [apply emits_suspend | intros _].
  rewrite Hanswer.
  destruct answer as [[parts |] | t | st | a | kind]; simpl;
    try discriminate; try apply emits_ret.
  - apply emits_sendText.
  - apply (emits_bind [_]); [apply emits_sendText | intros _].
    apply emits_bind.
    { destruct (artifacts t) as [[| a rest] |]; simpl;
        [apply emits_ret | apply dialog_displayArtifacts_emits | apply emits_ret]. }
    intros _. apply emits_bind; [apply dialog_status_emits | intros _].
    rewrite terminal_guard.
    destruct (isTerminal (state (status t))); simpl; [apply emits_ret | apply emits_sendText].
Qed.

End EmitCalls.

(** ** The loop as a function of the events *)

Lemma agree_refl l : agree l l.
Proof. reflexivity. Qed.

Lemma agree_trans l1 l2 l3 : agree l1 l2 -> agree l2 l3 -> agree l1 l3.
Proof. unfold agree. congruence. Qed.

Lemma agree_fields l1 l2 :
  agree l1 l2 <->
  accumulatedText l1 = accumulatedText l2 /\
  option_map idAndStatus (currentTask l1) = option_map idAndStatus (currentTask l2) /\
  receivedEvents l1 = receivedEvents l2 /\
  lastArtifacts l1 = lastArtifacts l2 /\
  updateCount l1 = updateCount l2 /\
  isCompleted l1 = isCompleted l2.
Proof.
  unfold agree, viewed. destruct l1, l2. unfold set_messageActivity, set_currentTask.
  simpl. split.
  - intros H. injection H as -> Htask -> -> -> ->. repeat split. exact Htask.
  - intros (-> & -> & -> & -> & -> & ->). reflexivity.
Qed.

Lemma agree_messageActivity h l : agree (set_messageActivity h l) l.
Proof. now destruct l. Qed.

Lemma agree_counted t l1 l2 : agree l1 l2 -> agree (counted t l1) (counted t l2).
Proof.
  rewrite !agree_fields. unfold counted. destruct l1, l2. simpl.
  intros (-> & Htask & -> & -> & -> & ->). repeat split. exact Htask.
Qed.

Lemma agree_addTexts texts l1 l2 :
  agree l1 l2 -> agree (addTexts texts l1) (addTexts texts l2).
Proof.
  revert l1 l2. induction texts as [| t texts IH]; intros l1 l2 H; simpl.
  - exact H.
  - apply IH. now apply agree_counted.
Qed.

Lemma addTexts_app a b l : addTexts (a ++ b) l = addTexts b (addTexts a l).
Proof. unfold addTexts. apply fold_left_app. Qed.


Lemma agree_step (g : Locals -> Locals) :
  (forall l, g (viewed l) = viewed (g l)) ->
  forall l1 l2, agree l1 l2 -> agree (g l1) (g l2).
Proof.
  intros Hg l1 l2 H. unfold agree in *. now rewrite <- !Hg, H.
Qed.

Lemma agree_summarise event l1 l2 :
  agree l1 l2 -> agree (summarise event l1) (summarise event l2).
Proof.
  intros H. unfold summarise.
  assert (H' : agree (addTexts (contributions event) (set_receivedEvents true l1))
                     (addTexts (contributions event) (set_receivedEvents true l2))).
  { apply agree_addTexts. revert H. now apply agree_step. }
  revert H'.
  generalize (addTexts (contributions event) (set_receivedEvents true l1)) as r1.
  generalize (addTexts (contributions event) (set_receivedEvents true l2)) as r2.
  intros r2 r1 H'. cbv zeta.
  apply agree_fields in H'. destruct r1 as [a1 c1 e1 l1' m1 u1 d1], r2 as [a2 c2 e2 l2' m2 u2 d2].
  simpl in H'. destruct H' as (-> & Htask & -> & -> & -> & ->).
  destruct event as [parts | t | st | [a |] | kind]; simpl;
    repeat match goal with
           | |- context [match ?x with _ => _ end] => destruct x
           end;
    apply agree_fields; simpl; repeat split;
    solve [ exact Htask | discriminate Htask
          | simpl in Htask; injection Htask as Hid _; unfold idAndStatus; simpl; now rewrite Hid ].
Qed.

Lemma agree_summary evs l1 l2 :
  agree l1 l2 -> agree (summary evs l1) (summary evs l2).
Proof.
  revert l1 l2. induction evs as [| event rest IH]; intros l1 l2 H; simpl.
  - exact H.
  - apply IH. now apply agree_summarise.
Qed.

Section LoopSummary.
Variable env : Env.
Variable robot : string.

Lemma contribute_leaves t : leaves (counted t) (contribute env robot t).
Proof.
  intros s a s' Hrun.
  destruct (contribute_cases s) as [H | [[h [H1 H2]] | [h [H1 H2]]]].
  - rewrite (run_contribute_create env robot t s H) in Hrun.
    destruct (sendOutcome env (awaits s)); [discriminate Hrun |].
    injection Hrun as _ <-. simpl. apply agree_messageActivity.
  - rewrite (run_contribute_update env robot t s h H1 H2) in Hrun.
    injection Hrun as _ <-. apply agree_refl.
  - rewrite (run_contribute_skip env robot t s h H1 H2) in Hrun.
    injection Hrun as _ <-. apply agree_refl.
Qed.

Lemma collectParts_leaves parts :
  leaves (addTexts (partTexts parts)) (forEach (collectPart env robot) parts).
Proof.
  induction parts as [| part rest IH]; intros s a s' Hrun; simpl in *.
  - injection Hrun as _ <-. apply agree_refl.
  - unfold bind in Hrun.
    destruct (collectPart env robot part s) as [[[] | e] s1] eqn:E; [| discriminate Hrun].
    apply (agree_trans _ _ _ (IH _ _ _ Hrun)).
    unfold partTexts in *. simpl. rewrite addTexts_app. apply agree_addTexts.
    unfold collectPart in E.
    destruct (String.eqb (part_kind part) "text" && JS.truthy (part_text part)); simpl in *.
    + apply (contribute_leaves _ _ _ _ E).
    + injection E as <-. apply agree_refl.
Qed.

Lemma processEvent_leaves event : leaves (summarise event) (processEvent env robot event).
Proof.
  intros s a s' Hrun. rewrite run_processEvent in Hrun. unfold summarise.
  destruct event as [[[| first rest] |] | t | st | [artifact |] | kind]; simpl in *;
    try (injection Hrun as _ <-; apply agree_refl).
  - destruct (JS.truthy (part_text first)); simpl in *.
    + apply (contribute_leaves _ _ _ _ Hrun).
    + injection Hrun as _ <-. apply agree_refl.
  - unfold onTask, bind, modifyLocals in Hrun. simpl in Hrun.
    destruct (artifacts t) as [[| a0 rest] |]; injection Hrun as _ <-; apply agree_refl.
  - unfold onStatusUpdate, bind, modifyLocals, clearInterval, armInterval, record,
      getLocals in Hrun. simpl in Hrun.
    destruct (String.eqb (state st) "completed"); simpl in Hrun.
    + destruct (currentTask (locals s)); simpl in Hrun;
        (destruct (messageActivity (locals s)); simpl in Hrun;
         [ destruct (accumulatedText (locals s)); simpl in Hrun;
           [ | rewrite run_swallow_update in Hrun ] | ];
         injection Hrun as _ <-; apply agree_refl).
    + injection Hrun as _ <-. simpl. destruct (currentTask (locals s)); apply agree_refl.
  - unfold onArtifactUpdate in Hrun.
    destruct (art_parts artifact) as [parts |]; simpl in *.
    + unfold bind in Hrun.
      destruct (forEach (collectPart env robot) parts
                  (set_locals (set_receivedEvents true (locals s)) s))
        as [[[] | e] s1] eqn:E; [| discriminate Hrun].
      injection Hrun as _ <-. simpl.
      pose proof (collectParts_leaves _ _ _ _ E) as Hparts. simpl in Hparts.
      revert Hparts.
      generalize (addTexts (partTexts parts) (set_receivedEvents true (locals s))) as r.
      intros r Hparts.
      assert (Harts : lastArtifacts (locals s1) = lastArtifacts r)
        by (apply agree_fields in Hparts; tauto).
      rewrite <- Harts.
      generalize (lastArtifacts (locals s1) ++ [artifact]) as arts. intros arts.
      revert Hparts. now apply (agree_step (set_lastArtifacts arts)).
    + injection Hrun as _ <-. apply agree_refl.
Qed.

Lemma forAwait_leaves evs fail : leaves (summary evs) (forAwait env robot evs fail).
Proof.
  induction evs as [| event rest IH]; intros s a s' Hrun; simpl in Hrun.
  - unfold bind in Hrun. rewrite run_suspend in Hrun.
    destruct fail; [discriminate Hrun |]. injection Hrun as _ <-. apply agree_refl.
  - unfold bind in Hrun. rewrite run_suspend in Hrun.
    match type of Hrun with
    | context [processEvent env robot event ?s1] =>
        destruct (processEvent env robot event s1) as [[[] | e] s2] eqn:E;
        [| discriminate Hrun];
        pose proof (processEvent_leaves _ _ _ _ E) as Hevent
    end.
    simpl in Hevent.
    apply (agree_trans _ _ _ (IH _ _ _ Hrun)). simpl.
    now apply agree_summary.
Qed.

End LoopSummary.

Lemma append_assoc a b c : (a +++ b) +++ c = a +++ b +++ c.
Proof.
  induction a as [| ch a IH]; [reflexivity |].
  change (String ch ((a +++ b) +++ c) = String ch (a +++ b +++ c)). now rewrite IH.
Qed.

Lemma joined_app a b : joined (a ++ b) = joined a +++ joined b.
Proof.
  induction a as [| t a IH]; [reflexivity |].
  simpl. now rewrite IH, append_assoc.
Qed.

Lemma addTexts_text texts l :
  accumulatedText (addTexts texts l) = accumulatedText l +++ joined texts /\
  updateCount (addTexts texts l) = updateCount l + length texts.
Proof.
  revert l. induction texts as [| t texts IH]; intros l; simpl.
  - now rewrite append_empty, Nat.add_0_r.
  - destruct (IH (counted t l)) as [-> ->]. simpl.
    now rewrite append_assoc, Nat.add_succ_r.
Qed.

Lemma summarise_text event l :
  accumulatedText (summarise event l) = accumulatedText l +++ joined (contributions event) /\
  updateCount (summarise event l) = updateCount l + length (contributions event).
Proof.
  pose proof (addTexts_text (contributions event) (set_receivedEvents true l)) as H.
  simpl in H. unfold summarise.
  destruct event as [parts | t | st | [a |] | kind]; simpl in *;
    repeat match goal with
           | |- context [match ?x with _ => _ end] => destruct x
           end;
    exact H.
Qed.

Lemma summary_text evs l :
  accumulatedText (summary evs l) = accumulatedText l +++ joined (flat_map contributions evs) /\
  updateCount (summary evs l) = updateCount l + length (flat_map contributions evs).
Proof.
  revert l. induction evs as [| event rest IH]; intros l; simpl.
  - now rewrite append_empty, Nat.add_0_r.
  - destruct (IH (summarise event l)) as [-> ->].
    destruct (summarise_text event l) as [-> ->].
    now rewrite joined_app, length_app, append_assoc, Nat.add_assoc.
Qed.

Lemma consumeStream_leaves env robot client p s :
  result (consumeStream env robot client p) s = Ok tt ->
  agree (locals (exec (consumeStream env robot client p) s))
        (set_isCompleted true (summary (events (sendMessageStream client p)) initialLocals)).
Proof.
  unfold result, exec, consumeStream, bind. rewrite run_startStreaming.
  destruct (sendOutcome env (awaits s)); [discriminate |].
  rewrite run_streamLoop. cbv zeta. simpl. intros Hok.
  unfold result, exec in *.
  destruct (forAwait env robot (events (sendMessageStream client p))
              (failure (sendMessageStream client p)) (started env p s))
    as [[[] | e] s1] eqn:E; [| discriminate Hok].
  pose proof (forAwait_leaves env robot _ _ _ _ _ E) as Hloop. simpl in *.
  revert Hloop. now apply (agree_step (set_isCompleted true)).
Qed.

(** ** Streams that end normally: what the user is left with *)

Section QuietLoop.
Variable env : Env.
Variable robot : string.

Lemma collectParts_quiet parts s :
  partTexts parts = [] -> forEach (collectPart env robot) parts s = (Ok tt, s).
Proof.
  induction parts as [| part rest IH]; intros Hnone; [reflexivity |].
  unfold partTexts in Hnone. simpl in Hnone. apply app_eq_nil in Hnone as [Hpart Hrest].
  simpl. unfold bind, collectPart.
  destruct (String.eqb (part_kind part) "text" && JS.truthy (part_text part));
    [discriminate Hpart |].
  simpl. now apply IH.
Qed.

Lemma processEvent_quiet event s :
  contributions event = [] ->
  messageActivity (locals s) = None ->
  exists s', processEvent env robot event s = (Ok tt, s') /\
             messageActivity (locals s') = None /\
             shownTexts (trace s') = shownTexts (trace s).
Proof.
  intros Hnone Hfirst. rewrite run_processEvent.
  assert (Hstays : forall s1 : State,
            messageActivity (locals s1) = None ->
            shownTexts (trace s1) = shownTexts (trace s) ->
            exists s', (Ok tt, s1) = (Ok tt, s') /\
                       messageActivity (locals s') = None /\
                       shownTexts (trace s') = shownTexts (trace s))
    by (intros s1 H1 H2; now exists s1).
  destruct event as [[[| first rest] |] | t | st | [artifact |] | kind]; simpl in *;
    try (now apply Hstays).
  - destruct (JS.truthy (part_text first)); [discriminate Hnone |].
    now apply Hstays.
  - unfold onTask, bind, modifyLocals. simpl.
    destruct (artifacts t) as [[| a rest] |]; now apply Hstays.
  - unfold onStatusUpdate, bind, modifyLocals, clearInterval, armInterval, record, getLocals.
    simpl.
    destruct (String.eqb (state st) "completed"); simpl.
    + destruct (currentTask (locals s)); simpl; rewrite Hfirst;
        (apply Hstays; [exact Hfirst |]);
        simpl; rewrite shownTexts_app; simpl; now rewrite app_nil_r.
    + apply Hstays; simpl; destruct (currentTask (locals s)); solve [reflexivity | exact Hfirst].
  - unfold onArtifactUpdate.
    destruct (art_parts artifact) as [parts |]; simpl in *.
    + unfold bind. rewrite collectParts_quiet by exact Hnone.
      now apply Hstays.
    + now apply Hstays.
Qed.

Lemma forAwait_quiet evs s :
  flat_map contributions evs = [] ->
  messageActivity (locals s) = None ->
  exists s', forAwait env robot evs None s = (Ok tt, s') /\
             shownTexts (trace s') = shownTexts (trace s).
Proof.
  revert s. induction evs as [| event rest IH]; intros s Hnone Hfirst; simpl.
  - unfold bind. rewrite run_suspend. eexists. split; [reflexivity |].
    simpl. now rewrite shownTexts_app, shownTexts_noise, app_nil_r.
  - simpl in Hnone. apply app_eq_nil in Hnone as [Hevent Hrest].
    unfold bind. rewrite run_suspend.
    match goal with
    | |- context [processEvent env robot event ?s1] =>
        destruct (processEvent_quiet event s1 Hevent Hfirst) as [s2 [E [Hfirst2 Hshown2]]]
    end.
    rewrite E.
    destruct (IH s2 Hrest Hfirst2) as [s' [E' Hshown']].
    exists s'. split; [exact E' |].
    rewrite Hshown', Hshown2. simpl.
    now rewrite shownTexts_app, shownTexts_noise, app_nil_r.
Qed.

Hypothesis surface_works : forall k, sendOutcome env k = None.

Lemma consumeStream_returns client p s :
  failure (sendMessageStream client p) = None ->
  result (consumeStream env robot client p) s = Ok tt.
Proof.
  intros Hnone.
  assert (Hstart : oneMessage (trace s) (started env p s)).
  { exists (Typing :: noise env (awaits s) s ++ [OpenStream p]). simpl. split.
    - now rewrite <- app_assoc.
    - repeat split; now counting. }
  destruct (streamLoop_one env robot (trace s) surface_works _ Hnone _ Hstart)
    as [[[] Hok] _].
  unfold result, consumeStream, bind. rewrite run_startStreaming, surface_works.
  exact Hok.
Qed.

(** A stream without text: the loop shows nothing, and the final
    response is the one for the variables the events leave. *)
Lemma streaming_without_text (final fallback : M unit) (lines : Locals -> list string)
    client p s :
  failure (sendMessageStream client p) = None ->
  flat_map contributions (events (sendMessageStream client p)) = [] ->
  (forall s1, accumulatedText (locals s1) = "" ->
     result final s1 = Ok tt /\
     shownTexts (trace (exec final s1)) = shownTexts (trace s1) ++ lines (locals s1)) ->
  (forall l1 l2, agree l1 l2 -> lines l1 = lines l2) ->
  let handle := try_catch (consumeStream env robot client p ;; final) (fun _ => fallback) in
  result handle s = Ok tt /\
  shownTexts (trace (exec handle s)) =
  shownTexts (trace s) ++
  lines (set_isCompleted true (summary (events (sendMessageStream client p)) initialLocals)).
Proof.
  intros Hnone Hquiet Hfinal Hlines. cbv zeta.
  pose proof (consumeStream_returns client p s Hnone) as Hok.
  pose proof (consumeStream_leaves env robot client p s Hok) as Hleft.
  assert (Hshown : shownTexts (trace (exec (consumeStream env robot client p) s))
                   = shownTexts (trace s)).
  { unfold exec, consumeStream, bind. rewrite run_startStreaming, surface_works.
    rewrite run_streamLoop. cbv zeta. simpl. rewrite Hnone.
    destruct (forAwait_quiet (events (sendMessageStream client p)) (started env p s)
                Hquiet eq_refl) as [s1 [E Hs1]].
    unfold exec. rewrite E. simpl.
    rewrite shownTexts_app, Hs1. simpl.
    change (Typing :: noise env (awaits s) s) with ([Typing] ++ noise env (awaits s) s).
    rewrite !shownTexts_app, shownTexts_noise. simpl. now rewrite !app_nil_r. }
  assert (Htext : accumulatedText (locals (exec (consumeStream env robot client p) s)) = "").
  { apply agree_fields in Hleft. destruct Hleft as [-> _].
    change (accumulatedText
              (summary (events (sendMessageStream client p)) initialLocals) = "").
    destruct (summary_text (events (sendMessageStream client p)) initialLocals) as [-> _].
    now rewrite Hquiet. }
  unfold result, exec in *. unfold try_catch, bind.
  destruct (consumeStream env robot client p s) as [r s1]. simpl in *. subst r.
  destruct (Hfinal s1 Htext) as [Hret Hout].
  destruct (final s1) as [r2 s2]. simpl in *. subst r2. simpl.
  split; [reflexivity |]. rewrite Hout, Hshown. f_equal. now apply Hlines.
Qed.

Lemma run_bot_final_without_text s :
  accumulatedText (locals s) = "" ->
  DialogBot.finalResponse env s =
  match currentTask (locals s) with
  | Some t =>
      sendText env (DialogBot.target +++ " Task " +++ task_id t +++ ": " +++ state (status t)) ;;
      match lastArtifacts (locals s) with
      | a :: rest => DialogBot.displayArtifacts env (a :: rest)
      | [] => ret tt
      end ;;
      when (JS.truthy (message (status t)))
           (sendText env (DialogBot.info +++ " " +++ JS.interpolate (message (status t))))
  | None =>
      when (negb (receivedEvents (locals s)))
           (sendText env (DialogBot.warning +++ " No response received from agent."))
  end s.
Proof.
  intros Hnone. unfold DialogBot.finalResponse. unfold bind at 1. unfold getLocals.
  cbv beta iota. now rewrite Hnone.
Qed.

Lemma bot_final_lines s :
  accumulatedText (locals s) = "" ->
  result (DialogBot.finalResponse env) s = Ok tt /\
  shownTexts (trace (exec (DialogBot.finalResponse env) s))
  = shownTexts (trace s) ++ botFinalLines (locals s).
Proof.
  intros Hnone.
  assert (Hsome : forall texts (m : M unit), emits texts m ->
            fst (m s) = Ok tt /\
            shownTexts (trace (snd (m s))) = shownTexts (trace s) ++ texts).
  { intros texts m Hm. destruct (Hm s) as [[[] Hr] Ht]. now split. }
  unfold result, exec. rewrite run_bot_final_without_text by exact Hnone.
  unfold botFinalLines.
  destruct (currentTask (locals s)) as [t |].
  - apply Hsome.
    apply (emits_bind [_]); [now apply emits_sendText | intros _].
    apply emits_bind; [| intros _; now apply bot_status_emits].
    destruct (lastArtifacts (locals s)) as [| a rest];
      [apply emits_ret | now apply bot_displayArtifacts_emits].
  - apply Hsome.
    destruct (receivedEvents (locals s)); simpl; [apply emits_ret | now apply emits_sendText].
Qed.

Lemma run_dialog_final_without_text s :
  accumulatedText (locals s) = "" ->
  MainDialog.finalResponse env s =
  match currentTask (locals s) with
  | Some t =>
      sendText env (MainDialog.target +++ " Task " +++ task_id t +++ ": " +++ state (status t)) ;;
      match lastArtifacts (locals s) with
      | a :: rest => MainDialog.displayTaskArtifacts env (a :: rest)
      | [] => ret tt
      end ;;
      when (JS.truthy (message (status t)))
           (sendText env (MainDialog.info +++ " " +++ JS.interpolate (message (status t))))
  | None =>
      when (negb (receivedEvents (locals s)))
           (sendText env (MainDialog.warning +++ " No response received from agent."))
  end s.
Proof.
  intros Hnone. unfold MainDialog.finalResponse. unfold bind at 1. unfold getLocals.
  cbv beta iota. now rewrite Hnone.
Qed.

Lemma dialog_final_lines s :
  accumulatedText (locals s) = "" ->
  result (MainDialog.finalResponse env) s = Ok tt /\
  shownTexts (trace (exec (MainDialog.finalResponse env) s))
  = shownTexts (trace s) ++ dialogFinalLines (locals s).
Proof.
  intros Hnone.
  assert (Hsome : forall texts (m : M unit), emits texts m ->
            fst (m s) = Ok tt /\
            shownTexts (trace (snd (m s))) = shownTexts (trace s) ++ texts).
  { intros texts m Hm. destruct (Hm s) as [[[] Hr] Ht]. now split. }
  unfold result, exec. rewrite run_dialog_final_without_text by exact Hnone.
  unfold dialogFinalLines.
  destruct (currentTask (locals s)) as [t |].
  - apply Hsome.
    apply (emits_bind [_]); [now apply emits_sendText | intros _].
    apply emits_bind; [| intros _; now apply dialog_status_emits].
    destruct (lastArtifacts (locals s)) as [| a rest];
      [apply emits_ret | now apply dialog_displayArtifacts_emits].
  - apply Hsome.
    destruct (receivedEvents (locals s)); simpl; [apply emits_ret | now apply emits_sendText].
Qed.

End QuietLoop.

Lemma botFinalLines_agree l1 l2 : agree l1 l2 -> botFinalLines l1 = botFinalLines l2.
Proof.
  intros H. apply agree_fields in H. destruct H as (_ & Ht & Hr & Ha & _).
  unfold botFinalLines. rewrite Hr, Ha.
  destruct (currentTask l1) as [t1 |], (currentTask l2) as [t2 |];
    try discriminate Ht; [| reflexivity].
  simpl in Ht. injection Ht as Hid Hstatus. now rewrite Hid, Hstatus.
Qed.

Lemma dialogFinalLines_agree l1 l2 : agree l1 l2 -> dialogFinalLines l1 = dialogFinalLines l2.
Proof.
  intros H. apply agree_fields in H. destruct H as (_ & Ht & Hr & Ha & _).
  unfold dialogFinalLines. rewrite Hr, Ha.
  destruct (currentTask l1) as [t1 |], (currentTask l2) as [t2 |];
    try discriminate Ht; [| reflexivity].
  simpl in Ht. injection Ht as Hid Hstatus. now rewrite Hid, Hstatus.
Qed.

Lemma streaming_shows_text env robot (final fallback : M unit) client p s :
  (forall k, sendOutcome env k = None) ->
  failure (sendMessageStream client p) = None ->
  joined (flat_map contributions (events (sendMessageStream client p))) <> "" ->
  streamsOneMessage env robot
    (try_catch (consumeStream env robot client p ;; final) (fun _ => fallback)) client p s ->
  exists before,
    shownTexts (trace (exec (try_catch (consumeStream env robot client p ;; final)
                                       (fun _ => fallback)) s))
    = before ++ [robot +++ " " +++
                 joined (flat_map contributions (events (sendMessageStream client p)))].
Proof.
  intros Hsend Hnone Htext [_ Hone].
  pose proof (consumeStream_returns env robot Hsend client p s Hnone) as Hok.
  pose proof (consumeStream_leaves env robot client p s Hok) as Hleft.
  assert (Hacc : accumulatedText (locals (exec (consumeStream env robot client p) s))
                 = joined (flat_map contributions (events (sendMessageStream client p)))).
  { apply agree_fields in Hleft. destruct Hleft as [-> _].
    change (accumulatedText (summary (events (sendMessageStream client p)) initialLocals)
            = joined (flat_map contributions (events (sendMessageStream client p)))).
    now destruct (summary_text (events (sendMessageStream client p)) initialLocals)
      as [-> _]. }
  destruct Hone as (h & tl & _ & _ & _ & _ & Htrace); [now rewrite Hacc |].
  rewrite Htrace. unfold rendered. rewrite Hacc.
  destruct (updateOutcome env _).
  - eexists. change (Update h ?t :: [Send ?t']) with ([Update h t] ++ [Send t']).
    rewrite app_assoc, shownTexts_app. reflexivity.
  - eexists. rewrite shownTexts_app. reflexivity.
Qed.

(** The variables of [handleStreamingResponse] after its loop are a
    function of the events of the stream alone: whenever the loop
    returns, [receivedEvents] and [lastArtifacts] and the id and the
    status of [currentTask] are those of [summary], and [isCompleted]
    is set, whatever the surface did with the updates and however often
    the timer fired.  [accumulatedText] is the concatenation, in order
    of arrival, of the texts the events contribute, and [updateCount]
    is their number.  (Of [currentTask] nothing is said beyond id and
    status: its artifacts are the array that [lastArtifacts] appends
    to.) *)
Theorem stream_leaves_summary env robot client p s :
  result (consumeStream env robot client p) s = Ok tt ->
  let l := locals (exec (consumeStream env robot client p) s) in
  let evs := events (sendMessageStream client p) in
  accumulatedText l = joined (flat_map contributions evs) /\
  updateCount l = length (flat_map contributions evs) /\
  receivedEvents l = receivedEvents (summary evs initialLocals) /\
  lastArtifacts l = lastArtifacts (summary evs initialLocals) /\
  option_map task_id (currentTask l)
  = option_map task_id (currentTask (summary evs initialLocals)) /\
  option_map status (currentTask l)
  = option_map status (currentTask (summary evs initialLocals)) /\
  isCompleted l = true.
Proof.
  intros Hok. cbv zeta.
  pose proof (consumeStream_leaves env robot client p s Hok) as Hleft.
  apply agree_fields in Hleft. destruct Hleft as (-> & Htask & -> & -> & -> & ->).
  destruct (summary_text (events (sendMessageStream client p)) initialLocals) as [Ht Hc].
  assert (Hbare : forall (B : Type) (f : Task -> B), (forall t, f (idAndStatus t) = f t) ->
            option_map f (currentTask (locals (exec (consumeStream env robot client p) s)))
            = option_map f (currentTask
                              (summary (events (sendMessageStream client p)) initialLocals))).
  { intros B f Hf. cbn [currentTask set_isCompleted] in Htask.
    destruct (currentTask (locals (exec (consumeStream env robot client p) s))) as [t1 |],
             (currentTask (summary (events (sendMessageStream client p)) initialLocals))
               as [t2 |];
      try discriminate Htask; [| reflexivity].
    injection Htask as Hid Hstatus. cbn [option_map].
    rewrite <- (Hf t1), <- (Hf t2). unfold idAndStatus. now rewrite Hid, Hstatus. }
  repeat split;
    solve [ exact Ht | exact Hc | apply (Hbare _ task_id); reflexivity
          | apply (Hbare _ status); reflexivity ].
Qed.

Lemma stream_leaves_summary_witness :
  let draft := mkArtifact "a-0" (Some "draft") None in
  let report := mkArtifact "a-1" None (Some [TextPart "World"; FilePart None]) in
  let client := agent (Message (Some [TextPart "Hello "])
                       :: TaskEvent (mkTask "t-1" working (Some [draft]))
                       :: ArtifactUpdate (Some report)
                       :: [StatusUpdate (mkStatus "completed" None)])
                      None (Throw "unused") in
  let l := locals (exec (consumeStream (tickingAt 2) DialogBot.robot client hello) fresh) in
  accumulatedText l = "Hello World" /\
  updateCount l = 2 /\
  receivedEvents l = true /\
  lastArtifacts l = [draft; report] /\
  option_map task_id (currentTask l) = Some "t-1" /\
  option_map status (currentTask l) = Some (mkStatus "completed" None) /\
  isCompleted l = true.
Proof.
  cbv zeta.
  match goal with
  | |- context [consumeStream ?e ?r ?c ?p] =>
      exact (stream_leaves_summary e r c p fresh eq_refl)
  end.
Defined.

(** When the stream ends normally with some text and the surface accepts
    every [sendActivity], the last text a run of
    [handleStreamingResponse] shows is the glyph followed by the whole
    text: every contribution of the stream, in order of arrival, none
    missing, whatever became of the updates in between. *)
Theorem whole_text_is_shown_last env client p s :
  (forall k, sendOutcome env k = None) ->
  failure (sendMessageStream client p) = None ->
  joined (flat_map contributions (events (sendMessageStream client p))) <> "" ->
  (exists before,
     shownTexts (trace (exec (DialogBot.handleStreamingResponse env client p) s))
     = before ++ [DialogBot.robot +++ " " +++
                  joined (flat_map contributions (events (sendMessageStream client p)))]) /\
  (exists before,
     shownTexts (trace (exec (MainDialog.handleStreamingResponse env client p) s))
     = before ++ [MainDialog.robot +++ " " +++
                  joined (flat_map contributions (events (sendMessageStream client p)))]).
Proof.
  intros Hsend Hnone Htext. split.
  - apply streaming_shows_text; try assumption.
    apply streaming_one_message; [exact Hsend | exact Hnone | now apply bot_final_returns |].
    intros s1 h Hne Eh. unfold DialogBot.finalResponse, bind, getLocals.
    destruct (accumulatedText (locals s1)) eqn:Ea; [discriminate Hne |].
    simpl. now rewrite Eh.
  - apply streaming_shows_text; try assumption.
    apply streaming_one_message; [exact Hsend | exact Hnone | now apply dialog_final_returns |].
    intros s1 h Hne Eh. unfold MainDialog.finalResponse, bind, getLocals.
    destruct (accumulatedText (locals s1)) eqn:Ea; [discriminate Hne |].
    simpl. now rewrite Eh.
Qed.

Lemma whole_text_is_shown_last_witness :
  let client := agent fiveTexts None (Throw "unused") in
  (exists before,
     shownTexts (trace (exec (DialogBot.handleStreamingResponse refusingUpdates client hello)
                             fresh))
     = before ++ [DialogBot.robot +++ " abcde"]) /\
  (exists before,
     shownTexts (trace (exec (MainDialog.handleStreamingResponse refusingUpdates client hello)
                             fresh))
     = before ++ [MainDialog.robot +++ " abcde"]).
Proof.
  apply (whole_text_is_shown_last refusingUpdates
           (agent fiveTexts None (Throw "unused")) hello fresh).
  - intros k. reflexivity.
  - reflexivity.
  - discriminate.
Defined.

(** When the stream ends normally without any text and the surface
    accepts every [sendActivity], a run of [handleStreamingResponse]
    returns and shows exactly the final response for the variables the
    events leave: the task line, the artifacts kept in order of arrival
    with their text and file parts, and the status message; for a stream
    with events but no task, nothing at all; for a stream without
    events, the notice that no response was received.  The loop itself
    shows nothing. *)
Theorem stream_without_text_shows_task env client p s :
  (forall k, sendOutcome env k = None) ->
  failure (sendMessageStream client p) = None ->
  flat_map contributions (events (sendMessageStream client p)) = [] ->
  (result (DialogBot.handleStreamingResponse env client p) s = Ok tt /\
   shownTexts (trace (exec (DialogBot.handleStreamingResponse env client p) s))
   = shownTexts (trace s)
     ++ botFinalLines (summary (events (sendMessageStream client p)) initialLocals)) /\
  (result (MainDialog.handleStreamingResponse env client p) s = Ok tt /\
   shownTexts (trace (exec (MainDialog.handleStreamingResponse env client p) s))
   = shownTexts (trace s)
     ++ dialogFinalLines (summary (events (sendMessageStream client p)) initialLocals)).
Proof.
  intros Hsend Hnone Hquiet. split.
  - apply (streaming_without_text env DialogBot.robot Hsend (DialogBot.finalResponse env)
             (DialogBot.handleRegularResponse env client p) botFinalLines client p s
             Hnone Hquiet).
    + intros s1. now apply bot_final_lines.
    + apply botFinalLines_agree.
  - apply (streaming_without_text env MainDialog.robot Hsend (MainDialog.finalResponse env)
             (MainDialog.handleRegularResponse env client p) dialogFinalLines client p s
             Hnone Hquiet).
    + intros s1. now apply dialog_final_lines.
    + apply dialogFinalLines_agree.
Qed.

Lemma stream_without_text_shows_task_witness :
  let report := mkArtifact "a-1" (Some "report")
                  (Some [FilePart (Some "report.pdf"); mkPart "data" None None]) in
  let client := agent (TaskEvent (mkTask "t-1" working None)
                       :: ArtifactUpdate (Some report)
                       :: [StatusUpdate (mkStatus "completed" (Some "done"))])
                      None (Throw "unused") in
  shownTexts (trace (exec (DialogBot.handleStreamingResponse calm client hello) fresh))
  = [DialogBot.target +++ " Task t-1: completed";
     DialogBot.paperclip +++ " report";
     DialogBot.folder +++ " File: report.pdf";
     DialogBot.info +++ " done"] /\
  shownTexts (trace (exec (MainDialog.handleStreamingResponse calm
                             (agent [] None (Throw "unused")) hello) fresh))
  = [MainDialog.warning +++ " No response received from agent."].
Proof.
  cbv zeta. split.
  - match goal with
    | |- context [DialogBot.handleStreamingResponse ?e ?c ?p] =>
        destruct (stream_without_text_shows_task e c p fresh
                    (fun _ => eq_refl) eq_refl eq_refl) as [[_ Hbot] _]
    end.
    exact Hbot.
  - match goal with
    | |- context [MainDialog.handleStreamingResponse ?e ?c ?p] =>
        destruct (stream_without_text_shows_task e c p fresh
                    (fun _ => eq_refl) eq_refl eq_refl) as [_ [_ Hdialog]]
    end.
    exact Hdialog.
Defined.

(** ** The synchronous fallback and the lists of artifacts *)

(** On a surface that accepts every [sendActivity], the loops that list
    artifacts return and show one line per artifact (its name, or its id
    when it has no name), each followed by one line per text part and
    per file part of the artifact, in the order of the lists; parts of
    another kind and artifacts without parts add nothing. *)
Theorem artifacts_are_listed_in_order env arts :
  (forall k, sendOutcome env k = None) ->
  emits (botArtifactLines arts) (DialogBot.displayArtifacts env arts) /\
  emits (dialogArtifactLines arts) (MainDialog.displayTaskArtifacts env arts).
Proof.
  intros Hsend. split.
  - now apply bot_displayArtifacts_emits.
  - now apply dialog_displayArtifacts_emits.
Qed.

Lemma artifacts_are_listed_in_order_witness :
  let arts := [mkArtifact "a-1" (Some "notes") (Some [TextPart "x"; FilePart None]);
               mkArtifact "a-2" None None] in
  shownTexts (trace (exec (DialogBot.displayArtifacts calm arts) fresh))
  = [DialogBot.paperclip +++ " notes"; DialogBot.page +++ " x";
     DialogBot.folder +++ " File: unnamed"; DialogBot.paperclip +++ " a-2"] /\
  shownTexts (trace (exec (MainDialog.displayTaskArtifacts calm arts) fresh))
  = [MainDialog.paperclip +++ " **notes**"; MainDialog.page +++ " x";
     MainDialog.folder +++ " File: unnamed file"; MainDialog.paperclip +++ " **a-2**"].
Proof.
  cbv zeta.
  match goal with
  | |- context [DialogBot.displayArtifacts ?e ?a] =>
      destruct (artifacts_are_listed_in_order e a (fun _ => eq_refl)) as [Hbot Hdialog]
  end.
  split; [exact (proj2 (Hbot fresh)) | exact (proj2 (Hdialog fresh))].
Defined.

(** On a surface that accepts every [sendActivity], the synchronous
    fallback returns for every result it can read and shows: for a
    message, one line with the text of the first part, or [No text
    content]; for a task, the task line, the artifacts in order, the
    status message when there is one, and last the notice that the
    agent will notify, exactly when the state is none of [completed],
    [failed] and [canceled]; for a result of another kind, nothing. *)
Theorem fallback_renders_answer env client p answer :
  (forall k, sendOutcome env k = None) ->
  sendMessage client p = Ok (RpcResult answer) ->
  readable answer = true ->
  emits (botAnswerLines answer) (DialogBot.handleRegularResponse env client p) /\
  emits (dialogAnswerLines answer) (MainDialog.handleRegularResponse env client p).
Proof.
  intros Hsend Hanswer Hreadable. split.
  - now apply bot_fallback_emits.
  - now apply dialog_fallback_emits.
Qed.

Lemma fallback_renders_answer_witness :
  let answer := TaskEvent (mkTask "t-1" (mkStatus "working" (Some "queued"))
                             (Some [mkArtifact "a-1" None (Some [TextPart "draft"])])) in
  let client := agent [] None (Ok (RpcResult answer)) in
  shownTexts (trace (exec (DialogBot.handleRegularResponse calm client hello) fresh))
  = [DialogBot.target +++ " Task: t-1 (working)";
     DialogBot.paperclip +++ " a-1"; DialogBot.page +++ " draft";
     DialogBot.info +++ " queued";
     DialogBot.hourglass +++ " Task is working. The agent will notify when complete."] /\
  shownTexts (trace (exec (MainDialog.handleRegularResponse calm client hello) fresh))
  = [MainDialog.target +++ " Task: t-1 - working";
     MainDialog.paperclip +++ " **a-1**"; MainDialog.page +++ " draft";
     MainDialog.info +++ " queued";
     MainDialog.hourglass +++ " Task is working. The agent will notify when complete."].
Proof.
  cbv zeta.
  match goal with
  | |- context [DialogBot.handleRegularResponse ?e (agent ?evs ?f (Ok (RpcResult ?a))) ?p] =>
      destruct (fallback_renders_answer e (agent evs f (Ok (RpcResult a))) p a
                  (fun _ => eq_refl) eq_refl eq_refl) as [Hbot Hdialog]
  end.
  split; [exact (proj2 (Hbot fresh)) | exact (proj2 (Hdialog fresh))].
Defined.

Section FallbackFailure.
Variable env : Env.
Variable client : A2AClient.
Variable p : SendParams.
Variable msg : string.
Hypothesis Hfailed :
  sendMessage client p = Throw msg \/ sendMessage client p = Ok (RpcError msg).

Lemma bot_fallback_failure s :
  sendOutcome env (awaits s) = None ->
  result (DialogBot.handleRegularResponse env client p) s = Throw msg /\
  showsNothing s (exec (DialogBot.handleRegularResponse env client p) s).
Proof.
  intros Htyping. split.
  - unfold result, DialogBot.handleRegularResponse, bind.
    rewrite run_sendTyping, Htyping. simpl.
    destruct Hfailed as [-> | ->]; reflexivity.
  - generalize s. change (steps showsNothing (DialogBot.handleRegularResponse env client p)).
    unfold DialogBot.handleRegularResponse.
    destruct Hfailed as [-> | ->];
      stepwise showsNothing_refl showsNothing_trans
        ltac:(first [ apply sendTyping_showsNothing | apply suspend_showsNothing
                    | now apply record_showsNothing ]).
Qed.

Lemma dialog_fallback_failure s :
  sendOutcome env (awaits s) = None ->
  result (MainDialog.handleRegularResponse env client p) s = Throw msg /\
  showsNothing s (exec (MainDialog.handleRegularResponse env client p) s).
Proof.
  intros Htyping. split.
  - unfold result, MainDialog.handleRegularResponse, bind.
    rewrite run_sendTyping, Htyping. simpl.
    destruct Hfailed as [-> | ->]; reflexivity.
  - generalize s. change (steps showsNothing (MainDialog.handleRegularResponse env client p)).
    unfold MainDialog.handleRegularResponse.
    destruct Hfailed as [-> | ->];
      stepwise showsNothing_refl showsNothing_trans
        ltac:(first [ apply sendTyping_showsNothing | apply suspend_showsNothing
                    | now apply record_showsNothing ]).
Qed.

End FallbackFailure.

(** When [sendMessage] throws, or answers with a JSON-RPC error, the
    synchronous fallback of either file throws an error with that very
    message, and none of its calls shows a text: reporting the failure
    is left to the caller. *)
Theorem fallback_failure_is_thrown env client p msg s :
  sendOutcome env (awaits s) = None ->
  sendMessage client p = Throw msg \/ sendMessage client p = Ok (RpcError msg) ->
  (result (DialogBot.handleRegularResponse env client p) s = Throw msg /\
   showsNothing s (exec (DialogBot.handleRegularResponse env client p) s)) /\
  (result (MainDialog.handleRegularResponse env client p) s = Throw msg /\
   showsNothing s (exec (MainDialog.handleRegularResponse env client p) s)).
Proof.
  intros Htyping Hfailed. split.
  - now apply bot_fallback_failure.
  - now apply dialog_fallback_failure.
Qed.

Lemma fallback_failure_is_thrown_witness :
  let client := agent [] None (Ok (RpcError "Internal error")) in
  (result (DialogBot.handleRegularResponse calm client hello) fresh = Throw "Internal error" /\
   showsNothing fresh (exec (DialogBot.handleRegularResponse calm client hello) fresh)) /\
  (result (MainDialog.handleRegularResponse calm client hello) fresh = Throw "Internal error" /\
   showsNothing fresh (exec (MainDialog.handleRegularResponse calm client hello) fresh)).
Proof.
  apply (fallback_failure_is_thrown calm (agent [] None (Ok (RpcError "Internal error")))
           hello "Internal error" fresh).
  - reflexivity.
  - right. reflexivity.
Defined.

(** When the typing indicator of the synchronous fallback cannot be
    sent, the fallback throws that error and never calls [sendMessage]:
    the agent is not asked. *)
Theorem fallback_typing_failure_skips_request env client p e s :
  sendOutcome env (awaits s) = Some e ->
  (DialogBot.handleRegularResponse env client p s = (Throw e, notStarted env s) /\
   MainDialog.handleRegularResponse env client p s = (Throw e, notStarted env s)) /\
  noRequest s (notStarted env s).
Proof.
  intros Htyping. split; [split |].
  - unfold DialogBot.handleRegularResponse. now rewrite run_after_typing, Htyping.
  - unfold MainDialog.handleRegularResponse. now rewrite run_after_typing, Htyping.
  - unfold noRequest, notStarted. simpl. counting. lia.
Qed.

Lemma fallback_typing_failure_skips_request_witness :
  let env := mkEnv (fun _ => Some "conversation not found") (fun _ => None) (fun _ => 0)
                   (fun _ _ => Throw "offline") idle in
  let client := agent [] None (Ok (RpcResult (Message (Some [TextPart "hi"])))) in
  (DialogBot.handleRegularResponse env client hello fresh
   = (Throw "conversation not found", notStarted env fresh) /\
   MainDialog.handleRegularResponse env client hello fresh
   = (Throw "conversation not found", notStarted env fresh)) /\
  noRequest fresh (notStarted env fresh).
Proof.
  cbv zeta.
  match goal with
  | |- context [DialogBot.handleRegularResponse ?e ?c ?p] =>
      exact (fallback_typing_failure_skips_request e c p "conversation not found" fresh eq_refl)
  end.
Defined.

Lemma streaming_returns env robot (final fallback : M unit) client p s :
  (forall s1, result fallback s1 = Ok tt) ->
  result (try_catch (consumeStream env robot client p ;; final) (fun _ => fallback)) s = Ok tt.
Proof.
  intros Hfallback. unfold result, try_catch.
  destruct ((consumeStream env robot client p ;; final) s) as [[[] | e] s1]; [reflexivity |].
  apply Hfallback.
Qed.

(** When the surface accepts every [sendActivity] and [sendMessage]
    answers with a result that the fallback can read, a run of
    [handleStreamingResponse] returns normally, whatever the stream
    does: events of any kind, an exception at any point, updates
    refused. *)
Theorem answered_turn_never_fails env client p answer s :
  (forall k, sendOutcome env k = None) ->
  sendMessage client p = Ok (RpcResult answer) ->
  readable answer = true ->
  result (DialogBot.handleStreamingResponse env client p) s = Ok tt /\
  result (MainDialog.handleStreamingResponse env client p) s = Ok tt.
Proof.
  intros Hsend Hanswer Hreadable. split.
  - apply streaming_returns. intros s1.
    destruct (bot_fallback_emits env Hsend client p answer Hanswer Hreadable s1)
      as [[[] Hok] _].
    exact Hok.
  - apply streaming_returns. intros s1.
    destruct (dialog_fallback_emits env Hsend client p answer Hanswer Hreadable s1)
      as [[[] Hok] _].
    exact Hok.
Qed.

Lemma answered_turn_never_fails_witness :
  let client := agent [Message None; Other "noise"] (Some "connection reset")
                      (Ok (RpcResult (Message (Some [])))) in
  result (DialogBot.handleStreamingResponse refusingUpdates client hello) fresh = Ok tt /\
  result (MainDialog.handleStreamingResponse refusingUpdates client hello) fresh = Ok tt.
Proof.
  apply (answered_turn_never_fails refusingUpdates
           (agent [Message None; Other "noise"] (Some "connection reset")
                  (Ok (RpcResult (Message (Some [])))))
           hello (Message (Some [])) fresh).
  - intros k. reflexivity.
  - reflexivity.
  - reflexivity.
Defined.

(** ** The typing timer at the end of a run *)

Lemma sameTimer_refl s : sameTimer s s.
Proof. reflexivity. Qed.

Lemma sameTimer_trans s1 s2 s3 : sameTimer s1 s2 -> sameTimer s2 s3 -> sameTimer s1 s3.
Proof. unfold sameTimer. congruence. Qed.

Section TimerAtTheEnd.
Variable env : Env.

Lemma suspend_sameTimer : steps sameTimer (suspend env).
Proof. intros s. now rewrite exec_suspend. Qed.

Lemma record_sameTimer c : steps sameTimer (record c).
Proof. intros s. reflexivity. Qed.

Ltac timer_leaf := first [ apply suspend_sameTimer | apply record_sameTimer ].

Lemma bot_fallback_sameTimer client p :
  steps sameTimer (DialogBot.handleRegularResponse env client p).
Proof.
  unfold DialogBot.handleRegularResponse, DialogBot.displayArtifacts, DialogBot.displayPart,
    sendText, sendActivity, sendTyping.
  stepwise sameTimer_refl sameTimer_trans timer_leaf.
Qed.

Lemma dialog_fallback_sameTimer client p :
  steps sameTimer (MainDialog.handleRegularResponse env client p).
Proof.
  unfold MainDialog.handleRegularResponse, MainDialog.displayTaskArtifacts,
    MainDialog.displayPart, sendText, sendActivity, sendTyping.
  stepwise sameTimer_refl sameTimer_trans timer_leaf.
Qed.

Lemma bot_final_sameTimer : steps sameTimer (DialogBot.finalResponse env).
Proof.
  unfold DialogBot.finalResponse, DialogBot.displayArtifacts, DialogBot.displayPart,
    sendText, sendActivity, updateActivity.
  stepwise sameTimer_refl sameTimer_trans timer_leaf.
Qed.

Lemma dialog_final_sameTimer : steps sameTimer (MainDialog.finalResponse env).
Proof.
  unfold MainDialog.finalResponse, MainDialog.displayTaskArtifacts, MainDialog.displayPart,
    sendText, sendActivity, updateActivity.
  stepwise sameTimer_refl sameTimer_trans timer_leaf.
Qed.

Lemma streaming_timer_off robot (final : M unit) (fallback : M unit) client p s :
  steps sameTimer final ->
  steps sameTimer fallback ->
  typingInterval s = false ->
  typingInterval (exec (try_catch (consumeStream env robot client p ;; final)
                                  (fun _ => fallback)) s) = false.
Proof.
  intros Hfinal Hfallback Hoff. unfold exec. rewrite run_streaming.
  destruct (sendOutcome env (awaits s)).
  - pose proof (Hfallback (notStarted env s)) as H. unfold sameTimer, exec in H.
    now rewrite H.
  - unfold try_catch, bind.
    pose proof (streamLoop_off env robot (sendMessageStream client p) (started env p s))
      as Hloop.
    unfold exec in Hloop.
    destruct (streamLoop env robot (sendMessageStream client p) (started env p s))
      as [[[] | e] s1]; simpl in *.
    + pose proof (Hfinal s1) as H1. unfold sameTimer, exec in H1.
      destruct (final s1) as [[[] | e] s2]; simpl in *; [congruence |].
      pose proof (Hfallback s2) as H2. unfold sameTimer, exec in H2. congruence.
    + pose proof (Hfallback s1) as H2. unfold sameTimer, exec in H2. congruence.
Qed.

End TimerAtTheEnd.

(** The typing timer does not outlive the call: when a run of
    [handleStreamingResponse] ends, by returning or by throwing, the
    interval it may have set is cleared, whatever the stream, the
    surface and the fallback did. *)
Theorem typing_timer_never_outlives_call env client p s :
  typingInterval s = false ->
  typingInterval (exec (DialogBot.handleStreamingResponse env client p) s) = false /\
  typingInterval (exec (MainDialog.handleStreamingResponse env client p) s) = false.
Proof.
  intros Hoff. split.
  - apply streaming_timer_off;
      [apply bot_final_sameTimer | apply bot_fallback_sameTimer | exact Hoff].
  - apply streaming_timer_off;
      [apply dialog_final_sameTimer | apply dialog_fallback_sameTimer | exact Hoff].
Qed.

Lemma typing_timer_never_outlives_call_witness :
  let client := agent [Message (Some [TextPart "partial"])] (Some "connection reset")
                      (Throw "gateway timeout") in
  typingInterval (exec (DialogBot.handleStreamingResponse (tickingAt 1) client hello) fresh)
  = false /\
  typingInterval (exec (MainDialog.handleStreamingResponse (tickingAt 1) client hello) fresh)
  = false.
Proof.
  apply (typing_timer_never_outlives_call (tickingAt 1)
           (agent [Message (Some [TextPart "partial"])] (Some "connection reset")
                  (Throw "gateway timeout")) hello fresh).
  reflexivity.
Defined.

(** ** The router: which messages reach the agent *)

Lemma router_falls_through env activityText uuid s :
  DialogBot.isDialogCommand activityText = true \/
  JS.truthy (accessToken (turnState s)) = false \/
  a2aClient (turnState s) = None ->
  DialogBot.routeOrFallThrough env activityText uuid s = (Ok false, s).
Proof.
  intros Hwhy. unfold DialogBot.routeOrFallThrough.
  unfold bind at 1. unfold getTurnState at 1. cbv beta iota.
  destruct (a2aClient (turnState s)) as [client |]; [| reflexivity].
  destruct Hwhy as [-> | [-> | Hnone]]; [reflexivity | | discriminate Hnone].
  now rewrite andb_false_r.
Qed.

(** The router forwards a message to the agent only when it is no dialog
    command and the turn holds both a token and the client.  In every
    other case, even with a valid session in the turn, the router
    itself asks the agent nothing, shows nothing and changes nothing:
    [handleMessage] hands the message to the dialog, that is, it runs
    the dialog and then calls [next()].  What the dialog stack does
    with the text is its own.  An empty token counts as no token. *)
Theorem unrouted_message_runs_dialog env activityText uuid s :
  DialogBot.isDialogCommand activityText = true \/
  JS.truthy (accessToken (turnState s)) = false \/
  a2aClient (turnState s) = None ->
  DialogBot.routeOrFallThrough env activityText uuid s = (Ok false, s) /\
  DialogBot.handleMessage env activityText uuid s = botSignsIn env s.
Proof.
  intros Hwhy. pose proof (router_falls_through env activityText uuid s Hwhy) as Hrouter.
  split; [exact Hrouter |].
  unfold DialogBot.handleMessage. unfold bind at 1. now rewrite Hrouter.
Qed.

Lemma unrouted_message_runs_dialog_witness :
  let client := agent [] None (Throw "unused") in
  let text := Some (JS.utf8 [194; 160] +++ " LogOut ") in
  DialogBot.routeOrFallThrough calm text "m-1" (signedIn client true)
  = (Ok false, signedIn client true) /\
  DialogBot.handleMessage calm text "m-1" (signedIn client true)
  = botSignsIn calm (signedIn client true).
Proof.
  apply unrouted_message_runs_dialog. left. reflexivity.
Defined.

Lemma isLetter_lowerChar c : isLetter (JS.lowerChar c) = isLetter c.
Proof. destruct c as [[] [] [] [] [] [] [] []]; reflexivity. Qed.

Lemma letters_toLowerCase t : allChars isLetter (JS.toLowerCase t) = allChars isLetter t.
Proof.
  induction t as [| c t IH]; [reflexivity |].
  simpl. now rewrite IH, isLetter_lowerChar.
Qed.

Lemma letter_is_no_space c r : isLetter c = true -> JS.spaceWidth (String c r) = 0.
Proof. destruct c as [[] [] [] [] [] [] [] []]; intros H; try discriminate H; reflexivity. Qed.

Lemma trimStart_white w t : In w JS.whiteSpace -> JS.trimStart (w +++ t) = JS.trimStart t.
Proof.
  intros Hin. unfold JS.whiteSpace in Hin. simpl in Hin.
  repeat (destruct Hin as [<- | Hin]; [reflexivity |]). destruct Hin.
Qed.

Lemma trimStart_blank ws t :
  Forall (fun w => In w JS.whiteSpace) ws -> JS.trimStart (joined ws +++ t) = JS.trimStart t.
Proof.
  induction 1 as [| w ws Hw _ IH]; [reflexivity |].
  simpl. rewrite append_assoc, trimStart_white by exact Hw. exact IH.
Qed.

Lemma blank_trimEnd s : JS.isBlank s = true -> JS.trimEnd s = "".
Proof. destruct s as [| c r]; [reflexivity |]. simpl. now intros ->. Qed.

Lemma isBlank_joined ws :
  Forall (fun w => In w JS.whiteSpace) ws -> JS.isBlank (joined ws) = true.
Proof.
  intros Hws. unfold JS.isBlank.
  rewrite <- (append_empty (joined ws)), trimStart_blank by exact Hws. reflexivity.
Qed.

Lemma trimStart_word word t :
  allChars isLetter word = true -> JS.trimStart (word +++ t) = word +++ t \/ word = "".
Proof.
  destruct word as [| c word]; intros Hword; [now right | left].
  simpl in Hword. apply andb_prop in Hword as [Hc _].
  change (JS.trimStart (String c (word +++ t)) = String c (word +++ t)).
  unfold JS.trimStart. cbn [JS.trimStartFrom]. now rewrite letter_is_no_space.
Qed.

Lemma trimEnd_word word ws :
  allChars isLetter word = true ->
  Forall (fun w => In w JS.whiteSpace) ws ->
  JS.trimEnd (word +++ joined ws) = word.
Proof.
  intros Hword Hws. induction word as [| c word IH].
  - apply blank_trimEnd. now apply isBlank_joined.
  - simpl in Hword. apply andb_prop in Hword as [Hc Hrest].
    change (JS.trimEnd (String c (word +++ joined ws)) = String c word).
    cbn [JS.trimEnd]. unfold JS.isBlank, JS.trimStart. cbn [JS.trimStartFrom].
    rewrite letter_is_no_space by exact Hc. now rewrite (IH Hrest).
Qed.

Lemma trim_padded before word after :
  Forall (fun w => In w JS.whiteSpace) before ->
  Forall (fun w => In w JS.whiteSpace) after ->
  allChars isLetter word = true ->
  JS.trim (joined before +++ word +++ joined after) = word.
Proof.
  intros Hbefore Hafter Hword. unfold JS.trim.
  rewrite trimStart_blank by exact Hbefore.
  destruct (trimStart_word word (joined after) Hword) as [-> | ->].
  - now apply trimEnd_word.
  - change ("" +++ joined after) with (joined after).
    pose proof (isBlank_joined after Hafter) as Hblank. unfold JS.isBlank in Hblank.
    destruct (JS.trimStart (joined after)); [reflexivity | discriminate Hblank].
Qed.

Lemma padded_command before word after :
  Forall (fun w => In w JS.whiteSpace) before ->
  Forall (fun w => In w JS.whiteSpace) after ->
  In (JS.toLowerCase word) DialogBot.dialogCommands ->
  DialogBot.isDialogCommand (Some (joined before +++ word +++ joined after)) = true.
Proof.
  intros Hbefore Hafter Hcommand. unfold DialogBot.isDialogCommand.
  assert (Hword : allChars isLetter word = true).
  { rewrite <- letters_toLowerCase.
    destruct Hcommand as [<- | [<- | [<- | []]]]; reflexivity. }
  rewrite trim_padded by assumption.
  apply existsb_exists. exists (JS.toLowerCase word).
  split; [exact Hcommand | apply String.eqb_refl].
Qed.

(** The dialog commands are recognised in any letter case and with any
    white space around them, be it ASCII or not (the no-break space, the
    line and paragraph separators, the byte order mark and the other
    white space that [trim] strips).  The router does not forward such
    a text to the agent itself, even with a valid session in the turn:
    it asks the agent nothing and changes nothing, and leaves the text
    to the dialog. *)
Theorem command_words_any_case_any_padding env before word after uuid s :
  Forall (fun w => In w JS.whiteSpace) before ->
  Forall (fun w => In w JS.whiteSpace) after ->
  In (JS.toLowerCase word) DialogBot.dialogCommands ->
  DialogBot.isDialogCommand (Some (joined before +++ word +++ joined after)) = true /\
  DialogBot.routeOrFallThrough env (Some (joined before +++ word +++ joined after)) uuid s
  = (Ok false, s).
Proof.
  intros Hbefore Hafter Hcommand.
  pose proof (padded_command before word after Hbefore Hafter Hcommand) as Hcmd.
  split; [exact Hcmd |]. apply router_falls_through. now left.
Qed.

Lemma command_words_any_case_any_padding_witness :
  let client := agent [] None (Throw "unused") in
  let text := Some (joined [JS.utf8 [194; 160]; " "] +++ "EXIT"
                    +++ joined [JS.utf8 [226; 128; 168]; JS.utf8 [10]]) in
  DialogBot.isDialogCommand text = true /\
  DialogBot.routeOrFallThrough calm text "m-1" (signedIn client true)
  = (Ok false, signedIn client true).
Proof.
  apply (command_words_any_case_any_padding calm [JS.utf8 [194; 160]; " "] "EXIT"
           [JS.utf8 [226; 128; 168]; JS.utf8 [10]]).
  - repeat constructor; vm_compute; tauto.
  - repeat constructor; vm_compute; tauto.
  - right. right. left. reflexivity.
Defined.

(** When [handleStreamingResponse] returns, each caller goes on without
    a word to the user: the bot calls [next()] and neither runs the
    dialog nor touches the session, in the turn or as persisted; the
    dialog replaces itself by a new instance of the waterfall, which
    asks for the next message. *)
Theorem answered_message_goes_on env text uuid client s :
  (routed text client s ->
   result (DialogBot.handleStreamingResponse env client (mkParams uuid text)) s = Ok tt ->
   DialogBot.handleMessage env text uuid s
   = record Next (exec (DialogBot.handleStreamingResponse env client (mkParams uuid text)) s) /\
   sameSession s (exec (DialogBot.handleMessage env text uuid) s)) /\
  (forall userText,
     text = Some userText ->
     String.eqb (JS.toLowerCase userText) "exit" = false ->
     a2aClient (turnState s) = Some client ->
     result (MainDialog.handleStreamingResponse env client (mkParams uuid text)) s = Ok tt ->
     MainDialog.handleQueryResponse env userText uuid s
     = record ReplaceDialog
         (exec (MainDialog.handleStreamingResponse env client (mkParams uuid text)) s)).
Proof.
  split.
  - intros (Hcmd & Htoken & Hclient) Hok.
    assert (Hrun : DialogBot.handleMessage env text uuid s
                   = record Next (exec (DialogBot.handleStreamingResponse env client
                                          (mkParams uuid text)) s)).
    { unfold DialogBot.handleMessage, DialogBot.routeOrFallThrough.
      unfold bind at 1. unfold bind at 1. unfold getTurnState at 1.
      rewrite Hclient, Hcmd, Htoken. simpl.
      unfold try_catch at 1. unfold bind at 1.
      unfold DialogBot.routeToA2AAgent, try_catch at 1.
      unfold result, exec in *.
      destruct (DialogBot.handleStreamingResponse env client (mkParams uuid text) s)
        as [r s1]. simpl in *. now subst r. }
    split; [exact Hrun |].
    unfold exec at 1. rewrite Hrun.
    apply (sameSession_trans _ _ _
             (bot_streaming_sameSession env client (mkParams uuid text) s)).
    now split.
  - intros userText -> Hexit Hclient Hok.
    unfold MainDialog.handleQueryResponse. rewrite Hexit.
    unfold bind at 1. unfold getTurnState at 1. rewrite Hclient.
    unfold try_catch at 1. unfold bind at 1.
    unfold MainDialog.sendMessageWithPolling, try_catch at 1.
    unfold result, exec in *.
    destruct (MainDialog.handleStreamingResponse env client (mkParams uuid (Some userText)) s)
      as [r s1]. simpl in *. now subst r.
Qed.

Lemma answered_message_goes_on_witness :
  let client := agent [Message (Some [TextPart "Hello"])] None (Throw "unused") in
  let s := signedIn client true in
  DialogBot.handleMessage calm (Some "hi") "m-1" s
  = record Next (exec (DialogBot.handleStreamingResponse calm client hello) s) /\
  MainDialog.handleQueryResponse calm "hi" "m-1" s
  = record ReplaceDialog (exec (MainDialog.handleStreamingResponse calm client hello) s).
Proof.
  cbv zeta.
  pose (client := agent [Message (Some [TextPart "Hello"])] None (Throw "unused")).
  destruct (answered_message_goes_on calm (Some "hi") "m-1" client (signedIn client true))
    as [Hbot Hdialog].
  assert (Hrouted : routed (Some "hi") client (signedIn client true))
    by (repeat split; reflexivity).
  destruct (Hbot Hrouted eq_refl) as [Hrun _].
  exact (conj Hrun (Hdialog "hi" eq_refl eq_refl eq_refl eq_refl)).
Defined.

(** ** The last step of the waterfall *)

(** Typing [exit], in any letter case, ends the dialog with the
    farewell; any other text that arrives without a client in the turn
    ends it with the notice that the client is missing.  In both cases
    [handleQueryResponse] shows that one text, calls [endDialog()], and
    asks the agent nothing. *)
Theorem exit_or_missing_client_ends_dialog env userText uuid s :
  (String.eqb (JS.toLowerCase userText) "exit" = true ->
   MainDialog.handleQueryResponse env userText uuid s
   = (sendText env "ğŸ‘‹ Goodbye! A2A session ended." ;; record EndDialog) s) /\
  (String.eqb (JS.toLowerCase userText) "exit" = false ->
   a2aClient (turnState s) = None ->
   MainDialog.handleQueryResponse env userText uuid s
   = (sendText env (MainDialog.cross +++ " A2A client not available. "
                    +++ "Please restart the authentication process.") ;;
      record EndDialog) s) /\
  (String.eqb (JS.toLowerCase userText) "exit" = true \/ a2aClient (turnState s) = None ->
   noRequest s (exec (MainDialog.handleQueryResponse env userText uuid) s)).
Proof.
  assert (Hsteps : forall text, steps noRequest (sendText env text ;; record EndDialog)).
  { intros text. apply (steps_bind _ noRequest_trans); [apply sendText_noRequest | intros _].
    now apply record_noRequest. }
  split; [| split].
  - intros Hexit. unfold MainDialog.handleQueryResponse. now rewrite Hexit.
  - intros Hexit Hnone. unfold MainDialog.handleQueryResponse. rewrite Hexit.
    unfold bind at 1. unfold getTurnState at 1. now rewrite Hnone.
  - intros Hwhy. unfold exec, MainDialog.handleQueryResponse.
    destruct (String.eqb (JS.toLowerCase userText) "exit"); [apply Hsteps |].
    destruct Hwhy as [Hexit | Hnone]; [discriminate Hexit |].
    unfold bind at 1. unfold getTurnState at 1. rewrite Hnone. apply Hsteps.
Qed.

Lemma exit_or_missing_client_ends_dialog_witness :
  let client := agent [] None (Throw "unused") in
  trace (exec (MainDialog.handleQueryResponse calm "Exit" "m-1") (signedIn client true))
  = [Send "ğŸ‘‹ Goodbye! A2A session ended."; EndDialog] /\
  trace (exec (MainDialog.handleQueryResponse calm "hi" "m-1") fresh)
  = [Send (MainDialog.cross +++ " A2A client not available. "
           +++ "Please restart the authentication process.");
     EndDialog].
Proof.
  cbv zeta. split.
  - destruct (exit_or_missing_client_ends_dialog calm "Exit" "m-1"
                (signedIn (agent [] None (Throw "unused")) true)) as (Hexit & _ & _).
    unfold exec. rewrite (Hexit eq_refl). reflexivity.
  - destruct (exit_or_missing_client_ends_dialog calm "hi" "m-1" fresh) as (_ & Hnone & _).
    unfold exec. rewrite (Hnone eq_refl eq_refl). reflexivity.
Defined.

(** ** The session from one turn to the next *)

Section NextTurn.
Variable env : Env.

Lemma run_persist s token url :
  conversationState (turnState s) = true ->
  accessToken (turnState s) = Some token -> token <> "" ->
  a2aServerUrl (turnState s) = Some url -> url <> "" ->
  MainDialog.persistA2AState s = (Ok tt, set_a2aState (mkSaved (Some token) (Some url)) s).
Proof.
  intros Hstate Htoken Hne1 Hurl Hne2.
  unfold MainDialog.persistA2AState, swallow, try_catch, bind, getTurnState.
  rewrite Hstate, Htoken, Hurl.
  destruct token; [now destruct Hne1 |]. destruct url; [now destruct Hne2 |].
  reflexivity.
Qed.

Lemma run_restore s token url :
  conversationState (turnState s) = true ->
  a2aState s = mkSaved (Some token) (Some url) -> token <> "" -> url <> "" ->
  let ts := turnState (exec (MainDialog.restoreA2AState env) s) in
  (result (MainDialog.restoreA2AState env) s = Ok tt /\
   conversationState ts = true) /\
  accessToken ts = Some token /\
  a2aServerUrl ts = Some url /\
  match fromCardUrl env url token with
  | Ok client =>
      match getAgentCard client with
      | Ok card => a2aClient ts = Some client /\ agentCard ts = Some card
      | Throw _ => a2aClient ts = a2aClient (turnState s) /\ agentCard ts = agentCard (turnState s)
      end
  | Throw _ => a2aClient ts = a2aClient (turnState s) /\ agentCard ts = agentCard (turnState s)
  end.
Proof.
  intros Hstate Hsaved Hne1 Hne2. cbv zeta.
  destruct token as [| c1 r1]; [now destruct Hne1 |].
  destruct url as [| c2 r2]; [now destruct Hne2 |].
  destruct s as [l tr k timer ts saved]. simpl in Hstate, Hsaved. subst saved.
  unfold result, exec, MainDialog.restoreA2AState, swallow, try_catch, bind,
    getTurnState, getA2AState, modifyTurnState, when.
  cbn [turnState a2aState saved_accessToken saved_a2aServerUrl set_turnState
       locals trace awaits typingInterval].
  rewrite Hstate.
  cbn [turnState a2aState saved_accessToken saved_a2aServerUrl].
  rewrite !run_suspend. cbv beta iota.
  destruct (fromCardUrl env (String c2 r2) (String c1 r1)) as [client | e].
  - rewrite !run_suspend. cbv beta iota.
    destruct (getAgentCard client) as [card | e]; simpl; repeat split; exact Hstate.
  - simpl. repeat split; exact Hstate.
Qed.

End NextTurn.

(** A session that one turn persists is the session that the next turn
    restores: with the conversation state at hand and a token and a URL
    in the turn, [persistA2AState] stores both, and [restoreA2AState] in
    a later turn that finds them returns with the same token and URL in
    the turn.  The client and the agent card are not stored: they are
    fetched again from that URL with that token; when the fetch fails,
    the turn keeps the client and card it had, next to the restored
    token, and no error reaches the caller. *)
Theorem persisted_session_is_restored env s later token url :
  conversationState (turnState s) = true ->
  accessToken (turnState s) = Some token -> token <> "" ->
  a2aServerUrl (turnState s) = Some url -> url <> "" ->
  conversationState (turnState later) = true ->
  a2aState later = a2aState (exec MainDialog.persistA2AState s) ->
  let ts := turnState (exec (MainDialog.restoreA2AState env) later) in
  result (MainDialog.restoreA2AState env) later = Ok tt /\
  accessToken ts = Some token /\
  a2aServerUrl ts = Some url /\
  match fromCardUrl env url token with
  | Ok client =>
      match getAgentCard client with
      | Ok card => a2aClient ts = Some client /\ agentCard ts = Some card
      | Throw _ => a2aClient ts = a2aClient (turnState later) /\
                   agentCard ts = agentCard (turnState later)
      end
  | Throw _ => a2aClient ts = a2aClient (turnState later) /\
               agentCard ts = agentCard (turnState later)
  end.
Proof.
  intros Hstate Htoken Hne1 Hurl Hne2 Hlater Hsaved.
  unfold exec in Hsaved. rewrite (run_persist s token url) in Hsaved by assumption.
  destruct (run_restore env later token url Hlater Hsaved Hne1 Hne2) as [[Hok _] Hrest].
  exact (conj Hok Hrest).
Qed.

Lemma persisted_session_is_restored_witness :
  let client := agent [] None (Throw "unused") in
  let s := startOfTurn (mkTurn (Some "token") None (Some "https://agent") None true)
                       (mkSaved None None) in
  let later := startOfTurn (mkTurn None None None None true)
                           (a2aState (exec MainDialog.persistA2AState s)) in
  let ts := turnState (exec (MainDialog.restoreA2AState (reachable client)) later) in
  result (MainDialog.restoreA2AState (reachable client)) later = Ok tt /\
  accessToken ts = Some "token" /\
  a2aServerUrl ts = Some "https://agent" /\
  a2aClient ts = Some client /\
  agentCard ts = Some "card".
Proof.
  cbv zeta.
  exact (persisted_session_is_restored
           (reachable (agent [] None (Throw "unused")))
           (startOfTurn (mkTurn (Some "token") None (Some "https://agent") None true)
                        (mkSaved None None))
           (startOfTurn (mkTurn None None None None true)
              (a2aState (exec MainDialog.persistA2AState
                 (startOfTurn (mkTurn (Some "token") None (Some "https://agent") None true)
                              (mkSaved None None)))))
           "token" "https://agent"
           eq_refl eq_refl ltac:(discriminate) eq_refl ltac:(discriminate)
           eq_refl eq_refl).
Defined.

Lemma persist_incomplete s :
  conversationState (turnState s) = false \/
  JS.truthy (accessToken (turnState s)) = false \/
  JS.truthy (a2aServerUrl (turnState s)) = false ->
  MainDialog.persistA2AState s = (Ok tt, s).
Proof.
  intros Hwhy.
  unfold MainDialog.persistA2AState, swallow, try_catch, bind, getTurnState.
  destruct (conversationState (turnState s)); [| reflexivity].
  destruct Hwhy as [H | [-> | ->]]; [discriminate H | reflexivity |].
  simpl. now rewrite andb_false_r.
Qed.

(** A session that is not complete is neither stored nor restored:
    without the conversation state in the turn, or with the token or the
    URL missing or empty, [persistA2AState] and [restoreA2AState] (the
    latter reading the stored copy) return and change nothing. *)
Theorem incomplete_session_is_left_alone env s :
  (conversationState (turnState s) = false \/
   JS.truthy (accessToken (turnState s)) = false \/
   JS.truthy (a2aServerUrl (turnState s)) = false ->
   MainDialog.persistA2AState s = (Ok tt, s)) /\
  (conversationState (turnState s) = false \/
   JS.truthy (saved_accessToken (a2aState s)) = false \/
   JS.truthy (saved_a2aServerUrl (a2aState s)) = false ->
   MainDialog.restoreA2AState env s = (Ok tt, s)).
Proof.
  split; intros Hwhy.
  - now apply persist_incomplete.
  - unfold MainDialog.restoreA2AState, swallow, try_catch.
    unfold bind at 1. unfold getTurnState at 1.
    destruct (conversationState (turnState s)); [| reflexivity].
    unfold when. unfold bind at 1. unfold getA2AState at 1.
    destruct Hwhy as [H | [H | H]]; [discriminate H | |].
    + destruct (saved_accessToken (a2aState s)) as [[| c1 r1] |];
        try discriminate H; reflexivity.
    + destruct (saved_accessToken (a2aState s)) as [[| c1 r1] |]; try reflexivity.
      destruct (saved_a2aServerUrl (a2aState s)) as [[| c2 r2] |];
        try discriminate H; reflexivity.
Qed.

Lemma incomplete_session_is_left_alone_witness :
  let s := startOfTurn (mkTurn (Some "token") None None None true)
                       (mkSaved (Some "old token") (Some "")) in
  MainDialog.persistA2AState s = (Ok tt, s) /\
  MainDialog.restoreA2AState calm s = (Ok tt, s).
Proof.
  cbv zeta.
  match goal with
  | |- _ /\ MainDialog.restoreA2AState ?e ?s = _ =>
      destruct (incomplete_session_is_left_alone e s) as [Hpersist Hrestore]
  end.
  split.
  - apply Hpersist. right. right. reflexivity.
  - apply Hrestore. right. right. reflexivity.
Defined.

(** ** Signing in: the steps before the query *)

(** The URL of the agent card: [A2A_AGENT_CARD_URL] when it is set and
    not empty, and otherwise [AgentEndpointURL] followed by the
    well-known path.  The third alternative of the source, the localhost
    URL, is never chosen: with [AgentEndpointURL] unset as well, the URL
    is the text [undefined] followed by the path. *)
Theorem localhost_default_is_never_used vars :
  MainDialogSteps.agentCardUrl vars =
  if JS.truthy (MainDialogSteps.A2A_AGENT_CARD_URL vars)
  then JS.interpolate (MainDialogSteps.A2A_AGENT_CARD_URL vars)
  else JS.interpolate (MainDialogSteps.AgentEndpointURL vars)
       +++ "/.well-known/agent-card.json".
Proof.
  unfold MainDialogSteps.agentCardUrl.
  destruct (MainDialogSteps.A2A_AGENT_CARD_URL vars) as [[| c r] |]; try reflexivity;
    destruct (MainDialogSteps.AgentEndpointURL vars) as [[| c' r'] |]; reflexivity.
Qed.

Lemma shown_suspend env s :
  shownTexts (trace (exec (suspend env) s)) = shownTexts (trace s).
Proof.
  rewrite exec_suspend. simpl. now rewrite shownTexts_app, shownTexts_noise, app_nil_r.
Qed.

Lemma shown_sendText env text s :
  shownTexts (trace (exec (sendText env text) s)) = shownTexts (trace s) ++ [text].
Proof.
  unfold exec. rewrite run_sendText. simpl.
  change (Send text :: noise env (awaits s) s) with ([Send text] ++ noise env (awaits s) s).
  now rewrite !shownTexts_app, shownTexts_noise, app_nil_r.
Qed.

Section ClientSetup.
Variable env : Env.
Variable vars : MainDialogSteps.ProcessEnv.
Variable unauthorized : nat -> bool.
Variable displayAgentCard : AgentCard -> M unit.
Variable bearer : option string.
Variable msg : string.
Hypothesis surface_works : forall k, sendOutcome env k = None.

(** The texts of a fetch that fails at suspension point [k]. *)
Lemma run_fetched_failure {A} s :
  exists s1,
    MainDialogSteps.fetched env unauthorized (@Throw A msg) s = (Throw msg, s1) /\
    sameSession s s1 /\
    shownTexts (trace s1)
    = shownTexts (trace s)
      ++ (if unauthorized (awaits s) then [MainDialogSteps.authNotice] else []).
Proof.
  unfold MainDialogSteps.fetched. unfold bind at 1. rewrite run_suspend.
  destruct (unauthorized (awaits s)); simpl.
  - unfold bind. rewrite run_sendText, surface_works. simpl.
    eexists. split; [reflexivity | split; [now split |]]. simpl.
    change (Send MainDialogSteps.authNotice :: ?n)
      with ([Send MainDialogSteps.authNotice] ++ n).
    rewrite !shownTexts_app, !shownTexts_noise. simpl. now rewrite !app_nil_r.
  - eexists. split; [reflexivity | split; [now split |]]. simpl.
    now rewrite shownTexts_app, shownTexts_noise, !app_nil_r.
Qed.

Lemma run_fetched_success {A} (a : A) s :
  MainDialogSteps.fetched env unauthorized (Ok a) s = (Ok a, exec (suspend env) s).
Proof.
  unfold MainDialogSteps.fetched, bind, exec. now rewrite run_suspend.
Qed.

Lemma failed_client_setup k s :
  (fromCardUrl env (MainDialogSteps.agentCardUrl vars) (JS.interpolate bearer) = Throw msg /\
   k = awaits s) \/
  (exists client,
     fromCardUrl env (MainDialogSteps.agentCardUrl vars) (JS.interpolate bearer) = Ok client /\
     getAgentCard client = Throw msg /\ k = S (awaits s)) ->
  let setup := MainDialogSteps.createA2AClientWithAuth env vars unauthorized
                 displayAgentCard bearer in
  result setup s = Ok tt /\
  sameSession s (exec setup s) /\
  shownTexts (trace (exec setup s))
  = shownTexts (trace s)
    ++ (if unauthorized k then [MainDialogSteps.authNotice] else [])
    ++ [MainDialog.cross +++ " Error configuring A2A client: " +++ msg
        +++ ". Please ensure the A2A server is running and accessible."].
Proof.
  intros Hwhy. cbv zeta.
  assert (Hrun : exists s1,
            MainDialogSteps.createA2AClientWithAuth env vars unauthorized
              displayAgentCard bearer s
            = sendText env (MainDialog.cross +++ " Error configuring A2A client: " +++ msg
                +++ ". Please ensure the A2A server is running and accessible.") s1 /\
            sameSession s s1 /\
            shownTexts (trace s1)
            = shownTexts (trace s)
              ++ (if unauthorized k then [MainDialogSteps.authNotice] else [])).
  { unfold MainDialogSteps.createA2AClientWithAuth. cbv zeta.
    destruct Hwhy as [[Hclient ->] | [client (Hclient & Hcard & ->)]]; rewrite Hclient.
    - destruct (@run_fetched_failure A2AClient s) as (s1 & Hfetch & Hsame & Hshown).
      exists s1. split; [| now split].
      unfold try_catch. unfold bind at 1. now rewrite Hfetch.
    - destruct (@run_fetched_failure AgentCard (exec (suspend env) s))
        as (s1 & Hfetch & Hsame & Hshown).
      exists s1. split; [| split].
      + unfold try_catch. unfold bind at 1. rewrite run_fetched_success.
        unfold bind at 1. rewrite Hcard. now rewrite Hfetch.
      + apply (sameSession_trans _ (exec (suspend env) s));
          [apply suspend_sameSession | exact Hsame].
      + rewrite Hshown, shown_suspend. now rewrite exec_suspend. }
  destruct Hrun as (s1 & Hrun & Hsame & Hshown).
  unfold exec, result. rewrite Hrun. split; [| split].
  - rewrite run_sendText. now rewrite surface_works.
  - apply (sameSession_trans _ _ _ Hsame). apply sendText_sameSession.
  - change (shownTexts (trace (exec (sendText env
              (MainDialog.cross +++ " Error configuring A2A client: " +++ msg
               +++ ". Please ensure the A2A server is running and accessible.")) s1))
            = shownTexts (trace s)
              ++ (if unauthorized k then [MainDialogSteps.authNotice] else [])
              ++ [MainDialog.cross +++ " Error configuring A2A client: " +++ msg
                  +++ ". Please ensure the A2A server is running and accessible."]).
    rewrite shown_sendText, Hshown. now rewrite <- app_assoc.
Qed.

End ClientSetup.

(** When the agent card cannot be fetched (the client cannot be
    created, or it cannot deliver the card), [createA2AClientWithAuth]
    on a surface that accepts every [sendActivity] does not throw the
    error of the fetch.  It returns normally, leaves the turn state and
    the persisted session as they were, and shows the notice that
    carries the message of the error, preceded, when the failed fetch
    was answered with status 401, by the notice of the authentication
    handler, and by nothing else. *)
Theorem failed_client_setup_is_reported env vars unauthorized displayAgentCard bearer
    msg k s :
  (forall j, sendOutcome env j = None) ->
  (fromCardUrl env (MainDialogSteps.agentCardUrl vars) (JS.interpolate bearer) = Throw msg /\
   k = awaits s) \/
  (exists client,
     fromCardUrl env (MainDialogSteps.agentCardUrl vars) (JS.interpolate bearer) = Ok client /\
     getAgentCard client = Throw msg /\ k = S (awaits s)) ->
  let setup := MainDialogSteps.createA2AClientWithAuth env vars unauthorized
                 displayAgentCard bearer in
  result setup s = Ok tt /\
  sameSession s (exec setup s) /\
  shownTexts (trace (exec setup s))
  = shownTexts (trace s)
    ++ (if unauthorized k then [MainDialogSteps.authNotice] else [])
    ++ [MainDialog.cross +++ " Error configuring A2A client: " +++ msg
        +++ ". Please ensure the A2A server is running and accessible."].
Proof.
  intros Hsend Hwhy. now apply failed_client_setup.
Qed.

Lemma failed_client_setup_is_reported_witness :
  let env := mkEnv (fun _ => None) (fun _ => None) (fun _ => 0)
                   (fun _ _ => Throw "Failed to fetch Agent Card: 401") idle in
  let setup := MainDialogSteps.createA2AClientWithAuth env
                 (MainDialogSteps.mkProcessEnv None None) (fun _ => true)
                 (fun _ => idle) (Some "token") in
  result setup fresh = Ok tt /\
  sameSession fresh (exec setup fresh) /\
  shownTexts (trace (exec setup fresh))
  = [MainDialogSteps.authNotice;
     MainDialog.cross +++ " Error configuring A2A client: "
     +++ "Failed to fetch Agent Card: 401"
     +++ ". Please ensure the A2A server is running and accessible."].
Proof.
  cbv zeta.
  apply (failed_client_setup_is_reported
           (mkEnv (fun _ => None) (fun _ => None) (fun _ => 0)
                  (fun _ _ => Throw "Failed to fetch Agent Card: 401") idle)
           (MainDialogSteps.mkProcessEnv None None) (fun _ => true) (fun _ => idle)
           (Some "token") "Failed to fetch Agent Card: 401" 0 fresh).
  - intros j. reflexivity.
  - left. split; reflexivity.
Defined.

Section Login.
Variable env : Env.
Variable vars : MainDialogSteps.ProcessEnv.
Variable unauthorized : nat -> bool.
Variable displayAgentCard : AgentCard -> M unit.

Lemma run_loginStep_fresh continueConversation tokenResponse s :
  continueConversation = false \/ JS.truthy (accessToken (turnState s)) = false ->
  sendOutcome env (awaits s) = None ->
  MainDialogSteps.loginStep env vars unauthorized displayAgentCard continueConversation
    (Some tokenResponse) s
  = (MainDialogSteps.createA2AClientWithAuth env vars unauthorized displayAgentCard
       (MainDialogSteps.token tokenResponse) ;;
     ret (MainDialogSteps.Prompt MainDialogSteps.CONFIRM_PROMPT
            "Would you like to establish a connection to the agent?"))
      (set_turnState
         (mkTurn (MainDialogSteps.token tokenResponse) (a2aClient (turnState s))
                 (a2aServerUrl (turnState s)) (agentCard (turnState s))
                 (conversationState (turnState s)))
         (exec (sendText env "You are now logged in.") s)).
Proof.
  intros Hfresh Hsend. unfold MainDialogSteps.loginStep.
  unfold bind at 1. unfold getTurnState at 1. cbv beta iota.
  assert (Hguard : continueConversation && JS.truthy (accessToken (turnState s)) = false)
    by (destruct Hfresh as [-> | ->]; [reflexivity | apply andb_false_r]).
  rewrite Hguard.
  unfold bind at 1. unfold exec. rewrite run_sendText, Hsend. reflexivity.
Qed.

End Login.

(** Signing in with an agent that cannot be reached.  When the OAuth
    prompt delivered a token but the client cannot be created,
    [loginStep] on a surface that accepts every [sendActivity] still
    returns with the confirm prompt.  The user has been shown that the
    login worked, then, when the fetch of the agent card was answered
    with status 401, that the authentication failed, and then that the
    client could not be configured; the token is in the turn, the
    client, the card and the URL are as before; and [persistA2AState]
    after this step stores nothing when the turn had no URL before. *)
Theorem login_with_unreachable_agent env vars unauthorized displayAgentCard
    continueConversation tokenResponse msg s :
  (forall k, sendOutcome env k = None) ->
  continueConversation = false \/ JS.truthy (accessToken (turnState s)) = false ->
  fromCardUrl env (MainDialogSteps.agentCardUrl vars)
    (JS.interpolate (MainDialogSteps.token tokenResponse)) = Throw msg ->
  let step := MainDialogSteps.loginStep env vars unauthorized displayAgentCard
                continueConversation (Some tokenResponse) in
  result step s
  = Ok (MainDialogSteps.Prompt MainDialogSteps.CONFIRM_PROMPT
          "Would you like to establish a connection to the agent?") /\
  turnState (exec step s)
  = mkTurn (MainDialogSteps.token tokenResponse) (a2aClient (turnState s))
           (a2aServerUrl (turnState s)) (agentCard (turnState s))
           (conversationState (turnState s)) /\
  shownTexts (trace (exec step s))
  = shownTexts (trace s)
    ++ ["You are now logged in."]
    ++ (if unauthorized (S (awaits s)) then [MainDialogSteps.authNotice] else [])
    ++ [MainDialog.cross +++ " Error configuring A2A client: " +++ msg
        +++ ". Please ensure the A2A server is running and accessible."] /\
  (a2aServerUrl (turnState s) = None ->
   a2aState (exec MainDialog.persistA2AState (exec step s)) = a2aState s).
Proof.
  intros Hsend Hfresh Hthrow. cbv zeta.
  pose proof (run_loginStep_fresh env vars unauthorized displayAgentCard
                continueConversation tokenResponse s Hfresh (Hsend _)) as Hrun.
  match type of Hrun with
  | _ = _ ?s0 => set (s1 := s0) in *
  end.
  assert (Hawaits : awaits s1 = S (awaits s)).
  { unfold s1, exec. now rewrite run_sendText. }
  destruct (failed_client_setup env vars unauthorized displayAgentCard
              (MainDialogSteps.token tokenResponse) msg Hsend (S (awaits s)) s1
              (or_introl (conj Hthrow (eq_sym Hawaits))))
    as (Hok & Hsame & Hshown).
  assert (Hstep : exists s2,
            MainDialogSteps.loginStep env vars unauthorized displayAgentCard
              continueConversation (Some tokenResponse) s
            = (Ok (MainDialogSteps.Prompt MainDialogSteps.CONFIRM_PROMPT
                     "Would you like to establish a connection to the agent?"), s2) /\
            sameSession s1 s2 /\
            shownTexts (trace s2)
            = shownTexts (trace s1)
              ++ (if unauthorized (S (awaits s)) then [MainDialogSteps.authNotice] else [])
              ++ [MainDialog.cross +++ " Error configuring A2A client: " +++ msg
                  +++ ". Please ensure the A2A server is running and accessible."]).
  { rewrite Hrun. unfold bind. unfold result, exec in Hok, Hsame, Hshown.
    destruct (MainDialogSteps.createA2AClientWithAuth env vars unauthorized displayAgentCard
                (MainDialogSteps.token tokenResponse) s1) as [r s2].
    simpl in *. subst r. now exists s2. }
  destruct Hstep as (s2 & Hstep & [Hturn Hsaved] & Htexts).
  unfold result, exec. rewrite Hstep. simpl.
  assert (Hturn1 : turnState s1
                   = mkTurn (MainDialogSteps.token tokenResponse) (a2aClient (turnState s))
                            (a2aServerUrl (turnState s)) (agentCard (turnState s))
                            (conversationState (turnState s))) by reflexivity.
  assert (Hsaved1 : a2aState s1 = a2aState s).
  { unfold s1, exec. now rewrite run_sendText. }
  assert (Hshown1 : shownTexts (trace s1) = shownTexts (trace s) ++ ["You are now logged in."]).
  { unfold s1. apply shown_sendText. }
  split; [reflexivity | split; [| split]].
  - now rewrite Hturn.
  - rewrite Htexts, Hshown1. now rewrite <- app_assoc.
  - intros Hnone.
    rewrite (persist_incomplete s2); [simpl; congruence |].
    right. right. rewrite Hturn, Hturn1. simpl. now rewrite Hnone.
Qed.

Lemma login_with_unreachable_agent_witness :
  let env := mkEnv (fun _ => None) (fun _ => None) (fun _ => 0)
                   (fun _ _ => Throw "Failed to fetch Agent Card: 401") idle in
  let step := MainDialogSteps.loginStep env (MainDialogSteps.mkProcessEnv None None)
                (fun k => k =? 1) (fun _ => idle) false
                (Some (MainDialogSteps.mkTokenResponse (Some "token"))) in
  result step fresh
  = Ok (MainDialogSteps.Prompt MainDialogSteps.CONFIRM_PROMPT
          "Would you like to establish a connection to the agent?") /\
  turnState (exec step fresh) = mkTurn (Some "token") None None None false /\
  shownTexts (trace (exec step fresh))
  = ["You are now logged in.";
     MainDialogSteps.authNotice;
     MainDialog.cross +++ " Error configuring A2A client: "
     +++ "Failed to fetch Agent Card: 401"
     +++ ". Please ensure the A2A server is running and accessible."] /\
  a2aState (exec MainDialog.persistA2AState (exec step fresh)) = a2aState fresh.
Proof.
  cbv zeta.
  destruct (login_with_unreachable_agent
              (mkEnv (fun _ => None) (fun _ => None) (fun _ => 0)
                     (fun _ _ => Throw "Failed to fetch Agent Card: 401") idle)
              (MainDialogSteps.mkProcessEnv None None)
              (fun k => k =? 1) (fun _ => idle) false
              (MainDialogSteps.mkTokenResponse (Some "token"))
              "Failed to fetch Agent Card: 401" fresh
              (fun _ => eq_refl) (or_introl eq_refl) eq_refl)
    as (Hresult & Hturn & Hshown & Hsaved).
  exact (conj Hresult (conj Hturn (conj Hshown (Hsaved eq_refl)))).
Defined.

(** When the agent card can be fetched, [createA2AClientWithAuth] stores
    the client, the card and the URL in the turn together, before the
    card is displayed: they are in the turn afterwards however the
    display and the notice of success end, and even when the error
    notice is shown because one of the two failed.  The token is not
    touched. *)
Theorem client_setup_stores_client_card_and_url env vars unauthorized displayAgentCard
    bearer client card s :
  (forall c, steps sameSession (displayAgentCard c)) ->
  fromCardUrl env (MainDialogSteps.agentCardUrl vars) (JS.interpolate bearer) = Ok client ->
  getAgentCard client = Ok card ->
  turnState (exec (MainDialogSteps.createA2AClientWithAuth env vars unauthorized
                     displayAgentCard bearer) s)
  = mkTurn (accessToken (turnState s)) (Some client)
           (Some (MainDialogSteps.agentCardUrl vars)) (Some card)
           (conversationState (turnState s)).
Proof.
  intros Hdisplay Hclient Hcard.
  unfold MainDialogSteps.createA2AClientWithAuth. cbv zeta. rewrite Hclient.
  unfold exec, try_catch. unfold bind at 1. rewrite run_fetched_success.
  unfold bind at 1. rewrite Hcard, run_fetched_success.
  unfold bind at 1. unfold modifyTurnState at 1. cbv beta iota.
  rewrite !exec_suspend.
  match goal with
  | |- context [(displayAgentCard card ;; ?m) ?s1] =>
      assert (Hrest : steps sameSession (displayAgentCard card ;; m))
        by (apply (steps_bind _ sameSession_trans);
            [apply Hdisplay | intros _; apply sendText_sameSession]);
      pose proof (Hrest s1) as [Hturn _]; unfold exec in Hturn;
      destruct ((displayAgentCard card ;; m) s1) as [[[] | e] s2]
  end.
  - simpl in *. exact Hturn.
  - simpl in Hturn. rewrite <- Hturn.
    match goal with
    | |- context [sendText env ?text s2] =>
        destruct (sendText_sameSession env text s2) as [Hturn2 _]
    end.
    exact Hturn2.
Qed.

Lemma client_setup_stores_client_card_and_url_witness :
  let client := agent [] None (Throw "unused") in
  turnState (exec (MainDialogSteps.createA2AClientWithAuth (reachable client)
                     (MainDialogSteps.mkProcessEnv (Some "https://agent/card.json") None)
                     (fun _ => false)
                     (fun _ => throw "card too large") (Some "token"))
                  (startOfTurn (mkTurn (Some "token") None None None true)
                               (mkSaved None None)))
  = mkTurn (Some "token") (Some client) (Some "https://agent/card.json") (Some "card") true.
Proof.
  cbv zeta.
  apply (client_setup_stores_client_card_and_url (reachable (agent [] None (Throw "unused")))
           (MainDialogSteps.mkProcessEnv (Some "https://agent/card.json") None)
           (fun _ => false)
           (fun _ => throw "card too large") (Some "token")
           (agent [] None (Throw "unused")) "card").
  - intros c s. apply sameSession_refl.
  - reflexivity.
  - reflexivity.
Defined.

(** A conversation that goes on.  When the waterfall is started again
    with [continueConversation] and the turn holds a token, the four
    steps before the query each return with [next()] and neither show
    nor change anything, so that the next thing the user sees is the
    prompt for a message.  Without a token in the turn, [loginStep]
    falls back on the result of the previous step, and when there is
    none it reports that the login failed and ends the dialog. *)
Theorem continued_conversation_skips_sign_in env vars unauthorized displayAgentCard
    login confirmed oauth s :
  (JS.truthy (accessToken (turnState s)) = true ->
   MainDialogSteps.promptStep true s = (Ok MainDialogSteps.NextStep, s) /\
   MainDialogSteps.loginStep env vars unauthorized displayAgentCard true login s
   = (Ok MainDialogSteps.NextStep, s) /\
   MainDialogSteps.ensureOAuth true confirmed s = (Ok MainDialogSteps.NextStep, s) /\
   MainDialogSteps.displayToken env true oauth s = (Ok MainDialogSteps.NextStep, s)) /\
  (JS.truthy (accessToken (turnState s)) = false ->
   MainDialogSteps.loginStep env vars unauthorized displayAgentCard true None s
   = (sendText env "Login was not successful please try again." ;;
      ret MainDialogSteps.EndThisDialog) s).
Proof.
  split; intros Htoken.
  - repeat split.
    unfold MainDialogSteps.loginStep, bind, getTurnState. now rewrite Htoken.
  - unfold MainDialogSteps.loginStep. unfold bind at 1. unfold getTurnState at 1.
    cbv beta iota. now rewrite Htoken.
Qed.

Lemma continued_conversation_skips_sign_in_witness :
  let client := agent [] None (Throw "unused") in
  let s := signedIn client true in
  MainDialogSteps.promptStep true s = (Ok MainDialogSteps.NextStep, s) /\
  MainDialogSteps.loginStep calm (MainDialogSteps.mkProcessEnv None None) (fun _ => false)
    (fun _ => idle) true None s
  = (Ok MainDialogSteps.NextStep, s) /\
  MainDialogSteps.ensureOAuth true false s = (Ok MainDialogSteps.NextStep, s) /\
  MainDialogSteps.displayToken calm true None s = (Ok MainDialogSteps.NextStep, s).
Proof.
  cbv zeta.
  apply (continued_conversation_skips_sign_in calm (MainDialogSteps.mkProcessEnv None None)
           (fun _ => false) (fun _ => idle) None false None
           (signedIn (agent [] None (Throw "unused")) true)).
  reflexivity.
Defined.

(** ** A broken stream and the fallback's answer together *)

(** When consuming the stream throws and the fallback gets an answer it
    can read, nothing that the loop has shown is taken back: the run
    returns, and what it shows is what the loop had shown up to the
    failure, followed by the lines of the fallback's answer.  A text
    that was streamed in part therefore stays on screen next to the
    complete answer. *)
Theorem broken_stream_appends_fallback_answer env client p answer e s :
  (forall k, sendOutcome env k = None) ->
  result (streamLoop env DialogBot.robot (sendMessageStream client p)) (started env p s)
    = Throw e ->
  sendMessage client p = Ok (RpcResult answer) ->
  readable answer = true ->
  let s1 := exec (streamLoop env DialogBot.robot (sendMessageStream client p))
                 (started env p s) in
  result (DialogBot.handleStreamingResponse env client p) s = Ok tt /\
  shownTexts (trace (exec (DialogBot.handleStreamingResponse env client p) s))
  = shownTexts (trace s1) ++ botAnswerLines answer.
Proof.
  intros Hsend Hthrow Hanswer Hreadable. cbv zeta.
  destruct (streaming_falls_back env DialogBot.robot (DialogBot.finalResponse env)
              (DialogBot.handleRegularResponse env client) client p s e (Hsend _) Hthrow
              (fun s1 => bot_fallback_one_request env client p s1))
    as (_ & _ & Hrun & _).
  change (DialogBot.handleStreamingResponse env client p s
          = DialogBot.handleRegularResponse env client p
              (exec (streamLoop env DialogBot.robot (sendMessageStream client p))
                    (started env p s))) in Hrun.
  unfold result, exec at 1. rewrite Hrun.
  destruct (bot_fallback_emits env Hsend client p answer Hanswer Hreadable
              (exec (streamLoop env DialogBot.robot (sendMessageStream client p))
                    (started env p s))) as [[[] Hok] Hshown].
  split; [exact Hok | exact Hshown].
Qed.

Lemma broken_stream_appends_fallback_answer_witness :
  let client := agent [Message (Some [TextPart "Hel"])] (Some "connection reset")
                      (Ok (RpcResult (Message (Some [TextPart "Hello World"])))) in
  shownTexts (trace (exec (DialogBot.handleStreamingResponse calm client hello) fresh))
  = [DialogBot.robot +++ " Hel"; DialogBot.robot +++ " Hello World"].
Proof.
  cbv zeta.
  destruct (broken_stream_appends_fallback_answer calm
              (agent [Message (Some [TextPart "Hel"])] (Some "connection reset")
                     (Ok (RpcResult (Message (Some [TextPart "Hello World"])))))
              hello (Message (Some [TextPart "Hello World"])) "connection reset" fresh
              (fun _ => eq_refl) eq_refl eq_refl eq_refl) as [_ Hshown].
  exact Hshown.
Defined.

(** ** Requests to the agent, and failures that reach the caller *)

Section OneRequest.
Variable env : Env.

Ltac asks_nothing :=
  first [ apply suspend_noRequest
        | apply sendText_noRequest
        | apply record_noRequest; reflexivity ].

Lemma bot_final_noRequest : steps noRequest (DialogBot.finalResponse env).
Proof.
  unfold DialogBot.finalResponse, DialogBot.displayArtifacts, DialogBot.displayPart,
    updateActivity.
  stepwise noRequest_refl noRequest_trans asks_nothing.
Qed.

Lemma dialog_final_noRequest : steps noRequest (MainDialog.finalResponse env).
Proof.
  unfold MainDialog.finalResponse, MainDialog.displayTaskArtifacts, MainDialog.displayPart,
    updateActivity.
  stepwise noRequest_refl noRequest_trans asks_nothing.
Qed.

Lemma streaming_requests robot (final fallback : M unit) client p s :
  steps noRequest final ->
  (forall s1,
     count isOpenStream (trace (exec fallback s1)) = count isOpenStream (trace s1) /\
     count isSendMessage (trace (exec fallback s1)) <= count isSendMessage (trace s1) + 1) ->
  let s' := exec (try_catch (consumeStream env robot client p ;; final)
                            (fun _ => fallback)) s in
  count isOpenStream (trace s') <= count isOpenStream (trace s) + 1 /\
  count isSendMessage (trace s') <= count isSendMessage (trace s) + 1.
Proof.
  intros Hfinal Hfallback. cbv zeta. unfold exec. rewrite run_streaming.
  destruct (sendOutcome env (awaits s)).
  - destruct (Hfallback (notStarted env s)) as [H1 H2]. unfold exec in H1, H2.
    simpl in H1, H2. counting_in H1. counting_in H2. lia.
  - unfold try_catch, bind.
    pose proof (streamLoop_noRequest env robot (sendMessageStream client p) (started env p s))
      as [Ho Hs].
    unfold exec in Ho, Hs. simpl in Ho, Hs. counting_in Ho. counting_in Hs.
    destruct (streamLoop env robot (sendMessageStream client p) (started env p s))
      as [[[] | e] s1]; simpl in *.
    + pose proof (Hfinal s1) as [Ho1 Hs1]. unfold exec in Ho1, Hs1.
      destruct (final s1) as [[[] | e] s2]; simpl in *; [lia |].
      destruct (Hfallback s2) as [H1 H2]. unfold exec in H1, H2. lia.
    + destruct (Hfallback s1) as [H1 H2]. unfold exec in H1, H2. lia.
Qed.

End OneRequest.

(** A run of [handleStreamingResponse] never asks twice: whatever the
    stream, the surface and the agent do, it opens at most one stream
    and calls [sendMessage] at most once. *)
Theorem at_most_one_request_of_each_kind env client p s :
  (count isOpenStream (trace (exec (DialogBot.handleStreamingResponse env client p) s))
   <= count isOpenStream (trace s) + 1 /\
   count isSendMessage (trace (exec (DialogBot.handleStreamingResponse env client p) s))
   <= count isSendMessage (trace s) + 1) /\
  (count isOpenStream (trace (exec (MainDialog.handleStreamingResponse env client p) s))
   <= count isOpenStream (trace s) + 1 /\
   count isSendMessage (trace (exec (MainDialog.handleStreamingResponse env client p) s))
   <= count isSendMessage (trace s) + 1).
Proof.
  split.
  - apply (streaming_requests env DialogBot.robot (DialogBot.finalResponse env)
             (DialogBot.handleRegularResponse env client p) client p s).
    + apply bot_final_noRequest.
    + intros s1. apply bot_fallback_one_request.
  - apply (streaming_requests env MainDialog.robot (MainDialog.finalResponse env)
             (MainDialog.handleRegularResponse env client p) client p s).
    + apply dialog_final_noRequest.
    + intros s1. apply dialog_fallback_one_request.
Qed.

Lemma swallow_returns m s : result (swallow m) s = Ok tt.
Proof.
  unfold result, swallow, try_catch. now destruct (m s) as [[[] | e] s'].
Qed.

Section Contained.
Variable env : Env.
Hypothesis surface_works : forall k, sendOutcome env k = None.

Lemma notice_returns text c s : result (sendText env text ;; record c) s = Ok tt.
Proof. unfold result, bind. rewrite run_sendText, surface_works. reflexivity. Qed.

Lemma dialog_step_returns userText uuid s :
  result (MainDialog.handleQueryResponse env userText uuid) s = Ok tt.
Proof.
  unfold MainDialog.handleQueryResponse.
  destruct (String.eqb (JS.toLowerCase userText) "exit"); [apply notice_returns |].
  unfold result. unfold bind at 1. unfold getTurnState at 1. cbv beta iota.
  destruct (a2aClient (turnState s)) as [client |]; [| apply notice_returns].
  unfold try_catch. unfold bind at 1.
  destruct (MainDialog.sendMessageWithPolling env client userText uuid s) as [[[] | e] s1].
  - reflexivity.
  - apply notice_returns.
Qed.

Lemma router_returns activityText uuid s :
  exists returned, result (DialogBot.routeOrFallThrough env activityText uuid) s = Ok returned.
Proof.
  unfold DialogBot.routeOrFallThrough, result.
  unfold bind at 1. unfold getTurnState at 1. cbv beta iota.
  destruct (a2aClient (turnState s)) as [client |]; [| now exists false].
  destruct (negb (DialogBot.isDialogCommand activityText)
            && JS.truthy (accessToken (turnState s))); [| now exists false].
  unfold try_catch. unfold bind at 1.
  destruct (DialogBot.routeToA2AAgent env activityText uuid client s) as [[[] | e] s1].
  - now exists true.
  - destruct (DialogBot.isAuthError e); [now exists false |].
    exists true. unfold bind at 1. rewrite run_sendText, surface_works. reflexivity.
Qed.

Lemma bot_handler_returns activityText uuid s :
  (forall s0, result (waterfall env) s0 = Ok tt) ->
  result (DialogBot.handleMessage env activityText uuid) s = Ok tt.
Proof.
  intros Hstack. unfold DialogBot.handleMessage, result. unfold bind at 1.
  destruct (router_returns activityText uuid s) as [returned Hrouter].
  unfold result in Hrouter.
  destruct (DialogBot.routeOrFallThrough env activityText uuid s) as [r s1].
  simpl in Hrouter. subst r. destruct returned; [reflexivity |].
  unfold bind at 1. unfold record at 1. cbv beta iota.
  unfold bind at 1. unfold MainDialog.run. unfold bind at 1.
  match goal with
  | |- context [MainDialog.restoreA2AState env ?s2] =>
      assert (Hrestore : result (MainDialog.restoreA2AState env) s2 = Ok tt)
        by (unfold MainDialog.restoreA2AState; apply swallow_returns);
      unfold result in Hrestore;
      destruct (MainDialog.restoreA2AState env s2) as [r s3]
  end.
  simpl in Hrestore. subst r. unfold bind at 1.
  specialize (Hstack s3). unfold result in Hstack.
  destruct (waterfall env s3) as [r s4]. simpl in Hstack. subst r.
  assert (Hpersist : result MainDialog.persistA2AState s4 = Ok tt)
    by (unfold MainDialog.persistA2AState; apply swallow_returns).
  unfold result in Hpersist.
  destruct (MainDialog.persistA2AState s4) as [r s5]. simpl in Hpersist. subst r.
  reflexivity.
Qed.

End Contained.

(** No failure of the agent reaches the caller of the two entry points:
    on a surface that accepts every [sendActivity], the last step of the
    waterfall always returns, and so does the handler of the bot when
    the dialog stack returns; whatever the stream and [sendMessage] do,
    the failure is reported or handed to the sign-in dialog. *)
Theorem entry_points_contain_failures env text uuid s :
  (forall k, sendOutcome env k = None) ->
  (forall userText, result (MainDialog.handleQueryResponse env userText uuid) s = Ok tt) /\
  ((forall s0, result (waterfall env) s0 = Ok tt) ->
   result (DialogBot.handleMessage env text uuid) s = Ok tt).
Proof.
  intros Hsend. split.
  - intros userText. now apply dialog_step_returns.
  - now apply bot_handler_returns.
Qed.

Lemma entry_points_contain_failures_witness :
  let client := agent [] (Some "connection reset") (Throw "500 Internal Server Error") in
  result (MainDialog.handleQueryResponse calm "hi" "m-1") (signedIn client true) = Ok tt /\
  result (DialogBot.handleMessage calm (Some "hi") "m-1") (signedIn client true) = Ok tt.
Proof.
  cbv zeta.
  destruct (entry_points_contain_failures calm (Some "hi") "m-1"
              (signedIn (agent [] (Some "connection reset")
                               (Throw "500 Internal Server Error")) true)
              (fun _ => eq_refl)) as [Hdialog Hbot].
  exact (conj (Hdialog "hi") (Hbot (fun _ => eq_refl))).
Defined.

(** ** A session across [MainDialog.run] *)

(** A session that is stored stays stored: when the conversation state
    holds a token and a URL and the dialog stack leaves the session
    alone, [MainDialog.run] ends with the stored session as it found it,
    whether the agent card could be fetched again or not and whether the
    dialog stack returned or threw. *)
Theorem run_keeps_stored_session env token url s :
  conversationState (turnState s) = true ->
  a2aState s = mkSaved (Some token) (Some url) -> token <> "" -> url <> "" ->
  steps sameSession (waterfall env) ->
  a2aState (exec (MainDialog.run env) s) = a2aState s.
Proof.
  intros Hstate Hsaved Hne1 Hne2 Hstack.
  destruct (run_restore env s token url Hstate Hsaved Hne1 Hne2)
    as ((Hok & Hstate1) & Htoken & Hurl & _).
  pose proof (restore_keeps env s) as Hkept.
  unfold result, exec in *. unfold MainDialog.run. unfold bind at 1.
  destruct (MainDialog.restoreA2AState env s) as [r s1]. simpl in *. subst r.
  unfold bind at 1.
  destruct (Hstack s1) as [Hturn Hsaved2]. unfold exec in Hturn, Hsaved2.
  destruct (waterfall env s1) as [[[] | e] s2]; simpl in *; [| congruence].
  rewrite (run_persist s2 token url); simpl; try congruence.
Qed.

Lemma run_keeps_stored_session_witness :
  let client := agent [] None (Throw "unused") in
  a2aState (exec (MainDialog.run calm) (signedIn client true))
  = a2aState (signedIn client true).
Proof.
  cbv zeta.
  apply (run_keeps_stored_session calm "token" "https://agent"
           (signedIn (agent [] None (Throw "unused")) true));
    try reflexivity; try discriminate.
  intros s. apply sameSession_refl.
Defined.

(** ** Streams that fail, and a surface that fails at once *)

Lemma forAwait_failing env robot evs e s :
  forAwait env robot evs (Some e) s =
  match forAwait env robot evs None s with
  | (Ok _, s') => (Throw e, s')
  | (Throw e', s') => (Throw e', s')
  end.
Proof.
  revert s. induction evs as [| event rest IH]; intros s; cbn [forAwait].
  - unfold bind. now rewrite !run_suspend.
  - unfold bind. rewrite !run_suspend.
    match goal with
    | |- context [processEvent env robot event ?s1] =>
        destruct (processEvent env robot event s1) as [[[] | e'] s2]
    end; [apply IH | reflexivity].
Qed.

Section FailingStream.
Variable env : Env.
Hypothesis surface_works : forall k, sendOutcome env k = None.

Lemma failing_stream_throws robot client p e s :
  failure (sendMessageStream client p) = Some e ->
  result (streamLoop env robot (sendMessageStream client p)) (started env p s) = Throw e.
Proof.
  intros Hfail. unfold result. rewrite run_streamLoop. cbv zeta. simpl.
  rewrite Hfail. unfold result. rewrite forAwait_failing.
  assert (Hstart : oneMessage (trace s) (started env p s)).
  { exists (Typing :: noise env (awaits s) s ++ [OpenStream p]). simpl. split.
    - now rewrite <- app_assoc.
    - repeat split; now counting. }
  destruct (forAwait_one env robot (trace s) surface_works
              (events (sendMessageStream client p)) _ Hstart) as [[[] Hok] _].
  unfold result in Hok.
  destruct (forAwait env robot (events (sendMessageStream client p)) None (started env p s))
    as [r s1].
  simpl in Hok. now subst r.
Qed.

Ltac asks_nothing :=
  first [ apply suspend_noRequest
        | apply sendText_noRequest
        | apply record_noRequest; reflexivity ].

Lemma bot_fallback_asks_once client p s :
  count isSendMessage (trace (exec (DialogBot.handleRegularResponse env client p) s))
  = count isSendMessage (trace s) + 1.
Proof.
  unfold exec, DialogBot.handleRegularResponse.
  rewrite run_after_typing, surface_works. rewrite run_after_record.
  match goal with
  | |- context [snd (?m ?s1)] =>
      assert (Hrest : steps noRequest m);
      [ | pose proof (Hrest s1) as [_ H2]; unfold exec in H2; simpl in *;
          counting_in H2; lia ]
  end.
  unfold DialogBot.displayArtifacts, DialogBot.displayPart.
  stepwise noRequest_refl noRequest_trans asks_nothing.
Qed.

Lemma dialog_fallback_asks_once client p s :
  count isSendMessage (trace (exec (MainDialog.handleRegularResponse env client p) s))
  = count isSendMessage (trace s) + 1.
Proof.
  unfold exec, MainDialog.handleRegularResponse.
  rewrite run_after_typing, surface_works. rewrite run_after_record.
  match goal with
  | |- context [snd (?m ?s1)] =>
      assert (Hrest : steps noRequest m);
      [ | pose proof (Hrest s1) as [_ H2]; unfold exec in H2; simpl in *;
          counting_in H2; lia ]
  end.
  unfold MainDialog.displayTaskArtifacts, MainDialog.displayPart.
  stepwise noRequest_refl noRequest_trans asks_nothing.
Qed.

Lemma failing_stream_asks robot (final : M unit) (fallback : SendParams -> M unit)
    client p e s :
  failure (sendMessageStream client p) = Some e ->
  (forall s1,
     count isOpenStream (trace (exec (fallback p) s1)) = count isOpenStream (trace s1) /\
     count isSendMessage (trace (exec (fallback p) s1)) <= count isSendMessage (trace s1) + 1) ->
  (forall s1, count isSendMessage (trace (exec (fallback p) s1))
              = count isSendMessage (trace s1) + 1) ->
  let handle := try_catch (consumeStream env robot client p ;; final)
                          (fun _ => fallback p) in
  handle s = fallback p (exec (streamLoop env robot (sendMessageStream client p))
                              (started env p s)) /\
  count isSendMessage (trace (exec handle s)) = count isSendMessage (trace s) + 1.
Proof.
  intros Hfail Hbound Hexact. cbv zeta.
  pose proof (failing_stream_throws robot client p e s Hfail) as Hthrow.
  destruct (streaming_falls_back env robot final fallback client p s e
              (surface_works _) Hthrow Hbound) as (_ & _ & Hrun & _).
  split; [exact Hrun |].
  pose proof (Hexact (exec (streamLoop env robot (sendMessageStream client p))
                           (started env p s))) as Hasked.
  unfold exec at 1 in Hasked. rewrite <- Hrun in Hasked.
  unfold exec at 1. rewrite Hasked.
  pose proof (streamLoop_noRequest env robot (sendMessageStream client p) (started env p s))
    as [_ Hsent].
  rewrite Hsent. simpl. counting. lia.
Qed.

End FailingStream.

(** A stream that fails always ends in the fallback: on a surface that
    accepts every [sendActivity], a stream that ends with an exception
    makes the loop throw that exception once every event before it has
    been handled, and the run is then one run of the fallback from the
    state the loop left, which calls [sendMessage] exactly once. *)
Theorem failing_stream_always_falls_back env client p e s :
  (forall k, sendOutcome env k = None) ->
  failure (sendMessageStream client p) = Some e ->
  (result (streamLoop env DialogBot.robot (sendMessageStream client p)) (started env p s)
   = Throw e /\
   DialogBot.handleStreamingResponse env client p s
   = DialogBot.handleRegularResponse env client p
       (exec (streamLoop env DialogBot.robot (sendMessageStream client p)) (started env p s)) /\
   count isSendMessage (trace (exec (DialogBot.handleStreamingResponse env client p) s))
   = count isSendMessage (trace s) + 1) /\
  (result (streamLoop env MainDialog.robot (sendMessageStream client p)) (started env p s)
   = Throw e /\
   MainDialog.handleStreamingResponse env client p s
   = MainDialog.handleRegularResponse env client p
       (exec (streamLoop env MainDialog.robot (sendMessageStream client p)) (started env p s)) /\
   count isSendMessage (trace (exec (MainDialog.handleStreamingResponse env client p) s))
   = count isSendMessage (trace s) + 1).
Proof.
  intros Hsend Hfail. split.
  - split; [now apply failing_stream_throws |].
    apply (failing_stream_asks env Hsend DialogBot.robot (DialogBot.finalResponse env)
             (DialogBot.handleRegularResponse env client) client p e s Hfail).
    + intros s1. apply bot_fallback_one_request.
    + intros s1. now apply bot_fallback_asks_once.
  - split; [now apply failing_stream_throws |].
    apply (failing_stream_asks env Hsend MainDialog.robot (MainDialog.finalResponse env)
             (MainDialog.handleRegularResponse env client) client p e s Hfail).
    + intros s1. apply dialog_fallback_one_request.
    + intros s1. now apply dialog_fallback_asks_once.
Qed.

Lemma failing_stream_always_falls_back_witness :
  let client := agent fiveTexts (Some "connection reset") (Throw "gateway timeout") in
  count isSendMessage (trace (exec (DialogBot.handleStreamingResponse calm client hello) fresh))
  = 1 /\
  count isSendMessage (trace (exec (MainDialog.handleStreamingResponse calm client hello) fresh))
  = 1.
Proof.
  cbv zeta.
  destruct (failing_stream_always_falls_back calm
              (agent fiveTexts (Some "connection reset") (Throw "gateway timeout"))
              hello "connection reset" fresh (fun _ => eq_refl) eq_refl)
    as [(_ & _ & Hbot) (_ & _ & Hdialog)].
  exact (conj Hbot Hdialog).
Defined.

(** When the first typing indicator cannot be sent, no stream is opened
    and no timer is set: the run of [handleStreamingResponse] is one run
    of the fallback, which starts with a typing indicator of its own. *)
Theorem typing_failure_skips_stream env client p e s :
  sendOutcome env (awaits s) = Some e ->
  (DialogBot.handleStreamingResponse env client p s
   = DialogBot.handleRegularResponse env client p (notStarted env s) /\
   MainDialog.handleStreamingResponse env client p s
   = MainDialog.handleRegularResponse env client p (notStarted env s)) /\
  count isOpenStream (trace (exec (DialogBot.handleStreamingResponse env client p) s))
  = count isOpenStream (trace s) /\
  count isOpenStream (trace (exec (MainDialog.handleStreamingResponse env client p) s))
  = count isOpenStream (trace s).
Proof.
  intros Htyping.
  assert (Hbot : DialogBot.handleStreamingResponse env client p s
                 = DialogBot.handleRegularResponse env client p (notStarted env s))
    by (unfold DialogBot.handleStreamingResponse; now rewrite run_streaming, Htyping).
  assert (Hdialog : MainDialog.handleStreamingResponse env client p s
                    = MainDialog.handleRegularResponse env client p (notStarted env s))
    by (unfold MainDialog.handleStreamingResponse; now rewrite run_streaming, Htyping).
  split; [now split |]. unfold exec. rewrite Hbot, Hdialog. split.
  - destruct (bot_fallback_one_request env client p (notStarted env s)) as [Hopen _].
    unfold exec in Hopen. rewrite Hopen. simpl. counting. lia.
  - destruct (dialog_fallback_one_request env client p (notStarted env s)) as [Hopen _].
    unfold exec in Hopen. rewrite Hopen. simpl. counting. lia.
Qed.

Lemma typing_failure_skips_stream_witness :
  let env := mkEnv (fun k => if k =? 0 then Some "throttled" else None) (fun _ => None)
                   (fun _ => 0) (fun _ _ => Throw "offline") idle in
  let client := agent fiveTexts None (Ok (RpcResult (Message (Some [TextPart "abcde"])))) in
  trace (exec (DialogBot.handleStreamingResponse env client hello) fresh)
  = [Typing; Typing; SendMessage hello; Send (DialogBot.robot +++ " abcde")].
Proof.
  cbv zeta.
  match goal with
  | |- context [DialogBot.handleStreamingResponse ?e ?c ?p] =>
      destruct (typing_failure_skips_stream e c p "throttled" fresh eq_refl)
        as [[Hbot _] _]
  end.
  unfold exec. rewrite Hbot. reflexivity.
Defined.

(** ** The session during reconciliation *)

Section Untouched.
Variable env : Env.

Lemma dialog_streaming_sameSession client p :
  steps sameSession (MainDialog.handleStreamingResponse env client p).
Proof.
  assert (Hevent : forall event, steps sameSession (processEvent env MainDialog.robot event)).
  { intros event.
    unfold processEvent, onMessage, onTask, onStatusUpdate, onArtifactUpdate,
      collectPart, contribute, clearInterval, sendActivity, updateActivity.
    stepwise sameSession_refl sameSession_trans ltac:(apply suspend_sameSession). }
  assert (Hloop : forall evs fail, steps sameSession (forAwait env MainDialog.robot evs fail)).
  { induction evs as [| event rest IH]; intros fail; simpl;
      stepwise sameSession_refl sameSession_trans
        ltac:(first [ apply IH | apply Hevent | apply suspend_sameSession ]). }
  unfold MainDialog.handleStreamingResponse, consumeStream, startStreaming, streamLoop,
    cleanup, clearInterval, setInterval, sendTyping,
    MainDialog.finalResponse, MainDialog.handleRegularResponse,
    MainDialog.displayTaskArtifacts, MainDialog.displayPart, updateActivity.
  stepwise sameSession_refl sameSession_trans
    ltac:(first [ apply Hloop | apply sendText_sameSession | apply suspend_sameSession ]).
Qed.

Lemma bot_fallback_sameSession client p :
  steps sameSession (DialogBot.handleRegularResponse env client p).
Proof.
  unfold DialogBot.handleRegularResponse, DialogBot.displayArtifacts, DialogBot.displayPart,
    sendTyping.
  stepwise sameSession_refl sameSession_trans
    ltac:(first [ apply sendText_sameSession | apply suspend_sameSession ]).
Qed.

Lemma dialog_fallback_sameSession client p :
  steps sameSession (MainDialog.handleRegularResponse env client p).
Proof.
  unfold MainDialog.handleRegularResponse, MainDialog.displayTaskArtifacts,
    MainDialog.displayPart, sendTyping.
  stepwise sameSession_refl sameSession_trans
    ltac:(first [ apply sendText_sameSession | apply suspend_sameSession ]).
Qed.

End Untouched.

(** Talking to the agent never touches the session: whatever the
    stream, the surface and the agent do, a run of
    [handleStreamingResponse] or of [handleRegularResponse], in either
    file, ends with the turn state (token, client, card, URL) and the
    persisted session exactly as they were.  Only the router and the
    dialog change them. *)
Theorem reconciliation_never_touches_session env client p s :
  (sameSession s (exec (DialogBot.handleStreamingResponse env client p) s) /\
   sameSession s (exec (DialogBot.handleRegularResponse env client p) s)) /\
  (sameSession s (exec (MainDialog.handleStreamingResponse env client p) s) /\
   sameSession s (exec (MainDialog.handleRegularResponse env client p) s)).
Proof.
  repeat split;
    first [ apply (bot_streaming_sameSession env client p s)
          | apply (bot_fallback_sameSession env client p s)
          | apply (dialog_streaming_sameSession env client p s)
          | apply (dialog_fallback_sameSession env client p s) ].
Qed.
